(** * AI browser controller: monitor, plan executor, recovery loop, reporter

    A shallow embedding of [runtime_state.py], [selenium_executor.py],
    [orchestrator.py] and the summary part of [reporter.py], followed by the
    properties of the execution-and-recovery loop.

    Python objects are modelled as follows.
    - A value stored in a JSON step ([str], [int], [bool], [None]) is a
      [pyval]; a step and the status dictionary are [gmap string pyval].
      Steps that carry floats, arrays or objects are not covered.
    - A string is a sequence of one-byte characters; text outside ASCII is
      written as its UTF-8 bytes, so that slices agree with Python on
      ASCII text.
    - A float is the rational that the binary64 number stands for, and
      every float operation rounds with [to_double].
    - Code that may raise runs in the state-and-exception monad [M S]:
      a computation takes the state and gives back either a value or the
      message of the raised [Exception], with the state reached so far.
    - Everything outside the interpreter (console, wall clock, browser,
      language model) is one opaque state [X] with the operations of
      class [Outside]; every call into the browser may raise. *)

From Stdlib Require Import QArith Ascii.
From stdpp Require Import base strings list gmap pretty numbers.

Close Scope Q_scope.
Open Scope string_scope.
Open Scope Z_scope.

(** ** Python values and exceptions *)

Inductive pyval : Type :=
| PNone
| PBool (b : bool)
| PInt (n : Z)
| PStr (s : string).

#[global] Instance pyval_eq_dec : EqDecision pyval.
Proof. solve_decision. Defined.

Definition pyval_to_sum (v : pyval) : unit + bool + Z + string :=
  match v with
  | PNone => inl (inl (inl tt))
  | PBool b => inl (inl (inr b))
  | PInt n => inl (inr n)
  | PStr s => inr s
  end.

Definition pyval_of_sum (x : unit + bool + Z + string) : pyval :=
  match x with
  | inl (inl (inl _)) => PNone
  | inl (inl (inr b)) => PBool b
  | inl (inr n) => PInt n
  | inr s => PStr s
  end.

#[global] Instance pyval_countable : Countable pyval.
Proof.
  refine (inj_countable' pyval_to_sum pyval_of_sum _).
  intros []; reflexivity.
Defined.

(** [bool(v)]: the truth value Python gives to [v]. *)
Definition truthy (v : pyval) : bool :=
  match v with
  | PNone => false
  | PBool b => b
  | PInt n => negb (n =? 0)
  | PStr s => negb (String.eqb s "")
  end.

(** [str(v)], as an f-string interpolates it. *)
Definition pystr (v : pyval) : string :=
  match v with
  | PNone => "None"
  | PBool true => "True"
  | PBool false => "False"
  | PInt n => pretty n
  | PStr s => s
  end.

(** Outcome of a call: a value, or the message [str(e)] of the raised
    [Exception]. Every handler of the program is [except Exception] (or
    wider), so the class of the exception plays no role; what ends the
    interpreter without being an [Exception] ([KeyboardInterrupt],
    [SystemExit]) is not modelled. *)
Inductive Res (A : Type) : Type :=
| Returned (a : A)
| Raised (msg : string).
Arguments Returned {A} a.
Arguments Raised {A} msg.

Definition M (S A : Type) : Type := S -> Res A * S.

Definition pure {S A} (a : A) : M S A := fun s => (Returned a, s).

Definition raise {S A} (msg : string) : M S A := fun s => (Raised msg, s).

Definition bind {S A B} (c : M S A) (k : A -> M S B) : M S B :=
  fun s =>
    match c s with
    | (Returned a, s') => k a s'
    | (Raised msg, s') => (Raised msg, s')
    end.

(** [try: body  except Exception as e: handler(e)] *)
Definition try_except {S A} (body : M S A) (handler : string -> M S A) : M S A :=
  fun s =>
    match body s with
    | (Returned a, s') => (Returned a, s')
    | (Raised msg, s') => handler msg s'
    end.

(** A state change that cannot raise. *)
Definition modify {S} (f : S -> S) : M S unit := fun s => (Returned tt, f s).

Notation "'let*' x ':=' c 'in' k" := (bind c (fun x => k))
  (at level 10, x pattern, c at level 100, k at level 200).
Notation "c ';;;' k" := (bind c (fun _ => k))
  (at level 100, k at level 200, right associativity).

(** [d.get(k)] and [d[k]] on a dictionary of JSON scalars. *)
Definition dict_get (d : gmap string pyval) (k : string) : pyval :=
  default PNone (d !! k).

Definition dict_get_default (d : gmap string pyval) (k : string) (dflt : pyval) : pyval :=
  default dflt (d !! k).

Definition dict_item {S} (d : gmap string pyval) (k : string) : M S pyval :=
  match d !! k with
  | Some v => pure v
  | None => raise ("'" ++ k ++ "'")
  end.

(** The integer nearest to [q], ties to even. *)
Definition round_half_even (q : Q) : Z :=
  let n := Qnum q in
  let d := Zpos (Qden q) in
  let fl := n `div` d in
  let r2 := 2 * (n `mod` d) in
  if r2 <? d then fl
  else if d <? r2 then fl + 1
  else if Z.even fl then fl else fl + 1.

(** A Python float is a binary64 number, kept here as the rational it
    stands for. [to_double] is the rounding of every float operation: the
    binary64 number nearest to [q], ties to even, for the magnitudes that
    binary64 holds as normal numbers. With [2 ^ e <= |q| < 2 ^ (e + 1)]
    the result is [m * 2 ^ (e - 52)] for the integer [m] nearest to
    [|q| / 2 ^ (e - 52)]. *)
Definition to_double (q : Q) : Q :=
  let n := Qnum q in
  let d := Zpos (Qden q) in
  if n =? 0 then Qmake 0 1
  else
    let a := Z.abs n in
    let e0 := Z.log2 a - Z.log2 d in
    let below := if 0 <=? e0 then a <? d * 2 ^ e0 else a * 2 ^ (- e0) <? d in
    let e := if below then e0 - 1 else e0 in
    let s := e - 52 in
    if 0 <=? s then
      let m := round_half_even (Qmake a (Z.to_pos (d * 2 ^ s))) in
      Qred (Qmake (Z.sgn n * m * 2 ^ s) 1)
    else
      let m := round_half_even (Qmake (a * 2 ^ (- s)) (Z.to_pos d)) in
      Qred (Qmake (Z.sgn n * m) (Z.to_pos (2 ^ (- s)))).

(** A float with the sign of its zero: [0 / -3] is [-0.0]. *)
Inductive pyfloat : Type :=
| Finite (q : Q)
| NegativeZero.

(** [f"{x:.1f}"] for the float of value [q]: the decimal nearest to the
    value, ties to even, with the sign of the value. *)
Definition format_1f (q : Q) : string :=
  let t := round_half_even (Qmult q (Qmake 10 1)) in
  (if Qnum q <? 0 then "-" else "")
  ++ pretty (Z.abs t `div` 10) ++ "." ++ pretty (Z.abs t `mod` 10).

Definition format_float_1f (x : pyfloat) : string :=
  match x with
  | Finite q => format_1f q
  | NegativeZero => "-0.0"
  end.

(** [x * 100] *)
Definition times_100 (x : pyfloat) : pyfloat :=
  match x with
  | Finite q => Finite (to_double (Qmult q (Qmake 100 1)))
  | NegativeZero => NegativeZero
  end.

(** ** The wall clock *)

Record datetime : Type := {
  year : nat; month : nat; day : nat;
  hour : nat; minute : nat; second : nat; microsecond : nat
}.

Definition digit (n : nat) : Ascii.ascii :=
  Ascii.ascii_of_nat (48 + n `mod` 10).

(** The last [width] decimal digits of [n], zero padded. *)
Fixpoint digits (width n : nat) : string :=
  match width with
  | O => ""
  | S w => digits w (n `div` 10) ++ String (digit n) ""
  end.

Definition isoformat (t : datetime) : string :=
  digits 4 (year t) ++ "-" ++ digits 2 (month t) ++ "-" ++ digits 2 (day t)
  ++ "T" ++ digits 2 (hour t) ++ ":" ++ digits 2 (minute t) ++ ":" ++ digits 2 (second t)
  ++ (if (microsecond t =? 0)%nat then "" else "." ++ digits 6 (microsecond t)).

(** [strftime("%Y%m%d" + sep + "%H%M%S")] *)
Definition strftime_compact (sep : string) (t : datetime) : string :=
  digits 4 (year t) ++ digits 2 (month t) ++ digits 2 (day t) ++ sep
  ++ digits 2 (hour t) ++ digits 2 (minute t) ++ digits 2 (second t).

(** ** runtime_state.py *)

Module runtime_state.

Record StepEvent : Type := {
  step_index : Z;
  action : pyval;
  status : string;
  timestamp : string;
  selector : pyval;
  url : pyval;
  value : pyval;
  error : pyval;
  screenshot_path : pyval
}.

#[global] Instance StepEvent_eq_dec : EqDecision StepEvent.
Proof. solve_decision. Defined.

(** [s.split(c)] for a one-character separator [c]. *)
Fixpoint split_on (c : ascii) (s : string) : list string :=
  match s with
  | EmptyString => [EmptyString]
  | String a rest =>
      if Ascii.eqb a c then EmptyString :: split_on c rest
      else match split_on c rest with
           | [] => [String a EmptyString]
           | w :: ws => String a w :: ws
           end
  end.

Section monitor.
Context {X : Type}.
Context (print : string -> X -> X).

(** A registered callback: it is handed the event, acts on the outside
    world, and returns or raises. *)
Definition Listener : Type := StepEvent -> M X unit.

Record RuntimeMonitor : Type := {
  events : list StepEvent;
  listeners : list Listener;
  current_step : option Z
}.

Definition __init__ : RuntimeMonitor :=
  {| events := []; listeners := []; current_step := None |}.

Definition add_listener (callback : Listener) (self : RuntimeMonitor) : RuntimeMonitor :=
  {| events := events self;
     listeners := listeners self ++ [callback];
     current_step := current_step self |}.

(** The loop [for listener in self.listeners: try: listener(event) ...]. *)
Fixpoint call_listeners (ls : list Listener) (event : StepEvent) : M X unit :=
  match ls with
  | [] => pure tt
  | listener :: rest =>
      try_except (listener event)
                 (fun e => modify (print ("Listener error: " ++ e))) ;;;
      call_listeners rest event
  end.

Definition emit (event : StepEvent) : M (RuntimeMonitor * X) unit :=
  fun '(self, x) =>
    let self' := {| events := events self ++ [event];
                    listeners := listeners self;
                    current_step := Some (step_index event) |} in
    let '(r, x') := call_listeners (listeners self') event x in
    (r, (self', x')).

(** [max(e.step_index for e in self.events)] on a non-empty log. *)
Definition max_step_index (first : StepEvent) (rest : list StepEvent) : Z :=
  foldl (fun m e => Z.max m (step_index e)) (step_index first) rest.

Definition with_status (s : string) (es : list StepEvent) : list StepEvent :=
  filter (fun e => status e = s) es.

Definition option_int (o : option Z) : pyval :=
  match o with
  | Some n => PInt n
  | None => PNone
  end.

Definition get_current_status (self : RuntimeMonitor) : gmap string pyval :=
  match events self with
  | [] => {[ "status" := PStr "not_started"; "total_steps" := PInt 0 ]}
  | first :: rest =>
      let total_steps := max_step_index first rest + 1 in
      let completed := length (with_status "success" (events self)) in
      let failed := length (with_status "failed" (events self)) in
      {[ "status" := PStr (if current_step self is Some _ then "running" else "stopped");
         "total_steps" := PInt total_steps;
         "completed" := PInt (Z.of_nat completed);
         "failed" := PInt (Z.of_nat failed);
         "current_step" := option_int (current_step self) ]}
  end.

(** [get_log] returns [asdict] of every event; a record stands for that
    dictionary, whose nine keys are always present. *)
Definition get_log (self : RuntimeMonitor) : list StepEvent := events self.

(** The default console listener. *)
Definition console_listener : Listener :=
  fun event =>
    let symbol := if decide (status event = "started") then "⏳"
                  else if decide (status event = "success") then "✓"
                  else if decide (status event = "failed") then "✗"
                  else "•" in
    match split_on "T" (timestamp event) !! 1%nat with
    | None => raise "list index out of range"
    | Some time_part =>
        let timestamp := default EmptyString (head (split_on "." time_part)) in
        let msg := "[" ++ timestamp ++ "] " ++ symbol ++ " Step "
                   ++ pretty (step_index event) ++ ": " ++ pystr (action event) in
        let msg := if truthy (selector event)
                   then msg ++ " (" ++ pystr (selector event) ++ ")" else msg in
        let msg := if bool_decide (status event = "failed") && truthy (error event)
                   then msg ++ String (ascii_of_nat 10) "  Error: " ++ pystr (error event)
                   else msg in
        modify (print msg)
    end.

End monitor.

Arguments RuntimeMonitor X : clear implicits.
Arguments Listener X : clear implicits.

End runtime_state.

(** ** Plans, and the world outside the interpreter *)

(** A step is the JSON object the planner returned for it. *)
Abbreviation Step := (gmap string pyval).

(** A plan is a dictionary whose only key of interest is ["steps"]; the
    field is [None] when the key is absent. *)
Record Plan : Type := { steps : option (list Step) }.

(** What is sent to the language model as the user message. The context
    of a refinement is kept structured instead of formatted into text. *)
Inductive Prompt : Type :=
| UserPrompt (text : string)
| RefineContext (error_step : Z) (error_msg : string)
                (original_step : Step) (dom_context : option string).

(** What comes back from [requests.post] and the decoding of the reply.
    A reply that decodes is taken to be a JSON object whose ["steps"],
    when present, is a list of objects with scalar values. *)
Inductive Reply : Type :=
| RequestException (msg : string)
| JSONDecodeError (msg : string)
| OtherError (msg : string)
| Decoded (plan : Plan).

(** A reference to a browser session or to a page element. *)
Definition handle : Type := nat.

(** The operations of the outside world. Every call into selenium is in
    the monad: launching the browser, reading its address or its page
    source, saving a screenshot and quitting can raise as the actions
    can. Printing and reading the clock return. Observers act on the
    outside world only, not on the monitor that calls them. *)
Class Outside (X : Type) : Type := {
  (* builtins, time, datetime *)
  print : string -> X -> X;
  now : X -> datetime * X;
  sleep : pyval -> M X unit;
  (* selenium *)
  Chrome : bool -> M X handle;
  quit : handle -> M X unit;
  get : handle -> pyval -> M X unit;
  current_url : handle -> M X pyval;
  page_source : handle -> M X string;
  save_screenshot : handle -> string -> M X unit;
  until_presence_of_element_located : handle -> Z -> pyval -> M X handle;
  until_element_to_be_clickable : handle -> Z -> pyval -> M X handle;
  clear : handle -> M X unit;
  send_keys : handle -> pyval -> M X unit;
  click : handle -> M X unit;
  (* the chat completion endpoint *)
  chat_completion : Prompt -> X -> Reply * X
}.

(** One branch of the state machine of a run, recorded as it is taken.
    This history is ghost state: no code reads it. *)
Inductive Phase : Type :=
| Planning (ok : bool)
| Executing (outcome : Res bool)
| Recovering (ok : bool).

(** The objects of one orchestrator: the monitor it shares with its
    executor, the fields of the executor, its own settings, and the world
    outside. *)
Record World (X : Type) : Type := {
  monitor : runtime_state.RuntimeMonitor X;
  driver : option handle;
  headless : bool;
  screenshot_dir : string;
  timeout : Z;
  auto_retry : bool;
  max_retries : Z;
  outside : X;
  history : list Phase
}.
Arguments monitor {X} _.
Arguments driver {X} _.
Arguments headless {X} _.
Arguments screenshot_dir {X} _.
Arguments timeout {X} _.
Arguments auto_retry {X} _.
Arguments max_retries {X} _.
Arguments outside {X} _.
Arguments history {X} _.

Section world.
Context {X : Type}.

Definition set_monitor (m : runtime_state.RuntimeMonitor X) (w : World X) : World X :=
  {| monitor := m; driver := driver w; headless := headless w;
     screenshot_dir := screenshot_dir w; timeout := timeout w;
     auto_retry := auto_retry w; max_retries := max_retries w;
     outside := outside w; history := history w |}.

Definition set_driver (d : option handle) (w : World X) : World X :=
  {| monitor := monitor w; driver := d; headless := headless w;
     screenshot_dir := screenshot_dir w; timeout := timeout w;
     auto_retry := auto_retry w; max_retries := max_retries w;
     outside := outside w; history := history w |}.

Definition set_outside (x : X) (w : World X) : World X :=
  {| monitor := monitor w; driver := driver w; headless := headless w;
     screenshot_dir := screenshot_dir w; timeout := timeout w;
     auto_retry := auto_retry w; max_retries := max_retries w;
     outside := x; history := history w |}.

Definition record_phase (p : Phase) (w : World X) : World X :=
  {| monitor := monitor w; driver := driver w; headless := headless w;
     screenshot_dir := screenshot_dir w; timeout := timeout w;
     auto_retry := auto_retry w; max_retries := max_retries w;
     outside := outside w; history := history w ++ [p] |}.

(** Run a computation of the outside world inside the object graph. *)
Definition on_outside {A} (c : M X A) : M (World X) A :=
  fun w => let '(r, x) := c (outside w) in (r, set_outside x w).

Definition ask_outside {A} (c : X -> A * X) : M (World X) A :=
  fun w => let '(a, x) := c (outside w) in (Returned a, set_outside x w).

Definition tell_outside (f : X -> X) : M (World X) unit :=
  fun w => (Returned tt, set_outside (f (outside w)) w).

(** Read the state without changing it. *)
Definition gets {S A} (f : S -> A) : M S A := fun s => (Returned (f s), s).

End world.

(** ** selenium_executor.py *)

Module selenium_executor.
Import runtime_state.

(** [os.path.join(a, b)] *)
Definition path_join (a b : string) : string :=
  if String.prefix "/" b then b
  else if String.eqb a "" then b
  else if String.eqb (String.substring (String.length a - 1) 1 a) "/" then a ++ b
  else a ++ "/" ++ b.

Section executor.
Context `{Outside X}.

Definition monitor_emit (event : StepEvent) : M (World X) unit :=
  fun w =>
    let '(r, (m, x)) := emit print event (monitor w, outside w) in
    (r, set_outside x (set_monitor m w)).

Definition start_browser : M (World X) unit :=
  let* options := gets headless in
  let* h := on_outside (Chrome options) in
  modify (set_driver (Some h)).

Definition stop_browser : M (World X) unit :=
  let* d := gets driver in
  match d with
  | Some h => on_outside (quit h) ;;; modify (set_driver None)
  | None => pure tt
  end.

(** [self.driver.<attr>] where [self.driver] may still be [None]. *)
Definition the_driver (attr : string) : M (World X) handle :=
  fun w =>
    match driver w with
    | Some h => (Returned h, w)
    | None => (Raised ("'NoneType' object has no attribute '" ++ attr ++ "'"), w)
    end.

(** [self.driver.current_url if self.driver else None] *)
Definition current_url_or_none : M (World X) pyval :=
  let* d := gets driver in
  match d with
  | Some h => on_outside (current_url h)
  | None => pure PNone
  end.

Definition _action_open (url : pyval) : M (World X) unit :=
  let* h := the_driver "get" in
  on_outside (get h url) ;;;
  on_outside (sleep (PInt 1)).

Definition _action_type (selector value : pyval) : M (World X) unit :=
  let* t := gets timeout in
  let* h := the_driver "find_element" in
  let* element := on_outside (until_presence_of_element_located h t selector) in
  on_outside (clear element) ;;;
  on_outside (send_keys element value).

Definition _action_click (selector : pyval) : M (World X) unit :=
  let* t := gets timeout in
  let* h := the_driver "find_element" in
  let* element := on_outside (until_element_to_be_clickable h t selector) in
  on_outside (click element).

Definition _action_wait (seconds : pyval) : M (World X) unit :=
  on_outside (sleep seconds).

Definition _save_screenshot (name : string) : M (World X) string :=
  let* t := ask_outside now in
  let filename := name ++ "_" ++ strftime_compact "_" t ++ ".png" in
  let* dir := gets screenshot_dir in
  let filepath := path_join dir filename in
  let* d := gets driver in
  match d with
  | Some h => on_outside (save_screenshot h filepath) ;;; pure filepath
  | None => pure filepath
  end.

(** The [if action == ...] chain inside the [try] of [_execute_step]. The
    screenshot branch assigns [step["screenshot_path"]]; the step as it is
    after the chain is returned for the event that follows. *)
Definition dispatch (step_index : Z) (action : pyval) (step : Step) : M (World X) Step :=
  if decide (action = PStr "open") then
    let* url := dict_item step "url" in
    _action_open url ;;; pure step
  else if decide (action = PStr "type") then
    let* selector := dict_item step "selector" in
    let* value := dict_item step "value" in
    _action_type selector value ;;; pure step
  else if decide (action = PStr "click") then
    let* selector := dict_item step "selector" in
    _action_click selector ;;; pure step
  else if decide (action = PStr "wait") then
    let* seconds := dict_item step "seconds" in
    _action_wait seconds ;;; pure step
  else if decide (action = PStr "screenshot") then
    let* screenshot_path := _save_screenshot ("step_" ++ pretty step_index) in
    pure (<["screenshot_path" := PStr screenshot_path]> step)
  else raise ("Unknown action: " ++ pystr action).

(** The first statement of [_execute_step]: emit the started event. The
    arguments of the event are evaluated in the order they are written. *)
Definition emit_started (step_index : Z) (step : Step) : M (World X) unit :=
  let* t0 := ask_outside now in
  let* url0 := current_url_or_none in
  monitor_emit {| step_index := step_index; action := dict_get step "action";
                  status := "started";
                  timestamp := isoformat t0; selector := dict_get step "selector";
                  url := url0; value := dict_get step "value";
                  error := PNone; screenshot_path := PNone |}.

(** The [try] block of [_execute_step]. *)
Definition attempt (step_index : Z) (step : Step) : M (World X) bool :=
  let action := dict_get step "action" in
  let* step' := dispatch step_index action step in
  let* t1 := ask_outside now in
  let* selector1 := pure (dict_get step' "selector") in
  let* h := the_driver "current_url" in
  let* url1 := on_outside (current_url h) in
  monitor_emit {| step_index := step_index; action := action; status := "success";
                  timestamp := isoformat t1; selector := selector1;
                  url := url1; value := PNone;
                  error := PNone;
                  screenshot_path := dict_get step' "screenshot_path" |} ;;;
  pure true.

(** Its [except Exception as e] block. *)
Definition on_exception (step_index : Z) (step : Step) (e : string) : M (World X) bool :=
  let action := dict_get step "action" in
  let* screenshot_path := _save_screenshot ("error_step_" ++ pretty step_index) in
  let* t2 := ask_outside now in
  let* url2 := current_url_or_none in
  monitor_emit {| step_index := step_index; action := action; status := "failed";
                  timestamp := isoformat t2; selector := dict_get step "selector";
                  url := url2; value := PNone;
                  error := PStr e; screenshot_path := PStr screenshot_path |} ;;;
  pure false.

Definition _execute_step (step_index : Z) (step : Step) : M (World X) bool :=
  emit_started step_index step ;;;
  try_except (attempt step_index step) (on_exception step_index step).

(** What [execute_plan] does when [_execute_step] has returned [False]. *)
Definition report_failure (i : nat) (step : Step) : M (World X) bool :=
  let* screenshot_path := _save_screenshot ("error_step_" ++ pretty i) in
  let* t := ask_outside now in
  let* url := current_url_or_none in
  monitor_emit {| step_index := Z.of_nat i;
                  action := dict_get_default step "action" (PStr "unknown");
                  status := "failed"; timestamp := isoformat t;
                  selector := dict_get step "selector"; url := url;
                  value := PNone; error := PStr "Step execution failed";
                  screenshot_path := PStr screenshot_path |} ;;;
  pure false.

(** The loop [for i, step in enumerate(steps)] of [execute_plan], from
    index [i] on. *)
Fixpoint for_steps (i : nat) (steps : list Step) : M (World X) bool :=
  match steps with
  | [] => pure true
  | step :: rest =>
      let* success := _execute_step (Z.of_nat i) step in
      if success then for_steps (S i) rest
      else report_failure i step
  end.

(** [if not self.driver: self.start_browser()] *)
Definition ensure_browser : M (World X) unit :=
  let* d := gets driver in
  if d is Some _ then pure tt else start_browser.

Definition execute_plan (plan : Plan) : M (World X) bool :=
  ensure_browser ;;;
  for_steps 0 (default [] (steps plan)).

Definition get_page_source : M (World X) string :=
  let* d := gets driver in
  match d with
  | Some h => on_outside (page_source h)
  | None => pure ""
  end.

Definition get_current_url : M (World X) pyval :=
  let* d := gets driver in
  match d with
  | Some h => on_outside (current_url h)
  | None => pure (PStr "")
  end.

End executor.
End selenium_executor.

(** ** openrouter_planner.py *)

Module openrouter_planner.

Definition has_key (step : Step) (k : string) : bool :=
  bool_decide (is_Some (step !! k)).

(** The body of [for step in plan["steps"]] in [get_task_plan]. *)
Definition validate_step {S} (step : Step) : M S unit :=
  if negb (has_key step "action") then raise "Each step must have 'action' key"
  else
    let action := dict_get step "action" in
    if negb (bool_decide (action ∈ [PStr "open"; PStr "type"; PStr "click";
                                    PStr "wait"; PStr "screenshot"]))
    then raise ("Invalid action: " ++ pystr action)
    else if bool_decide (action = PStr "open") && negb (has_key step "url")
    then raise "'open' action requires 'url'"
    else if bool_decide (action = PStr "type")
            && (negb (has_key step "selector") || negb (has_key step "value"))
    then raise "'type' action requires 'selector' and 'value'"
    else if bool_decide (action = PStr "click") && negb (has_key step "selector")
    then raise "'click' action requires 'selector'"
    else if bool_decide (action = PStr "wait") && negb (has_key step "seconds")
    then raise "'wait' action requires 'seconds'"
    else pure tt.

Fixpoint validate_steps {S} (l : list Step) : M S unit :=
  match l with
  | [] => pure tt
  | step :: rest => validate_step step ;;; validate_steps rest
  end.

Definition validate_plan {S} (plan : Plan) : M S unit :=
  match steps plan with
  | None => raise "Plan must contain 'steps' key"
  | Some l => validate_steps l
  end.

(** [lst[i]] for a Python integer [i]. *)
Definition list_item {S A} (l : list A) (i : Z) : M S A :=
  let n := Z.of_nat (length l) in
  let j := if i <? 0 then i + n else i in
  if (0 <=? j) && (j <? n) then
    match l !! Z.to_nat j with
    | Some a => pure a
    | None => raise "list index out of range"
    end
  else raise "list index out of range".

Section planner.
Context `{Outside X}.

Definition get_task_plan (prompt : Prompt) : M (World X) Plan :=
  let* reply := ask_outside (chat_completion prompt) in
  match reply with
  | RequestException msg => raise ("OpenRouter API error: " ++ msg)
  | JSONDecodeError msg => raise ("Invalid JSON from AI: " ++ msg)
  | OtherError msg => raise ("Planning error: " ++ msg)
  | Decoded plan =>
      try_except (validate_plan plan ;;; pure plan)
                 (fun e => raise ("Planning error: " ++ e))
  end.

Definition refine_plan_with_error (original_plan : Plan) (error_step : Z)
    (error_msg : string) (dom_snippet : option string) : M (World X) Plan :=
  let* all_steps := match steps original_plan with
                    | Some l => pure l
                    | None => raise "'steps'"
                    end in
  let* original_step := list_item all_steps error_step in
  let dom_context := match dom_snippet with
                     | Some d => if String.eqb d "" then None
                                 else Some (String.substring 0 500 d)
                     | None => None
                     end in
  get_task_plan (RefineContext error_step error_msg original_step dom_context).

End planner.
End openrouter_planner.

(** ** orchestrator.py *)

Module orchestrator.
Import runtime_state selenium_executor openrouter_planner.

Definition nl : string := String (Ascii.ascii_of_nat 10) "".

Fixpoint repeat_string (s : string) (n : nat) : string :=
  match n with
  | O => ""
  | S n' => s ++ repeat_string s n'
  end.

Definition upper_char (c : Ascii.ascii) : Ascii.ascii :=
  let n := Ascii.nat_of_ascii c in
  if ((97 <=? n) && (n <=? 122))%nat then Ascii.ascii_of_nat (n - 32) else c.

Fixpoint upper (s : string) : string :=
  match s with
  | EmptyString => EmptyString
  | String c rest => String (upper_char c) (upper rest)
  end.

(** [f"{s:<12}"] *)
Definition ljust (width : nat) (s : string) : string :=
  s ++ repeat_string " " (width - String.length s).

(** [", ".join(l)] *)
Fixpoint join (sep : string) (l : list string) : string :=
  match l with
  | [] => ""
  | [a] => a
  | a :: rest => a ++ sep ++ join sep rest
  end.

Definition type_name (v : pyval) : string :=
  match v with
  | PNone => "NoneType"
  | PBool _ => "bool"
  | PInt _ => "int"
  | PStr _ => "str"
  end.

(** [v[:n]] *)
Definition slice_to {S} (n : nat) (v : pyval) : M S string :=
  match v with
  | PStr s => pure (String.substring 0 n s)
  | _ => raise ("'" ++ type_name v ++ "' object is not subscriptable")
  end.

(** [v.upper()] *)
Definition call_upper {S} (v : pyval) : M S string :=
  match v with
  | PStr s => pure (upper s)
  | _ => raise ("'" ++ type_name v ++ "' object has no attribute 'upper'")
  end.

(** [a / b] between the integers of the status dictionary: the float
    nearest to the quotient. *)
Definition true_div {S} (a b : pyval) : M S pyfloat :=
  match a, b with
  | PInt x, PInt y =>
      match y with
      | Z0 => raise "division by zero"
      | Zpos d => pure (Finite (to_double (Qmake x d)))
      | Zneg d => pure (if x =? 0 then NegativeZero
                        else Finite (to_double (Qmake (- x) d)))
      end
  | _, _ => raise ("unsupported operand type(s) for /: '" ++ type_name a
                   ++ "' and '" ++ type_name b ++ "'")
  end.

Section orchestrator.
Context `{Outside X}.

(** The objects as [AISeleniumOrchestrator.__init__] creates them. *)
Definition __init__ (headless auto_retry : bool) (max_retries : Z) (x : X) : World X :=
  {| monitor := add_listener (console_listener print) runtime_state.__init__;
     driver := None;
     headless := headless;
     screenshot_dir := "./screenshots";
     timeout := 10;
     auto_retry := auto_retry;
     max_retries := max_retries;
     outside := x;
     history := [] |}.

Definition say (line : string) : M (World X) unit := tell_outside (print line).

(** The body of the loop of [_print_plan]. *)
Definition print_step_line (i : nat) (step : Step) : M (World X) unit :=
  let action := dict_get_default step "action" (PStr "unknown") in
  let* d1 := if has_key step "url"
             then let* v := dict_item step "url" in pure ["url=" ++ pystr v]
             else pure [] in
  let* d2 := if has_key step "selector"
             then let* v := dict_item step "selector" in pure ["selector=" ++ pystr v]
             else pure [] in
  let* d3 := if has_key step "value"
             then let* v := dict_item step "value" in
                  let* head := slice_to 20 v in pure ["value=" ++ head ++ "..."]
             else pure [] in
  let* d4 := if has_key step "seconds"
             then let* v := dict_item step "seconds" in pure ["seconds=" ++ pystr v]
             else pure [] in
  let detail_str := join ", " (d1 ++ d2 ++ d3 ++ d4) in
  let* shout := call_upper action in
  say ("  " ++ pretty i ++ ". " ++ ljust 12 shout ++ " " ++ detail_str).

Fixpoint print_step_lines (i : nat) (l : list Step) : M (World X) unit :=
  match l with
  | [] => pure tt
  | step :: rest => print_step_line i step ;;; print_step_lines (S i) rest
  end.

(** [plan["steps"]] *)
Definition plan_steps {S} (plan : Plan) : M S (list Step) :=
  match steps plan with
  | Some l => pure l
  | None => raise "'steps'"
  end.

Definition _print_plan (plan : Plan) : M (World X) unit :=
  say "Plan Details:" ;;;
  say (repeat_string "-" 60) ;;;
  let* l := plan_steps plan in
  print_step_lines 0 l ;;;
  say (repeat_string "-" 60).

Definition _print_summary : M (World X) unit :=
  let* status := gets (fun w => get_current_status (monitor w)) in
  say (nl ++ "Execution Summary:") ;;;
  say (repeat_string "-" 60) ;;;
  let* total := dict_item status "total_steps" in
  say ("Total Steps:     " ++ pystr total) ;;;
  let* completed := dict_item status "completed" in
  say ("Completed:       " ++ pystr completed) ;;;
  let* failed := dict_item status "failed" in
  say ("Failed:          " ++ pystr failed) ;;;
  let* completed' := dict_item status "completed" in
  let* total' := dict_item status "total_steps" in
  let* ratio := true_div completed' total' in
  say ("Success Rate:    " ++ format_float_1f (times_100 ratio) ++ "%") ;;;
  say (repeat_string "-" 60).

(** [self.executor.get_page_source()[:1000] if self.executor.driver else None] *)
Definition page_sample : M (World X) (option string) :=
  let* d := gets driver in
  if d is Some _
  then let* source := get_page_source in pure (Some (String.substring 0 1000 source))
  else pure None.

(** The body of the [try] of the recovery: the new plan, or the old one
    when the log holds no failed event. *)
Definition recover (plan : Plan) : M (World X) Plan :=
  let* failed_events := gets (fun w => with_status "failed" (events (monitor w))) in
  match list.last failed_events with
  | Some last_failure =>
      let* dom_snippet := page_sample in
      let error_msg := if truthy (error last_failure)
                       then pystr (error last_failure) else "Unknown error" in
      let* plan' := refine_plan_with_error plan (step_index last_failure)
                                           error_msg dom_snippet in
      say ("AI suggested alternative plan" ++ nl) ;;;
      pure plan'
  | None => pure plan
  end.

Definition banner (title : string) : M (World X) unit :=
  say (nl ++ repeat_string "=" 60) ;;;
  say title ;;;
  say (repeat_string "=" 60).

(** The first lines of [execute_task], up to the planning. *)
Definition greet (user_prompt : string) : M (World X) unit :=
  banner "AI SELENIUM AUTOMATION - STARTING" ;;;
  say (nl ++ "Task: " ++ user_prompt ++ nl) ;;;
  say "Step 1: AI Planning...".

(** The [try] block of the planning. *)
Definition plan_and_show (user_prompt : string) : M (World X) Plan :=
  let* plan := get_task_plan (UserPrompt user_prompt) in
  let* l := plan_steps plan in
  say ("Generated plan with " ++ pretty (length l) ++ " steps" ++ nl) ;;;
  _print_plan plan ;;;
  pure plan.

(** The recovery of one iteration: the announcement and the [try]
    statement. [None] stands for the [return False] of its handler. *)
Definition announce_retry (retry_count : Z) : M (World X) unit :=
  let* limit := gets max_retries in
  say (nl ++ "Retry " ++ pretty (retry_count + 1) ++ "/" ++ pretty limit
          ++ ": Attempting AI recovery...").

Definition try_recover (retry_count : Z) (plan : Plan) : M (World X) (option Plan) :=
  announce_retry retry_count ;;;
  try_except (let* plan' := recover plan in pure (Some plan'))
             (fun e => say ("Recovery planning failed: " ++ e) ;;; pure None).

(** The loop [while retry_count <= self.max_retries] of [execute_task].
    [fuel] bounds the number of iterations that may be unfolded; [None]
    means that the loop has not finished within it. *)
Fixpoint retry_loop (fuel : nat) (retry_count : Z) (plan : Plan) (w : World X)
    : option (Res bool * World X) :=
  if retry_count <=? max_retries w then
    match fuel with
    | O => None
    | S fuel' =>
        let '(success, w1) := execute_plan plan w in
        let w1 := record_phase (Executing success) w1 in
        match success with
        | Raised e => Some (Raised e, w1)
        | Returned true =>
            Some ((banner "TASK COMPLETED SUCCESSFULLY" ;;; _print_summary ;;; pure true) w1)
        | Returned false =>
            if negb (auto_retry w1) || (retry_count >=? max_retries w1) then
              Some ((banner "TASK FAILED" ;;; _print_summary ;;; pure false) w1)
            else
              let '(recovered, w2) := try_recover retry_count plan w1 in
              match recovered with
              | Raised e => Some (Raised e, w2)
              | Returned None => Some (Returned false, record_phase (Recovering false) w2)
              | Returned (Some plan') =>
                  retry_loop fuel' (retry_count + 1) plan'
                             (record_phase (Recovering true) w2)
              end
        end
    end
  else Some (Returned false, w).

Definition execute_task (user_prompt : string) (fuel : nat) (w : World X)
    : option (Res bool * World X) :=
  let '(planned, w1) :=
    (greet user_prompt ;;;
     try_except
       (let* plan := plan_and_show user_prompt in pure (Some plan))
       (fun e => say ("Planning failed: " ++ e) ;;; pure None)) w in
  match planned with
  | Raised e => Some (Raised e, w1)
  | Returned None => Some (Returned false, record_phase (Planning false) w1)
  | Returned (Some plan) =>
      let '(_, w2) := say (nl ++ "Step 2: Executing plan..." ++ nl)
                          (record_phase (Planning true) w1) in
      retry_loop fuel 0 plan w2
  end.

End orchestrator.
End orchestrator.

(** ** reporter.py: the summary *)

Module reporter.
Import runtime_state.

(** A Python number: the success rate is the integer [0] for a log
    without started steps and a float otherwise, never negative. A float
    is kept as the rational it stands for. *)
Inductive number : Type :=
| NInt (n : Z)
| NFloat (q : Q).

(** [round(x, 2)]: the float nearest to the decimal with two places
    that is nearest to [x]. *)
Definition round2 (x : number) : number :=
  match x with
  | NInt n => NInt n
  | NFloat q => NFloat (to_double (Qmake (round_half_even (Qmult q (Qmake 100 1))) 100))
  end.

Record ErrorRecord : Type := {
  err_step : Z;
  err_action : pyval;
  err_error : pyval;
  err_screenshot : pyval
}.

Record Summary : Type := {
  execution_id : string;
  summary_timestamp : option string;
  duration : string;
  total_steps : nat;
  successful_steps : nat;
  failed_steps : nat;
  success_rate : number;
  urls_visited : list pyval;
  errors : list ErrorRecord;
  summary_status : string
}.

Record ExecutionReporter : Type := {
  events : list StepEvent;
  start_time : option string;
  end_time : option string
}.

Definition __init__ (monitor_events : list StepEvent) : ExecutionReporter :=
  {| events := monitor_events;
     start_time := timestamp <$> head monitor_events;
     end_time := timestamp <$> list.last monitor_events |}.

(** [s.replace(c, '')] for a one-character [c]. *)
Fixpoint remove_char (c : Ascii.ascii) (s : string) : string :=
  match s with
  | EmptyString => EmptyString
  | String a rest =>
      if Ascii.eqb a c then remove_char c rest else String a (remove_char c rest)
  end.

(** Days from 0001-01-01 to the given date, as [date.toordinal]. *)
Definition is_leap (y : nat) : bool :=
  ((y `mod` 4 =? 0) && (negb (y `mod` 100 =? 0) || (y `mod` 400 =? 0)))%nat.

Definition days_before_month (y m : nat) : nat :=
  (nth (m - 1) [0; 31; 59; 90; 120; 151; 181; 212; 243; 273; 304; 334] 0
   + (if (2 <? m) && is_leap y then 1 else 0))%nat.

Definition toordinal (t : datetime) : Z :=
  let y := Z.of_nat (year t) - 1 in
  y * 365 + y `div` 4 - y `div` 100 + y `div` 400
  + Z.of_nat (days_before_month (year t) (month t)) + Z.of_nat (day t).

(** [(finish - start).total_seconds()] *)
Definition total_seconds (start finish : datetime) : Q :=
  let micro (t : datetime) : Z :=
    (((toordinal t * 24 + Z.of_nat (hour t)) * 60 + Z.of_nat (minute t)) * 60
     + Z.of_nat (second t)) * 1000000 + Z.of_nat (microsecond t) in
  to_double (Qmake (micro finish - micro start) 1000000).

Definition Qltb (a b : Q) : bool :=
  Qnum a * Zpos (Qden b) <? Qnum b * Zpos (Qden a).

Section reporter.
Context `{Outside X}.
(** [datetime.fromisoformat]; [None] stands for its [ValueError]. *)
Context (fromisoformat : string -> option datetime).

Definition is_set (o : option string) : bool :=
  match o with
  | Some s => negb (String.eqb s "")
  | None => false
  end.

Definition _calculate_duration (self : ExecutionReporter) : string :=
  match start_time self, end_time self with
  | Some s, Some e =>
      if negb (is_set (Some s)) || negb (is_set (Some e)) then "N/A"
      else
        match fromisoformat s, fromisoformat e with
        | Some start, Some finish =>
            let seconds := total_seconds start finish in
            if Qltb seconds (Qmake 60 1) then
              format_1f seconds ++ "s"
            else if Qltb seconds (Qmake 3600 1) then
              format_1f (to_double (Qdiv seconds (Qmake 60 1))) ++ "m"
            else
              format_1f (to_double (Qdiv seconds (Qmake 3600 1))) ++ "h"
        | _, _ => "N/A"
        end
  | _, _ => "N/A"
  end.

Definition _generate_execution_id (self : ExecutionReporter) : X -> string * X :=
  fun x =>
    match start_time self with
    | Some s =>
        if negb (String.eqb s "") then
          ("exec_" ++ String.substring 0 15
                        (remove_char "."%char (remove_char "-"%char (remove_char ":"%char s))), x)
        else let '(t, x') := now x in ("exec_" ++ strftime_compact "" t, x')
    | None => let '(t, x') := now x in ("exec_" ++ strftime_compact "" t, x')
    end.

Definition generate_summary (self : ExecutionReporter) : X -> Summary * X :=
  fun x =>
    let total_steps := length (with_status "started" (events self)) in
    let successful_steps := length (with_status "success" (events self)) in
    let failed_steps := length (with_status "failed" (events self)) in
    let success_rate :=
      if (0 <? total_steps)%nat
      then NFloat (to_double
                     (Qmult (to_double (Qmake (Z.of_nat successful_steps)
                                              (Pos.of_nat total_steps)))
                            (Qmake 100 1)))
      else NInt 0 in
    let duration := _calculate_duration self in
    let errors :=
      (fun e => {| err_step := step_index e; err_action := action e;
                   err_error := error e; err_screenshot := screenshot_path e |})
        <$> with_status "failed" (events self) in
    let urls_visited : list pyval :=
      elements (list_to_set (C := gset pyval)
                  (url <$> filter (fun e => truthy (url e) = true ∧ status e = "success")
                                  (events self))) in
    let '(id, x') := _generate_execution_id self x in
    ({| execution_id := id;
        summary_timestamp := start_time self;
        duration := duration;
        total_steps := total_steps;
        successful_steps := successful_steps;
        failed_steps := failed_steps;
        success_rate := round2 success_rate;
        urls_visited := urls_visited;
        errors := errors;
        summary_status := if (failed_steps =? 0)%nat then "completed" else "failed" |}, x').

End reporter.
End reporter.

(** ** A scripted outside world

    A small deterministic instance of [Outside], used to run the model:
    the console keeps what is printed, the clock advances by one second at
    each reading, the page has every element except ["#missing"], and the
    language model answers with the replies of a script. *)

Module demo.
Import runtime_state.

Record Sim : Type := {
  printed : list string;
  ticks : nat;
  location : pyval;
  shots : list string;
  replies : list Reply
}.

Definition clock_at (n : nat) : datetime :=
  {| year := 2024; month := 1; day := 1; hour := 12;
     minute := (n `div` 60) `mod` 60; second := n `mod` 60; microsecond := 0 |}.

Definition sim_print (line : string) (x : Sim) : Sim :=
  {| printed := printed x ++ [line]; ticks := ticks x; location := location x;
     shots := shots x; replies := replies x |}.

Definition sim_now (x : Sim) : datetime * Sim :=
  (clock_at (ticks x),
   {| printed := printed x; ticks := S (ticks x); location := location x;
      shots := shots x; replies := replies x |}).

Definition sim_sleep (v : pyval) : M Sim unit :=
  match v with
  | PInt n => if n <? 0 then raise "sleep length must be non-negative" else pure tt
  | PBool _ => pure tt
  | PNone => raise "'NoneType' object cannot be interpreted as an integer"
  | PStr _ => raise "'str' object cannot be interpreted as an integer"
  end.

Definition sim_get (h : handle) (target : pyval) : M Sim unit :=
  match target with
  | PStr _ =>
      modify (fun x => {| printed := printed x; ticks := ticks x; location := target;
                          shots := shots x; replies := replies x |})
  | _ => raise "Message: invalid argument"
  end.

Definition sim_find (h : handle) (t : Z) (selector : pyval) : M Sim handle :=
  if decide (selector = PStr "#missing") then raise "Message: timeout" else pure 7%nat.

Definition sim_save_screenshot (h : handle) (path : string) (x : Sim) : Sim :=
  {| printed := printed x; ticks := ticks x; location := location x;
     shots := shots x ++ [path]; replies := replies x |}.

Definition sim_chat (p : Prompt) (x : Sim) : Reply * Sim :=
  match replies x with
  | [] => (RequestException "connection refused", x)
  | r :: rest =>
      (r, {| printed := printed x; ticks := ticks x; location := location x;
             shots := shots x; replies := rest |})
  end.

#[global] Instance sim_outside : Outside Sim := {|
  print := sim_print;
  now := sim_now;
  sleep := sim_sleep;
  Chrome := fun _ => pure 1%nat;
  quit := fun _ => pure tt;
  get := sim_get;
  current_url := fun _ => gets location;
  page_source := fun _ => pure "<html></html>";
  save_screenshot := fun h path => modify (sim_save_screenshot h path);
  until_presence_of_element_located := sim_find;
  until_element_to_be_clickable := sim_find;
  clear := fun _ => pure tt;
  send_keys := fun _ _ => pure tt;
  click := fun _ => pure tt;
  chat_completion := sim_chat
|}.

Definition sim0 (script : list Reply) : Sim :=
  {| printed := []; ticks := 0; location := PStr "about:blank";
     shots := []; replies := script |}.

Definition open_step : Step :=
  {[ "action" := PStr "open"; "url" := PStr "https://example.com" ]}.

Definition click_step (sel : string) : Step :=
  {[ "action" := PStr "click"; "selector" := PStr sel ]}.

Definition plan_of (l : list Step) : Plan := {| steps := Some l |}.

(** A freshly built orchestrator in front of a scripted world. *)
Definition fresh (script : list Reply) (limit : Z) : World Sim :=
  orchestrator.__init__ false true limit (sim0 script).

(** A plan whose second step cannot find its element. *)
Definition failing_plan : Plan :=
  plan_of [open_step; click_step "#missing"; open_step].

(** A listener that always raises, and one that notes the step index. *)
Definition broken_listener : Listener Sim :=
  fun _ => raise "boom".

Definition noting_listener : Listener Sim :=
  fun event => modify (sim_print ("saw " ++ pretty (step_index event))).

(** The same world in front of a page whose button opens a dialog. While
    the dialog is open the browser refuses the next command, raises and
    closes the dialog, as selenium does with an unexpected alert. *)
Record Alerting : Type := {
  page : Sim;
  alert_open : bool
}.

Definition on_page {A} (c : Sim -> A * Sim) : Alerting -> A * Alerting :=
  fun a => let '(r, x) := c (page a) in (r, {| page := x; alert_open := alert_open a |}).

Definition command {A} (c : M Sim A) : M Alerting A :=
  fun a =>
    if alert_open a
    then (Raised "Message: unexpected alert open", {| page := page a; alert_open := false |})
    else on_page c a.

#[global] Instance alerting_outside : Outside Alerting := {|
  print := fun line a => {| page := sim_print line (page a); alert_open := alert_open a |};
  now := on_page sim_now;
  sleep := fun v => on_page (sim_sleep v);
  Chrome := fun _ => pure 1%nat;
  quit := fun _ => pure tt;
  get := fun h target => command (sim_get h target);
  current_url := fun _ => command (gets location);
  page_source := fun _ => command (pure "<html></html>");
  save_screenshot := fun h path => command (modify (sim_save_screenshot h path));
  until_presence_of_element_located := fun h t selector => command (sim_find h t selector);
  until_element_to_be_clickable := fun h t selector => command (sim_find h t selector);
  clear := fun _ => command (pure tt);
  send_keys := fun _ _ => command (pure tt);
  click := fun _ a => (Returned tt, {| page := page a; alert_open := true |});
  chat_completion := fun p => on_page (sim_chat p)
|}.

Definition alerting (script : list Reply) (limit : Z) : World Alerting :=
  orchestrator.__init__ false true limit {| page := sim0 script; alert_open := false |}.

(** A browser that cannot be launched: the driver binary is missing. *)
Record Missing : Type := { console : list string }.

#[global] Instance missing_outside : Outside Missing := {|
  print := fun line m => {| console := console m ++ [line] |};
  now := fun m => (clock_at 0, m);
  sleep := fun _ => pure tt;
  Chrome := fun _ => raise "Message: Unable to obtain driver for chrome";
  quit := fun _ => pure tt;
  get := fun _ _ => pure tt;
  current_url := fun _ => pure PNone;
  page_source := fun _ => pure "";
  save_screenshot := fun _ _ => pure tt;
  until_presence_of_element_located := fun _ _ _ => pure 0%nat;
  until_element_to_be_clickable := fun _ _ _ => pure 0%nat;
  clear := fun _ => pure tt;
  send_keys := fun _ _ => pure tt;
  click := fun _ => pure tt;
  chat_completion := fun _ m => (Decoded (plan_of [open_step]), m)
|}.

End demo.

(** ** Vocabulary of the properties *)

Module props.
Import runtime_state selenium_executor openrouter_planner orchestrator.

Section vocabulary.
Context `{Outside X}.

(** A call into the outside world that returns whenever it is made. *)
Definition answers {A} (c : M X A) : Prop :=
  forall x, exists a x', c x = (Returned a, x').

(** The browser can be launched; a running browser tells its address;
    a running browser saves the screenshots it is asked for. *)
Definition browser_starts : Prop := forall options, answers (Chrome options).
Definition address_readable : Prop := forall h, answers (current_url h).
Definition screenshots_saved : Prop := forall h path, answers (save_screenshot h path).

(** The outside world after one observer has been handed [event]: what
    the observer did, followed by the logging of its exception if it
    raised one. *)
Definition notified (listener : Listener X) (event : StepEvent) (x : X) : X :=
  match listener event x with
  | (Returned _, x') => x'
  | (Raised e, x') => print ("Listener error: " ++ e) x'
  end.

(** The monitor states that the operations of the class can produce. *)
Inductive reachable : RuntimeMonitor X -> Prop :=
| reachable_init : reachable runtime_state.__init__
| reachable_add_listener self callback :
    reachable self -> reachable (add_listener callback self)
| reachable_emit self event x :
    reachable self -> reachable (fst (snd (emit print event (self, x)))).

(** From [w] to [w'] the log has grown by [new] and nothing else of the
    object graph has changed, the outside world apart. *)
Definition evolves (new : list StepEvent) (w w' : World X) : Prop :=
  events (monitor w') = (events (monitor w) ++ new)%list
  /\ listeners (monitor w') = listeners (monitor w)
  /\ driver w' = driver w
  /\ headless w' = headless w
  /\ screenshot_dir w' = screenshot_dir w
  /\ timeout w' = timeout w
  /\ auto_retry w' = auto_retry w
  /\ max_retries w' = max_retries w
  /\ history w' = history w.

(** A computation that emits no event and changes no object. *)
Definition quiet {A} (c : M (World X) A) : Prop :=
  forall w, evolves [] w (snd (c w)).

(** The dispatched action of [step], run as step [i] of a plan from the
    world [w], returns normally. *)
Definition action_succeeds (i : nat) (step : Step) (w : World X) : bool :=
  match dispatch (Z.of_nat i) (dict_get step "action") step
                 (snd (emit_started (Z.of_nat i) step w)) with
  | (Returned _, _) => true
  | (Raised _, _) => false
  end.

(** Every step of [steps], run from index [i] and world [w] on, has an
    action that succeeds. *)
Fixpoint all_succeed (i : nat) (steps : list Step) (w : World X) : bool :=
  match steps with
  | [] => true
  | step :: rest =>
      action_succeeds i step w
      && all_succeed (S i) rest (snd (_execute_step (Z.of_nat i) step w))
  end.

(** The world in which the step after [steps] starts. *)
Fixpoint world_after (i : nat) (steps : list Step) (w : World X) : World X :=
  match steps with
  | [] => w
  | step :: rest => world_after (S i) rest (snd (_execute_step (Z.of_nat i) step w))
  end.

(** The outcomes of the calls of [execute_plan] recorded in a history. *)
Definition attempts (h : list Phase) : list (Res bool) :=
  omap (fun p => match p with Executing r => Some r | _ => None end) h.

(** What one run of the loop adds to the history: at most [budget] calls
    of the executor; the result is [False] if all of them failed; a
    failed recovery is the last thing that happens, and the result is
    then [False]; no planning takes place. *)
Definition loop_post (budget : nat) (w : World X) (r : Res bool) (w' : World X) : Prop :=
  exists new,
    history w' = (history w ++ new)%list
    /\ (length (attempts new) <= budget)%nat
    /\ (Forall (eq (Returned false)) (attempts new) -> r = Returned false)
    /\ (forall pre post, new = (pre ++ Recovering false :: post)%list ->
                         post = [] /\ r = Returned false)
    /\ (forall ok, Planning ok ∉ new).

(** Step index and status of each event. *)
Definition outline (l : list StepEvent) : list (Z * string) :=
  (fun e => (step_index e, status e)) <$> l.

(** The started/success pairs of steps [i], ..., [i + n - 1]. *)
Fixpoint success_pairs (i n : nat) : list (Z * string) :=
  match n with
  | O => []
  | S n' => (Z.of_nat i, "started") :: (Z.of_nat i, "success") :: success_pairs (S i) n'
  end.

End vocabulary.

(** A summary with its execution id blanked. *)
Definition without_id (s : reporter.Summary) : reporter.Summary :=
  {| reporter.execution_id := EmptyString;
     reporter.summary_timestamp := reporter.summary_timestamp s;
     reporter.duration := reporter.duration s;
     reporter.total_steps := reporter.total_steps s;
     reporter.successful_steps := reporter.successful_steps s;
     reporter.failed_steps := reporter.failed_steps s;
     reporter.success_rate := reporter.success_rate s;
     reporter.urls_visited := reporter.urls_visited s;
     reporter.errors := reporter.errors s;
     reporter.summary_status := reporter.summary_status s |}.

(** The identifier cut out of a timestamp:
    [t.replace(':', '').replace('-', '').replace('.', '')[:15]]. *)
Definition id_of_timestamp (t : string) : string :=
  String.substring 0 15
    (reporter.remove_char "."%char
       (reporter.remove_char "-"%char (reporter.remove_char ":"%char t))).

(** A single event, for logs written by hand. *)
Definition event_of (i : Z) (kind : string) (state : string) (stamp : string) : StepEvent :=
  {| step_index := i; action := PStr kind; status := state; timestamp := stamp;
     selector := PNone; url := PNone; value := PNone; error := PNone;
     screenshot_path := PNone |}.

End props.

(** ** orchestrator.py: the accessors *)

Module orchestrator_accessors.
Import runtime_state selenium_executor.

Section accessors.
Context `{Outside X}.
(** [datetime.fromisoformat]; [None] stands for its [ValueError]. *)
Context (fromisoformat : string -> option datetime).

Definition get_execution_log (w : World X) : list StepEvent :=
  get_log (monitor w).

(** [get_summary] builds a reporter over the log and asks it for the
    summary; the clock may be read on the way. *)
Definition get_summary (w : World X) : reporter.Summary * World X :=
  let '(s, x) := reporter.generate_summary fromisoformat
                   (reporter.__init__ (get_execution_log w)) (outside w) in
  (s, set_outside x w).

Definition cleanup : M (World X) unit := stop_browser.

End accessors.
End orchestrator_accessors.

(** ** More vocabulary *)

Module further.
Import runtime_state selenium_executor openrouter_planner orchestrator.

(** A step as [get_task_plan] accepts it: one of the five actions, with
    the keys that the action needs. *)
Definition well_formed_step (step : Step) : bool :=
  match step !! "action" with
  | Some (PStr a) =>
      if decide (a = "open") then has_key step "url"
      else if decide (a = "type") then has_key step "selector" && has_key step "value"
      else if decide (a = "click") then has_key step "selector"
      else if decide (a = "wait") then has_key step "seconds"
      else bool_decide (a = "screenshot")
  | _ => false
  end.

(** [n] rounds of a failed execution followed by a successful recovery. *)
Fixpoint retries (n : nat) : list Phase :=
  match n with
  | O => []
  | S n' => Executing (Returned false) :: Recovering true :: retries n'
  end.

(** The number of recoveries recorded in a history. *)
Definition recoveries (h : list Phase) : nat :=
  length (omap (fun p => match p with Recovering ok => Some ok | _ => None end) h).

(** How the loop of [execute_task] ends, with the result it gives: it is
    not entered; an execution returns [True], after which the result is
    [True] unless printing the summary raises; an execution returns
    [False] and no retry is left or wanted; the recovery itself fails; an
    execution raises, and so does the run. *)
Inductive loop_end : list Phase -> Res bool -> Prop :=
| loop_not_entered : loop_end [] (Returned false)
| loop_succeeded : loop_end [Executing (Returned true)] (Returned true)
| loop_succeeded_raising e : loop_end [Executing (Returned true)] (Raised e)
| loop_gave_up : loop_end [Executing (Returned false)] (Returned false)
| loop_recovery_failed :
    loop_end [Executing (Returned false); Recovering false] (Returned false)
| loop_executor_raised e : loop_end [Executing (Raised e)] (Raised e).

(** The world of a run that returned, [w] otherwise. *)
Definition final_world {X} (run : option (Res bool * World X)) (w : World X) : World X :=
  match run with
  | Some (_, w') => w'
  | None => w
  end.

(** From [w] to [w'] the log and the history have only been extended,
    the listeners and the settings are the same, and a browser session
    that was open is still the one in use. *)
Definition grows {X} (w w' : World X) : Prop :=
  (exists new, events (monitor w') = (events (monitor w) ++ new)%list)
  /\ listeners (monitor w') = listeners (monitor w)
  /\ headless w' = headless w
  /\ screenshot_dir w' = screenshot_dir w
  /\ timeout w' = timeout w
  /\ auto_retry w' = auto_retry w
  /\ max_retries w' = max_retries w
  /\ (forall h, driver w = Some h -> driver w' = Some h)
  /\ (exists more, history w' = (history w ++ more)%list).

(** A step that [_print_plan] can show: its value, if it has one, can be
    sliced, and its action, if it has one, can be put in upper case; both
    are then strings. *)
Definition printable_step (step : Step) : bool :=
  match step !! "value" with
  | Some (PStr _) | None => true
  | Some _ => false
  end
  && match step !! "action" with
     | Some (PStr _) | None => true
     | Some _ => false
     end.

(** The character [c] occurs in [s]. *)
Fixpoint occurs (c : ascii) (s : string) : bool :=
  match s with
  | EmptyString => false
  | String a rest => Ascii.eqb a c || occurs c rest
  end.

(** The DOM sample as a refinement request carries it: at most 500
    characters, and nothing for an empty or missing sample. *)
Definition dom_context (dom_snippet : option string) : option string :=
  match dom_snippet with
  | Some d => if String.eqb d "" then None else Some (String.substring 0 500 d)
  | None => None
  end.

(** The three events that a failing step [k] leaves in the log. *)
Definition failure_outline (k : nat) : list (Z * string) :=
  [(Z.of_nat k, "started"); (Z.of_nat k, "failed"); (Z.of_nat k, "failed")].

End further.

(** * Properties *)

Import runtime_state selenium_executor openrouter_planner orchestrator.
Import orchestrator_accessors props further.

(** ** The monitor *)

Section monitor_properties.
Context `{Outside X}.

Lemma call_listeners_spec (ls : list (Listener X)) (event : StepEvent) (x : X) :
  call_listeners print ls event x = (Returned tt, foldl (fun x' l => notified l event x') x ls).
Proof.
  revert x. induction ls as [|l ls IH]; intros x; simpl; [reflexivity|].
  unfold bind, try_except, notified, modify.
  destruct (l event x) as [[[]|e] x1]; simpl; apply IH.
Qed.

Lemma emit_spec (self : RuntimeMonitor X) (x : X) (event : StepEvent) :
  emit print event (self, x)
  = (Returned tt,
     ({| events := events self ++ [event];
         listeners := listeners self;
         current_step := Some (step_index event) |},
      foldl (fun x' l => notified l event x') x (listeners self))).
Proof.
  unfold emit; simpl. rewrite call_listeners_spec. reflexivity.
Qed.

(** C6. Whatever the monitor, the event and the registered observers,
    raising or not: [emit] returns normally, the event is appended to the
    log, and every observer is invoked, in registration order, on the
    world left by the ones before it; in particular the observers
    registered after one that raises are still invoked. *)
Theorem emit_isolates_observer_failures
    (self : RuntimeMonitor X) (x : X) (event : StepEvent) :
  exists self' x',
    emit print event (self, x) = (Returned tt, (self', x'))
    /\ events self' = (events self ++ [event])%list
    /\ listeners self' = listeners self
    /\ x' = foldl (fun x0 l => notified l event x0) x (listeners self)
    /\ forall before l after,
         listeners self = (before ++ l :: after)%list ->
         x' = foldl (fun x0 l' => notified l' event x0)
                    (notified l event (foldl (fun x0 l' => notified l' event x0) x before))
                    after.
Proof.
  eexists _, _. split; [apply emit_spec|]. simpl.
  repeat split; try reflexivity.
  intros before l after ->. rewrite foldl_app. reflexivity.
Qed.

Lemma reachable_current_step (self : RuntimeMonitor X) :
  reachable self -> current_step self = step_index <$> list.last (events self).
Proof.
  induction 1 as [|self callback _ IH|self event x _ _].
  - reflexivity.
  - exact IH.
  - rewrite emit_spec; simpl. rewrite last_snoc. reflexivity.
Qed.

Lemma foldl_max_bounds (a : Z) (l : list StepEvent) :
  let m := foldl (fun m e => Z.max m (step_index e)) a l in
  a <= m /\ (forall e, e ∈ l -> step_index e <= m)
  /\ (m = a \/ exists e, e ∈ l /\ step_index e = m).
Proof.
  revert a. induction l as [|e l IH]; intros a; simpl.
  - split; [lia|]. split; [|by left]. intros e He. by apply elem_of_nil in He.
  - destruct (IH (Z.max a (step_index e))) as (Hle & Hall & Hwit).
    split; [lia|]. split.
    + intros e' [->|He']%elem_of_cons; [lia|by apply Hall].
    + destruct Hwit as [Heq|(e' & He' & Heq)].
      * destruct (Z.max_spec a (step_index e)) as [[_ Hm]|[_ Hm]].
        -- right. exists e. split; [by left|]. simpl in *; lia.
        -- left. simpl in *; lia.
      * right. exists e'. split; [by right|done].
Qed.

Lemma max_step_index_spec (first : StepEvent) (rest : list StepEvent) :
  exists top, top ∈ first :: rest
    /\ (forall e, e ∈ first :: rest -> step_index e <= step_index top)
    /\ max_step_index first rest = step_index top.
Proof.
  unfold max_step_index.
  destruct (foldl_max_bounds (step_index first) rest) as (Hle & Hall & Hwit).
  destruct Hwit as [Heq|(e & He & Heq)].
  - exists first. split; [by left|]. split; [|done].
    intros e [->|He]%elem_of_cons; [lia|]. specialize (Hall e He). simpl in *; lia.
  - exists e. split; [by right|]. split; [|done].
    intros e' [->|He']%elem_of_cons; [simpl in *; lia|].
    specialize (Hall e' He'). simpl in *; lia.
Qed.

(** The status of a reachable monitor whose log ends with [latest]. *)
Lemma status_of_running_monitor (self : RuntimeMonitor X) (latest : StepEvent) :
  reachable self ->
  list.last (events self) = Some latest ->
  exists top, top ∈ events self
    /\ (forall e, e ∈ events self -> step_index e <= step_index top)
    /\ get_current_status self
       = {[ "status" := PStr "running";
            "total_steps" := PInt (step_index top + 1);
            "completed" :=
              PInt (Z.of_nat (length (filter (fun e => status e = "success")
                                             (events self))));
            "failed" :=
              PInt (Z.of_nat (length (filter (fun e => status e = "failed")
                                             (events self))));
            "current_step" := PInt (step_index latest) ]}.
Proof.
  intros Hreach Hlast.
  pose proof (reachable_current_step self Hreach) as Hcur.
  rewrite Hlast in Hcur; simpl in Hcur.
  unfold get_current_status.
  destruct (events self) as [|first rest] eqn:Hev; [discriminate|].
  destruct (max_step_index_spec first rest) as (top & Hin & Hmax & Heq).
  exists top. split; [exact Hin|]. split; [exact Hmax|].
  rewrite Hcur, Heq. reflexivity.
Qed.

(** C7. In every state the monitor can reach: with an empty log,
    [get_current_status] is [{"status": "not_started", "total_steps": 0}];
    otherwise [total_steps] is the largest logged step index plus one,
    [completed] and [failed] count the events of status success and
    failed, and [current_step] is the step index of the event emitted
    last. *)
Theorem get_current_status_spec (self : RuntimeMonitor X) :
  reachable self ->
  (events self = [] ->
     get_current_status self
     = {[ "status" := PStr "not_started"; "total_steps" := PInt 0 ]})
  /\ (forall latest, list.last (events self) = Some latest ->
       exists top, top ∈ events self
         /\ (forall e, e ∈ events self -> step_index e <= step_index top)
         /\ get_current_status self
            = {[ "status" := PStr "running";
                 "total_steps" := PInt (step_index top + 1);
                 "completed" :=
                   PInt (Z.of_nat (length (filter (fun e => status e = "success")
                                                  (events self))));
                 "failed" :=
                   PInt (Z.of_nat (length (filter (fun e => status e = "failed")
                                                  (events self))));
                 "current_step" := PInt (step_index latest) ]}).
Proof.
  intros Hreach. split.
  - intros Hnil. unfold get_current_status. rewrite Hnil. reflexivity.
  - intros latest Hlast. apply status_of_running_monitor; assumption.
Qed.

(** C10. No operation of the monitor sets [current_step] back to [None]:
    [add_listener] keeps it and [emit] sets it to a step index. Hence in
    every reachable state with a non-empty log the reported status is
    ["running"], and no reachable state reports ["stopped"]. *)
Theorem current_step_never_reset :
  (forall (self : RuntimeMonitor X) callback,
     current_step self <> None -> current_step (add_listener callback self) <> None)
  /\ (forall (self : RuntimeMonitor X) event x,
       current_step (fst (snd (emit print event (self, x)))) <> None)
  /\ (forall self : RuntimeMonitor X,
       reachable self -> events self <> [] ->
       get_current_status self !! "status" = Some (PStr "running"))
  /\ (forall self : RuntimeMonitor X,
       reachable self ->
       get_current_status self !! "status" <> Some (PStr "stopped")).
Proof.
  assert (Hrun : forall self : RuntimeMonitor X,
             reachable self -> events self <> [] ->
             get_current_status self !! "status" = Some (PStr "running")).
  { intros self Hreach Hne.
    destruct (list.last (events self)) as [latest|] eqn:Hlast.
    - destruct (status_of_running_monitor self latest Hreach Hlast)
        as (top & _ & _ & ->).
      reflexivity.
    - apply last_None in Hlast. contradiction. }
  split; [intros self callback Hcur; exact Hcur|].
  split; [intros self event x; rewrite emit_spec; discriminate|].
  split; [exact Hrun|].
  intros self Hreach.
  destruct (events self) as [|first rest] eqn:Hev.
  - unfold get_current_status. rewrite Hev. discriminate.
  - rewrite Hrun; [discriminate|exact Hreach|rewrite Hev; discriminate].
Qed.

End monitor_properties.

(** ** Frame lemmas: what a computation leaves unchanged *)

Section frames.
Context `{Outside X}.

Lemma evolves_refl (w : World X) : evolves [] w w.
Proof. unfold evolves. rewrite app_nil_r. repeat split. Qed.

Lemma evolves_trans (n1 n2 : list StepEvent) (w w1 w2 : World X) :
  evolves n1 w w1 -> evolves n2 w1 w2 -> evolves (n1 ++ n2) w w2.
Proof.
  unfold evolves. intros (E1 & L1 & D1 & H1 & S1 & T1 & A1 & M1 & P1)
                         (E2 & L2 & D2 & H2 & S2 & T2 & A2 & M2 & P2).
  rewrite E2, E1, L2, L1, D2, D1, H2, H1, S2, S1, T2, T1, A2, A1, M2, M1, P2, P1.
  rewrite app_assoc. repeat split.
Qed.

Lemma evolves_set_outside (w : World X) (x : X) : evolves [] w (set_outside x w).
Proof. unfold evolves; simpl. rewrite app_nil_r. repeat split. Qed.

Lemma quiet_pure {A} (a : A) : quiet (@pure (World X) A a).
Proof. intros w. apply evolves_refl. Qed.

Lemma quiet_raise {A} (e : string) : quiet (@raise (World X) A e).
Proof. intros w. apply evolves_refl. Qed.

Lemma quiet_gets {A} (f : World X -> A) : quiet (gets f).
Proof. intros w. apply evolves_refl. Qed.

Lemma quiet_on_outside {A} (c : M X A) : quiet (on_outside c).
Proof.
  intros w. unfold on_outside. destruct (c (outside w)) as [r x].
  apply evolves_set_outside.
Qed.

Lemma quiet_ask_outside {A} (c : X -> A * X) : quiet (ask_outside c).
Proof.
  intros w. unfold ask_outside. destruct (c (outside w)) as [r x].
  apply evolves_set_outside.
Qed.

Lemma quiet_tell_outside (f : X -> X) : quiet (tell_outside f).
Proof. intros w. apply evolves_set_outside. Qed.

Lemma quiet_bind {A B} (c : M (World X) A) (k : A -> M (World X) B) :
  quiet c -> (forall a, quiet (k a)) -> quiet (bind c k).
Proof.
  intros Hc Hk w. unfold bind. specialize (Hc w).
  destruct (c w) as [[a|e] w1]; simpl in *; [|exact Hc].
  apply (evolves_trans [] [] w w1); [exact Hc|apply Hk].
Qed.

Lemma quiet_try_except {A} (c : M (World X) A) (h : string -> M (World X) A) :
  quiet c -> (forall e, quiet (h e)) -> quiet (try_except c h).
Proof.
  intros Hc Hh w. unfold try_except. specialize (Hc w).
  destruct (c w) as [[a|e] w1]; simpl in *; [exact Hc|].
  apply (evolves_trans [] [] w w1); [exact Hc|apply Hh].
Qed.

Lemma quiet_dict_item (d : gmap string pyval) (k : string) :
  quiet (@dict_item (World X) d k).
Proof. unfold dict_item. destruct (d !! k); [apply quiet_pure|apply quiet_raise]. Qed.

Lemma quiet_the_driver (attr : string) : quiet (X := X) (the_driver attr).
Proof. intros w. unfold the_driver. destruct (driver w); apply evolves_refl. Qed.

Lemma quiet_say (line : string) : quiet (say line).
Proof. apply quiet_tell_outside. Qed.

End frames.

Create HintDb quiet.

#[global] Hint Resolve quiet_pure quiet_raise quiet_gets quiet_on_outside
  quiet_ask_outside quiet_tell_outside quiet_dict_item quiet_the_driver
  quiet_say : quiet.

(** Decompose a computation along its binds and branches. *)
Ltac quiet_step :=
  match goal with
  | |- quiet (bind _ _) => apply quiet_bind; [|intros ?]
  | |- quiet (try_except _ _) => apply quiet_try_except; [|intros ?]
  | |- quiet (if ?b then _ else _) => destruct b
  | |- quiet (match ?o with _ => _ end) => destruct o
  | |- quiet _ => solve [auto with quiet]
  end.

Ltac solve_quiet := repeat (cbv zeta; quiet_step).

(** ** The plan executor *)

Section executor_properties.
Context `{Outside X}.

Lemma quiet_current_url_or_none : quiet (X := X) current_url_or_none.
Proof. unfold current_url_or_none. solve_quiet. Qed.

Lemma quiet__save_screenshot (name : string) : quiet (_save_screenshot name).
Proof. unfold _save_screenshot. solve_quiet. Qed.

Lemma quiet_get_page_source : quiet (X := X) get_page_source.
Proof. unfold get_page_source. solve_quiet. Qed.

Lemma quiet_dispatch (i : Z) (action : pyval) (step : Step) :
  quiet (dispatch i action step).
Proof.
  unfold dispatch, _action_open, _action_type, _action_click, _action_wait.
  pose proof quiet__save_screenshot.
  solve_quiet.
Qed.

Lemma current_url_or_none_returns (w : World X) :
  address_readable ->
  exists v w', current_url_or_none w = (Returned v, w').
Proof.
  intros Ha. unfold current_url_or_none, bind, gets, on_outside.
  destruct (driver w) as [h|]; [|eexists _, _; reflexivity].
  destruct (Ha h (outside w)) as (v & x' & ->). eauto.
Qed.

Lemma _save_screenshot_returns (name : string) (w : World X) :
  screenshots_saved ->
  exists path w', _save_screenshot name w = (Returned path, w').
Proof.
  intros Hs. unfold _save_screenshot, bind, ask_outside, gets.
  destruct (now (outside w)) as [t x]. simpl.
  destruct (driver w) as [h|]; [|eexists _, _; reflexivity].
  unfold on_outside. simpl.
  match goal with |- context [save_screenshot h ?path x] =>
    destruct (Hs h path x) as ([] & x' & ->) end.
  eauto.
Qed.

Lemma monitor_emit_spec (event : StepEvent) (w : World X) :
  exists w', monitor_emit event w = (Returned tt, w') /\ evolves [event] w w'.
Proof.
  unfold monitor_emit. rewrite emit_spec. eexists. split; [reflexivity|].
  unfold evolves; simpl. repeat split.
Qed.

(** The started event is emitted unless the address of the page cannot
    be read. *)
Lemma emit_started_cases (i : Z) (step : Step) (w : World X) :
  match emit_started i step w with
  | (Returned _, w') =>
      exists event, evolves [event] w w' /\ outline [event] = [(i, "started")]
  | (Raised _, w') => evolves [] w w'
  end.
Proof.
  unfold emit_started, bind at 1, ask_outside.
  destruct (now (outside w)) as [t x].
  pose proof (evolves_set_outside w x) as H0.
  unfold bind. pose proof (quiet_current_url_or_none (set_outside x w)) as Hq.
  destruct (current_url_or_none (set_outside x w)) as [[v|e] w1]; simpl in Hq.
  - match goal with |- context [monitor_emit ?ev w1] =>
      destruct (monitor_emit_spec ev w1) as (w' & -> & Hev); exists ev end.
    split; [|reflexivity].
    apply (evolves_trans [] [_] w (set_outside x w)); [exact H0|].
    apply (evolves_trans [] [_] _ w1); assumption.
  - apply (evolves_trans [] [] w (set_outside x w)); assumption.
Qed.

Lemma emit_started_returns (i : Z) (step : Step) (w : World X) :
  address_readable ->
  exists w', emit_started i step w = (Returned tt, w').
Proof.
  intros Ha. unfold emit_started, bind at 1, ask_outside.
  destruct (now (outside w)) as [t x]. unfold bind.
  destruct (current_url_or_none_returns (set_outside x w) Ha) as (v & w1 & ->).
  match goal with |- context [monitor_emit ?ev w1] =>
    destruct (monitor_emit_spec ev w1) as (w' & -> & _) end.
  eauto.
Qed.

(** The handler of [_execute_step] emits one failed event, carrying the
    message of the exception, and returns [False], unless the screenshot
    or the reading of the address raises in turn. *)
Lemma on_exception_cases (i : Z) (step : Step) (e : string) (w : World X) :
  match on_exception i step e w with
  | (Returned b, w') =>
      b = false
      /\ exists event, evolves [event] w w' /\ outline [event] = [(i, "failed")]
                       /\ error event = PStr e
  | (Raised _, w') => evolves [] w w'
  end.
Proof.
  unfold on_exception, bind at 1.
  pose proof (quiet__save_screenshot ("error_step_" ++ pretty i) w) as Hq.
  destruct (_save_screenshot ("error_step_" ++ pretty i) w) as [[path|e0] w1];
    simpl in Hq; [|exact Hq].
  unfold bind at 1, ask_outside. destruct (now (outside w1)) as [t x].
  pose proof (evolves_set_outside w1 x) as H0.
  unfold bind at 1. pose proof (quiet_current_url_or_none (set_outside x w1)) as Hu.
  destruct (current_url_or_none (set_outside x w1)) as [[v|e0] w2]; simpl in Hu.
  - unfold bind.
    match goal with |- context [monitor_emit ?ev w2] =>
      destruct (monitor_emit_spec ev w2) as (w' & -> & Hev); simpl;
      split; [reflexivity|exists ev] end.
    split; [|split; reflexivity].
    apply (evolves_trans [] [_] w w1); [exact Hq|].
    apply (evolves_trans [] [_] w1 (set_outside x w1)); [exact H0|].
    apply (evolves_trans [] [_] _ w2); assumption.
  - apply (evolves_trans [] [] w w1); [exact Hq|].
    apply (evolves_trans [] [] w1 (set_outside x w1)); assumption.
Qed.

Lemma on_exception_returns (i : Z) (step : Step) (e : string) (w : World X) :
  address_readable -> screenshots_saved ->
  exists w', on_exception i step e w = (Returned false, w').
Proof.
  intros Ha Hs. unfold on_exception, bind at 1.
  destruct (_save_screenshot_returns ("error_step_" ++ pretty i) w Hs) as (path & w1 & ->).
  unfold bind at 1, ask_outside. destruct (now (outside w1)) as [t x].
  unfold bind at 1.
  destruct (current_url_or_none_returns (set_outside x w1) Ha) as (v & w2 & ->).
  unfold bind.
  match goal with |- context [monitor_emit ?ev w2] =>
    destruct (monitor_emit_spec ev w2) as (w' & -> & _) end.
  eauto.
Qed.

(** What [execute_plan] adds after a step that returned [False]: one
    more failed event, with a fixed message. *)
Lemma report_failure_cases (i : nat) (step : Step) (w : World X) :
  match report_failure i step w with
  | (Returned b, w') =>
      b = false
      /\ exists event, evolves [event] w w' /\ outline [event] = [(Z.of_nat i, "failed")]
                       /\ error event = PStr "Step execution failed"
  | (Raised _, w') => evolves [] w w'
  end.
Proof.
  unfold report_failure, bind at 1.
  pose proof (quiet__save_screenshot ("error_step_" ++ pretty i) w) as Hq.
  destruct (_save_screenshot ("error_step_" ++ pretty i) w) as [[path|e0] w1];
    simpl in Hq; [|exact Hq].
  unfold bind at 1, ask_outside. destruct (now (outside w1)) as [t x].
  pose proof (evolves_set_outside w1 x) as H0.
  unfold bind at 1. pose proof (quiet_current_url_or_none (set_outside x w1)) as Hu.
  destruct (current_url_or_none (set_outside x w1)) as [[v|e0] w2]; simpl in Hu.
  - unfold bind.
    match goal with |- context [monitor_emit ?ev w2] =>
      destruct (monitor_emit_spec ev w2) as (w' & -> & Hev); simpl;
      split; [reflexivity|exists ev] end.
    split; [|split; reflexivity].
    apply (evolves_trans [] [_] w w1); [exact Hq|].
    apply (evolves_trans [] [_] w1 (set_outside x w1)); [exact H0|].
    apply (evolves_trans [] [_] _ w2); assumption.
  - apply (evolves_trans [] [] w w1); [exact Hq|].
    apply (evolves_trans [] [] w1 (set_outside x w1)); assumption.
Qed.

Lemma report_failure_returns (i : nat) (step : Step) (w : World X) :
  address_readable -> screenshots_saved ->
  exists w', report_failure i step w = (Returned false, w').
Proof.
  intros Ha Hs. unfold report_failure, bind at 1.
  destruct (_save_screenshot_returns ("error_step_" ++ pretty i) w Hs) as (path & w1 & ->).
  unfold bind at 1, ask_outside. destruct (now (outside w1)) as [t x].
  unfold bind at 1.
  destruct (current_url_or_none_returns (set_outside x w1) Ha) as (v & w2 & ->).
  unfold bind.
  match goal with |- context [monitor_emit ?ev w2] =>
    destruct (monitor_emit_spec ev w2) as (w' & -> & _) end.
  eauto.
Qed.

(** The [try] block either emits one success event and returns [True],
    or raises without having emitted anything. *)
Lemma attempt_cases (i : Z) (step : Step) (w : World X) :
  match attempt i step w with
  | (Returned b, w') =>
      b = true
      /\ exists event, evolves [event] w w' /\ outline [event] = [(i, "success")]
  | (Raised _, w') => evolves [] w w'
  end.
Proof.
  pose proof (quiet_dispatch i (dict_get step "action") step w) as Hq.
  unfold attempt, bind at 1.
  destruct (dispatch i (dict_get step "action") step w) as [[step'|e] w1];
    simpl in Hq; [|exact Hq].
  unfold bind at 1, ask_outside. destruct (now (outside w1)) as [t x].
  pose proof (evolves_set_outside w1 x) as H0.
  unfold bind at 1, pure at 1. unfold bind at 1, the_driver.
  destruct (driver (set_outside x w1)) as [h|].
  2:{ apply (evolves_trans [] [] w w1); assumption. }
  unfold bind at 1. pose proof (quiet_on_outside (current_url h) (set_outside x w1)) as Hu.
  destruct (on_outside (current_url h) (set_outside x w1)) as [[v|e0] w2]; simpl in Hu.
  - unfold bind.
    match goal with |- context [monitor_emit ?ev w2] =>
      destruct (monitor_emit_spec ev w2) as (w' & -> & Hev); simpl;
      split; [reflexivity|exists ev] end.
    split; [|reflexivity].
    apply (evolves_trans [] [_] w w1); [exact Hq|].
    apply (evolves_trans [] [_] w1 (set_outside x w1)); [exact H0|].
    apply (evolves_trans [] [_] _ w2); assumption.
  - apply (evolves_trans [] [] w w1); [exact Hq|].
    apply (evolves_trans [] [] w1 (set_outside x w1)); assumption.
Qed.

(** With a browser session whose address can be read, the [try] block
    returns exactly when the dispatched action does. *)
Lemma attempt_outcome (i : Z) (step : Step) (w : World X) :
  address_readable ->
  is_Some (driver w) ->
  match dispatch i (dict_get step "action") step w with
  | (Returned _, _) => exists w', attempt i step w = (Returned true, w')
  | (Raised e, w') => attempt i step w = (Raised e, w')
  end.
Proof.
  intros Ha Hdrv.
  pose proof (quiet_dispatch i (dict_get step "action") step w) as Hq.
  destruct (dispatch i (dict_get step "action") step w) as [[step'|e] w1] eqn:Hdis;
    simpl in Hq; unfold attempt, bind at 1; rewrite Hdis; [|reflexivity].
  unfold bind at 1, ask_outside. destruct (now (outside w1)) as [t x].
  unfold bind at 1, pure at 1. unfold bind at 1, the_driver.
  assert (Hd : driver (set_outside x w1) = driver w) by (simpl; apply Hq).
  rewrite Hd. destruct Hdrv as [h ->].
  unfold bind at 1, on_outside. simpl outside.
  destruct (Ha h x) as (v & x' & ->). unfold bind.
  match goal with |- context [monitor_emit ?ev ?w2] =>
    destruct (monitor_emit_spec ev w2) as (w' & -> & _) end.
  eauto.
Qed.

(** Without a browser session the [try] block raises whatever the action
    is: the success event needs the address of the page. *)
Lemma attempt_without_browser (i : Z) (step : Step) (w : World X) :
  driver w = None ->
  exists e w', attempt i step w = (Raised e, w').
Proof.
  intros Hdrv.
  pose proof (quiet_dispatch i (dict_get step "action") step w) as Hq.
  unfold attempt, bind at 1.
  destruct (dispatch i (dict_get step "action") step w) as [[step'|e] w1];
    simpl in Hq; [|eauto].
  unfold bind at 1, ask_outside. destruct (now (outside w1)) as [t x].
  unfold bind at 1, pure at 1. unfold bind at 1, the_driver.
  assert (Hd : driver (set_outside x w1) = driver w) by (simpl; apply Hq).
  rewrite Hd, Hdrv. eauto.
Qed.

(** [_execute_step] in general. When it returns it has emitted the
    started event and one terminal event, success when it returns [True]
    and failed when it returns [False]. It raises when the address cannot
    be read for the started event, having emitted nothing, or when its
    handler raises, having emitted the started event only. *)
Lemma _execute_step_cases (i : Z) (step : Step) (w : World X) :
  match _execute_step i step w with
  | (Returned b, w') =>
      exists e1 e2,
        evolves [e1; e2] w w'
        /\ outline [e1; e2] = [(i, "started"); (i, if b then "success" else "failed")]
  | (Raised _, w') =>
      exists new, evolves new w w' /\ (outline new = [] \/ outline new = [(i, "started")])
  end.
Proof.
  unfold _execute_step, bind.
  pose proof (emit_started_cases i step w) as Hs.
  destruct (emit_started i step w) as [[[]|e] w1].
  2:{ exists []. split; [exact Hs|left; reflexivity]. }
  destruct Hs as (e1 & Hev1 & Ho1).
  unfold try_except. pose proof (attempt_cases i step w1) as Ha.
  destruct (attempt i step w1) as [[b|e] w2].
  - destruct Ha as (-> & e2 & Hev2 & Ho2). exists e1, e2.
    split; [apply (evolves_trans [_] [_] w w1); assumption|].
    unfold outline in *; simpl in *. congruence.
  - pose proof (on_exception_cases i step e w2) as Hh.
    destruct (on_exception i step e w2) as [[b|e'] w3].
    + destruct Hh as (-> & e2 & Hev2 & Ho2 & _). exists e1, e2.
      split; [apply (evolves_trans [_] [_] w w1); [assumption|];
              apply (evolves_trans [] [_] w1 w2); assumption|].
      unfold outline in *; simpl in *. congruence.
    + exists [e1]. split; [|right; exact Ho1].
      apply (evolves_trans [_] [] w w1); [assumption|].
      apply (evolves_trans [] [] w1 w2); assumption.
Qed.

(** With a browser that tells its address and saves its screenshots,
    [_execute_step] always returns, and with a session it returns [True]
    exactly when the dispatched action succeeds. *)
Lemma _execute_step_spec (i : nat) (step : Step) (w : World X) :
  address_readable -> screenshots_saved ->
  exists b e1 e2 w',
    _execute_step (Z.of_nat i) step w = (Returned b, w')
    /\ evolves [e1; e2] w w'
    /\ outline [e1; e2]
       = [(Z.of_nat i, "started"); (Z.of_nat i, if b then "success" else "failed")]
    /\ (is_Some (driver w) -> b = action_succeeds i step w).
Proof.
  intros Ha Hs.
  pose proof (_execute_step_cases (Z.of_nat i) step w) as Hc.
  assert (Hret : exists b w', _execute_step (Z.of_nat i) step w = (Returned b, w')
                   /\ (is_Some (driver w) -> b = action_succeeds i step w)).
  { unfold action_succeeds, _execute_step, bind.
    pose proof (emit_started_cases (Z.of_nat i) step w) as Hst.
    destruct (emit_started_returns (Z.of_nat i) step w Ha) as (w1 & Hst').
    rewrite Hst' in *. destruct Hst as (e1 & Hev1 & _). simpl snd.
    unfold try_except.
    destruct (driver w) as [h|] eqn:Hdrv.
    - assert (Hd1 : is_Some (driver w1)).
      { destruct Hev1 as (_ & _ & -> & _). rewrite Hdrv. eauto. }
      pose proof (attempt_outcome (Z.of_nat i) step w1 Ha Hd1) as Hatt.
      destruct (dispatch (Z.of_nat i) (dict_get step "action") step w1) as [[step'|e] w2].
      + destruct Hatt as (w' & ->). exists true, w'. split; reflexivity.
      + rewrite Hatt.
        destruct (on_exception_returns (Z.of_nat i) step e w2 Ha Hs) as (w' & ->).
        exists false, w'. split; reflexivity.
    - assert (Hd1 : driver w1 = None).
      { destruct Hev1 as (_ & _ & -> & _). exact Hdrv. }
      destruct (attempt_without_browser (Z.of_nat i) step w1 Hd1) as (e & w2 & ->).
      destruct (on_exception_returns (Z.of_nat i) step e w2 Ha Hs) as (w' & ->).
      exists false, w'. split; [reflexivity|]. intros [? ?]; discriminate. }
  destruct Hret as (b & w' & Hret & Hb). rewrite Hret in Hc.
  destruct Hc as (e1 & e2 & Hev & Ho). exists b, e1, e2, w'. auto.
Qed.

Lemma outline_app (l1 l2 : list StepEvent) :
  outline (l1 ++ l2) = (outline l1 ++ outline l2)%list.
Proof. unfold outline. apply fmap_app. Qed.

Lemma success_pairs_snoc (i n : nat) :
  success_pairs i (S n)
  = (success_pairs i n
     ++ [(Z.of_nat (i + n), "started"); (Z.of_nat (i + n), "success")])%list.
Proof.
  revert i. induction n as [|n IH]; intros i.
  - simpl. rewrite Nat.add_0_r. reflexivity.
  - change (success_pairs i (S (S n)))
      with ((Z.of_nat i, "started") :: (Z.of_nat i, "success") :: success_pairs (S i) (S n)).
    rewrite IH. simpl. rewrite Nat.add_succ_r. reflexivity.
Qed.

(** A step whose action succeeds, in a session whose address can be
    read, returns [True]. *)
Lemma _execute_step_succeeds (i : nat) (step : Step) (w : World X) :
  address_readable ->
  is_Some (driver w) ->
  action_succeeds i step w = true ->
  exists e1 e2 w',
    _execute_step (Z.of_nat i) step w = (Returned true, w')
    /\ evolves [e1; e2] w w'
    /\ outline [e1; e2] = [(Z.of_nat i, "started"); (Z.of_nat i, "success")].
Proof.
  intros Ha Hdrv Hact.
  pose proof (_execute_step_cases (Z.of_nat i) step w) as Hc.
  assert (Hret : exists w', _execute_step (Z.of_nat i) step w = (Returned true, w')).
  { unfold action_succeeds in Hact. unfold _execute_step, bind.
    pose proof (emit_started_cases (Z.of_nat i) step w) as Hst.
    destruct (emit_started_returns (Z.of_nat i) step w Ha) as (w1 & Hst').
    rewrite Hst' in *. destruct Hst as (e1 & Hev1 & _). simpl snd in Hact.
    assert (Hd1 : is_Some (driver w1)).
    { destruct Hev1 as (_ & _ & -> & _). exact Hdrv. }
    pose proof (attempt_outcome (Z.of_nat i) step w1 Ha Hd1) as Hatt.
    unfold try_except.
    destruct (dispatch (Z.of_nat i) (dict_get step "action") step w1) as [[step'|e] w2];
      [|discriminate].
    destruct Hatt as (w' & ->). eauto. }
  destruct Hret as (w' & Hret). rewrite Hret in Hc.
  destruct Hc as (e1 & e2 & Hev & Ho). exists e1, e2, w'. auto.
Qed.

Lemma for_steps_all_succeed (l : list Step) (i : nat) (w : World X) :
  address_readable ->
  is_Some (driver w) ->
  all_succeed i l w = true ->
  exists new w',
    for_steps i l w = (Returned true, w')
    /\ evolves new w w'
    /\ outline new = success_pairs i (length l)
    /\ w' = world_after i l w.
Proof.
  intros Ha. revert i w. induction l as [|step rest IH]; intros i w Hdrv Hall.
  - exists [], w. split; [reflexivity|]. split; [apply evolves_refl|]. done.
  - simpl in Hall. apply andb_true_iff in Hall as [Hact Hrest].
    destruct (_execute_step_succeeds i step w Ha Hdrv Hact)
      as (e1 & e2 & w1 & Hstep & Hev & Ho).
    rewrite Hstep in Hrest; simpl in Hrest.
    assert (Hdrv1 : is_Some (driver w1)).
    { destruct Hev as (_ & _ & -> & _). exact Hdrv. }
    destruct (IH (S i) w1 Hdrv1 Hrest) as (new & w' & Hfor & Hev' & Ho' & Hw').
    exists ([e1; e2] ++ new)%list, w'.
    split; [simpl; unfold bind; rewrite Hstep; exact Hfor|].
    split; [apply (evolves_trans _ _ w w1); assumption|].
    split; [rewrite outline_app, Ho, Ho'; reflexivity|].
    simpl. rewrite Hstep. exact Hw'.
Qed.

Lemma for_steps_fails_at (pre : list Step) (bad : Step) (post : list Step)
    (i : nat) (w : World X) :
  address_readable -> screenshots_saved ->
  is_Some (driver w) ->
  all_succeed i pre w = true ->
  action_succeeds (i + length pre) bad (world_after i pre w) = false ->
  exists new w',
    for_steps i (pre ++ bad :: post) w = (Returned false, w')
    /\ evolves new w w'
    /\ outline new
       = (success_pairs i (length pre)
          ++ [(Z.of_nat (i + length pre), "started");
              (Z.of_nat (i + length pre), "failed");
              (Z.of_nat (i + length pre), "failed")])%list.
Proof.
  intros Ha Hs. revert i w. induction pre as [|step rest IH]; intros i w Hdrv Hall Hbad.
  - simpl in Hbad. rewrite Nat.add_0_r in *.
    destruct (_execute_step_spec i bad w Ha Hs)
      as (b & e1 & e2 & w1 & Hstep & Hev & Ho & Hb).
    rewrite (Hb Hdrv), Hbad in *.
    pose proof (report_failure_cases i bad w1) as Hrep.
    destruct (report_failure_returns i bad w1 Ha Hs) as (w' & Hrep').
    rewrite Hrep' in Hrep. destruct Hrep as (_ & e3 & Hev' & Ho' & _).
    exists ([e1; e2] ++ [e3])%list, w'.
    split; [simpl; unfold bind; rewrite Hstep; exact Hrep'|].
    split; [apply (evolves_trans _ _ w w1); assumption|].
    rewrite outline_app, Ho, Ho'. reflexivity.
  - simpl in Hall. apply andb_true_iff in Hall as [Hact Hrest].
    destruct (_execute_step_succeeds i step w Ha Hdrv Hact)
      as (e1 & e2 & w1 & Hstep & Hev & Ho).
    simpl in Hbad. rewrite Hstep in Hrest, Hbad; simpl in Hrest, Hbad.
    assert (Hdrv1 : is_Some (driver w1)).
    { destruct Hev as (_ & _ & -> & _). exact Hdrv. }
    replace (i + S (length rest))%nat with (S i + length rest)%nat in * by lia.
    destruct (IH (S i) w1 Hdrv1 Hrest Hbad) as (new & w' & Hfor & Hev' & Ho').
    exists ([e1; e2] ++ new)%list, w'.
    split; [simpl; unfold bind; rewrite Hstep; exact Hfor|].
    split; [apply (evolves_trans _ _ w w1); assumption|].
    rewrite outline_app, Ho, Ho'. simpl length.
    replace (i + S (length rest))%nat with (S i + length rest)%nat by lia.
    reflexivity.
Qed.

(** The loop in general. When it returns [True] it has logged the
    started/success pair of every step. When it returns [False] it has
    logged the pairs of the first [k] steps and then the started event and
    two failed events of step [k], the second one with the fixed message.
    When it raises, at some step [k], it has logged the pairs of the first
    [k] steps and then part of the three events of a failure. *)
Lemma for_steps_cases (l : list Step) (i : nat) (w : World X) :
  match for_steps i l w with
  | (Returned true, w') =>
      exists new, evolves new w w' /\ outline new = success_pairs i (length l)
  | (Returned false, w') =>
      exists new k last_failure,
        evolves new w w' /\ (k < length l)%nat
        /\ outline new = (success_pairs i k ++ failure_outline (i + k))%list
        /\ list.last new = Some last_failure
        /\ step_index last_failure = Z.of_nat (i + k)
        /\ status last_failure = "failed"
        /\ error last_failure = PStr "Step execution failed"
  | (Raised _, w') =>
      exists new k n,
        evolves new w w' /\ (k < length l)%nat /\ (n < 3)%nat
        /\ outline new = (success_pairs i k ++ take n (failure_outline (i + k)))%list
  end.
Proof.
  revert i w. induction l as [|step rest IH]; intros i w.
  - exists []. split; [apply evolves_refl|reflexivity].
  - simpl for_steps. unfold bind.
    pose proof (_execute_step_cases (Z.of_nat i) step w) as Hstep.
    destruct (_execute_step (Z.of_nat i) step w) as [[[|]|e] w1].
    + destruct Hstep as (e1 & e2 & Hev & Ho).
      specialize (IH (S i) w1).
      destruct (for_steps (S i) rest w1) as [[[|]|e] w'].
      * destruct IH as (new & Hev' & Ho'). exists ([e1; e2] ++ new)%list.
        split; [apply (evolves_trans _ _ w w1); assumption|].
        rewrite outline_app, Ho, Ho'. reflexivity.
      * destruct IH as (new & k & lf & Hev' & Hk & Ho' & Hl & Hi & Hst & He).
        exists ([e1; e2] ++ new)%list, (S k), lf.
        replace (i + S k)%nat with (S i + k)%nat by lia.
        split; [apply (evolves_trans _ _ w w1); assumption|].
        split; [simpl; lia|].
        split; [rewrite outline_app, Ho, Ho'; reflexivity|].
        split; [rewrite last_app, Hl; reflexivity|auto].
      * destruct IH as (new & k & n & Hev' & Hk & Hn & Ho').
        exists ([e1; e2] ++ new)%list, (S k), n.
        split; [apply (evolves_trans _ _ w w1); assumption|].
        split; [simpl; lia|]. split; [exact Hn|].
        rewrite outline_app, Ho, Ho'.
        replace (i + S k)%nat with (S i + k)%nat by lia. reflexivity.
    + destruct Hstep as (e1 & e2 & Hev & Ho).
      pose proof (report_failure_cases i step w1) as Hrep.
      destruct (report_failure i step w1) as [[b|e] w'].
      * destruct Hrep as (-> & e3 & Hev' & Ho' & He).
        exists ([e1; e2] ++ [e3])%list, 0%nat, e3.
        split; [apply (evolves_trans _ _ w w1); assumption|].
        split; [simpl; lia|].
        split; [rewrite outline_app, Ho, Ho', Nat.add_0_r; reflexivity|].
        split; [reflexivity|].
        unfold outline in Ho'; simpl in Ho'. injection Ho' as Hi Hst.
        rewrite Nat.add_0_r. auto.
      * exists [e1; e2], 0%nat, 2%nat.
        split; [rewrite <- (app_nil_r [e1; e2]);
                apply (evolves_trans _ _ w w1); assumption|].
        split; [simpl; lia|]. split; [lia|].
        rewrite Ho, Nat.add_0_r. reflexivity.
    + destruct Hstep as (new & Hev & Ho).
      exists new, 0%nat, (length new).
      split; [exact Hev|]. split; [simpl; lia|].
      rewrite Nat.add_0_r.
      destruct Ho as [Ho|Ho]; rewrite Ho;
        (apply (f_equal length) in Ho; unfold outline in Ho; rewrite length_fmap in Ho;
         rewrite Ho; simpl; split; [lia|reflexivity]).
Qed.

(** [ensure_browser] leaves a running session alone and launches one
    otherwise; a launch that raises leaves the executor without one. *)
Lemma ensure_browser_cases (w : World X) :
  match driver w with
  | Some _ => ensure_browser w = (Returned tt, w)
  | None =>
      match Chrome (headless w) (outside w) with
      | (Returned h, x) =>
          ensure_browser w = (Returned tt, set_driver (Some h) (set_outside x w))
      | (Raised e, x) => ensure_browser w = (Raised e, set_outside x w)
      end
  end.
Proof.
  unfold ensure_browser, start_browser, bind, gets, on_outside, modify.
  destruct (driver w) as [h|]; [reflexivity|].
  destruct (Chrome (headless w) (outside w)) as [[h|e] x]; reflexivity.
Qed.

Lemma ensure_browser_frame (w : World X) :
  let w0 := snd (ensure_browser w) in
  monitor w0 = monitor w
  /\ auto_retry w0 = auto_retry w
  /\ max_retries w0 = max_retries w
  /\ screenshot_dir w0 = screenshot_dir w
  /\ history w0 = history w
  /\ (forall h, driver w = Some h -> driver w0 = Some h)
  /\ (forall u, fst (ensure_browser w) = Returned u -> is_Some (driver w0)).
Proof.
  pose proof (ensure_browser_cases w) as Hc.
  destruct (driver w) as [h|] eqn:Hd.
  - rewrite Hc. simpl. rewrite Hd. repeat split; eauto.
  - destruct (Chrome (headless w) (outside w)) as [[h|e] x]; rewrite Hc; simpl;
      repeat split; eauto; try discriminate.
Qed.

Lemma ensure_browser_spec (w : World X) :
  browser_starts ->
  exists w0,
    ensure_browser w = (Returned tt, w0)
    /\ is_Some (driver w0)
    /\ monitor w0 = monitor w
    /\ auto_retry w0 = auto_retry w
    /\ max_retries w0 = max_retries w
    /\ history w0 = history w.
Proof.
  intros Hb. pose proof (ensure_browser_cases w) as Hc.
  destruct (driver w) as [h|] eqn:Hd.
  - exists w. rewrite Hd. repeat split; eauto.
  - destruct (Hb (headless w) (outside w)) as (h & x & Hl). rewrite Hl in Hc.
    eexists. split; [exact Hc|]. simpl. repeat split; eauto.
Qed.

(** [execute_plan] in general: the outcome, and what the log, the
    settings and the history look like afterwards. When it returns
    [False], the log has grown and ends with the failed event that
    [execute_plan] itself adds for a step of the plan. *)
Lemma execute_plan_cases (plan : Plan) (w : World X) :
  let '(r, w') := execute_plan plan w in
  exists new,
    events (monitor w') = (events (monitor w) ++ new)%list
    /\ listeners (monitor w') = listeners (monitor w)
    /\ auto_retry w' = auto_retry w
    /\ max_retries w' = max_retries w
    /\ screenshot_dir w' = screenshot_dir w
    /\ history w' = history w
    /\ (forall h, driver w = Some h -> driver w' = Some h)
    /\ match r with
       | Returned true =>
           outline new = success_pairs 0 (length (default [] (steps plan)))
       | Returned false =>
           exists k last_failure,
             (k < length (default [] (steps plan)))%nat
             /\ outline new = (success_pairs 0 k ++ failure_outline k)%list
             /\ list.last new = Some last_failure
             /\ step_index last_failure = Z.of_nat k
             /\ status last_failure = "failed"
             /\ error last_failure = PStr "Step execution failed"
       | Raised _ =>
           exists k n,
             (k <= length (default [] (steps plan)))%nat /\ (n < 3)%nat
             /\ outline new = (success_pairs 0 k ++ take n (failure_outline k))%list
       end.
Proof.
  unfold execute_plan, bind.
  pose proof (ensure_browser_frame w) as Hf.
  destruct (ensure_browser w) as [[[]|e] w0]; simpl in Hf;
    destruct Hf as (Hm & Ha & Hr & Hs & Hh & Hd & _).
  2:{ exists []. rewrite Hm, app_nil_r. repeat split; try assumption.
      exists 0%nat, 0%nat. repeat split; lia. }
  pose proof (for_steps_cases (default [] (steps plan)) 0 w0) as Hc.
  destruct (for_steps 0 (default [] (steps plan)) w0) as [[[|]|e] w'].
  - destruct Hc as (new & Hev & Ho). exists new.
    destruct Hev as (He & Hl & Hd' & _ & Hs' & _ & Ha' & Hr' & Hh').
    rewrite He, Hl, Hm, Ha', Ha, Hr', Hr, Hs', Hs, Hh', Hh.
    repeat split; try exact Ho. intros h Hh0. rewrite Hd'. auto.
  - destruct Hc as (new & k & lf & Hev & Hk & Ho & Hl0 & He0). simpl in He0. exists new.
    destruct Hev as (He & Hl & Hd' & _ & Hs' & _ & Ha' & Hr' & Hh').
    rewrite He, Hl, Hm, Ha', Ha, Hr', Hr, Hs', Hs, Hh', Hh.
    repeat split; try (intros h Hh0; rewrite Hd'; auto).
    exists k, lf. auto.
  - destruct Hc as (new & k & n & Hev & Hk & Hn & Ho). exists new.
    destruct Hev as (He & Hl & Hd' & _ & Hs' & _ & Ha' & Hr' & Hh').
    rewrite He, Hl, Hm, Ha', Ha, Hr', Hr, Hs', Hs, Hh', Hh.
    repeat split; try (intros h Hh0; rewrite Hd'; auto).
    exists k, n. repeat split; [lia|exact Hn|exact Ho].
Qed.

(** C2 (as amended). With a browser that can be launched and that tells
    its address: if the action of every step of the plan succeeds,
    [execute_plan] returns [True] and the log grows by exactly the events
    started(0), success(0), ..., started(N-1), success(N-1), in this
    order, where N is the number of steps. *)
Theorem execute_plan_all_succeed (plan : Plan) (w : World X) :
  browser_starts ->
  address_readable ->
  all_succeed 0 (default [] (steps plan)) (snd (ensure_browser w)) = true ->
  exists new w',
    execute_plan plan w = (Returned true, w')
    /\ events (monitor w') = (events (monitor w) ++ new)%list
    /\ outline new = success_pairs 0 (length (default [] (steps plan))).
Proof.
  intros Hb Ha Hall. unfold execute_plan, bind.
  destruct (ensure_browser_spec w Hb) as (w0 & Hens & Hdrv & Hm & _).
  rewrite Hens in *; simpl in Hall.
  destruct (for_steps_all_succeed _ 0 w0 Ha Hdrv Hall) as (new & w' & -> & Hev & Ho & _).
  exists new, w'. split; [reflexivity|].
  destruct Hev as (-> & _). rewrite Hm. split; [reflexivity|exact Ho].
Qed.

(** C1 (the code departs from the claim). With a browser that can be
    launched, tells its address and saves its screenshots: if the actions
    of the first [k] steps succeed and the action of step [k] raises,
    [execute_plan] returns [False]; the log grows by the [k]
    started/success pairs, the started event of step [k] and then two
    failed events of step [k], one emitted by [_execute_step] and one more
    by [execute_plan]; no later step appears. And whatever the browser
    does, every call of [execute_plan] that returns [False] has logged two
    failed events for the step it stopped at. *)
Theorem execute_plan_fails_at (pre : list Step) (bad : Step) (post : list Step)
    (w : World X) :
  (browser_starts ->
   address_readable ->
   screenshots_saved ->
   all_succeed 0 pre (snd (ensure_browser w)) = true ->
   action_succeeds (length pre) bad (world_after 0 pre (snd (ensure_browser w))) = false ->
   exists new w',
     execute_plan {| steps := Some (pre ++ bad :: post)%list |} w = (Returned false, w')
     /\ events (monitor w') = (events (monitor w) ++ new)%list
     /\ outline new
        = (success_pairs 0 (length pre)
           ++ [(Z.of_nat (length pre), "started");
               (Z.of_nat (length pre), "failed");
               (Z.of_nat (length pre), "failed")])%list)
  /\ (forall (plan : Plan) (w' : World X),
       execute_plan plan w = (Returned false, w') ->
       exists new k,
         (k < length (default [] (steps plan)))%nat
         /\ events (monitor w') = (events (monitor w) ++ new)%list
         /\ outline new
            = (success_pairs 0 k
               ++ [(Z.of_nat k, "started"); (Z.of_nat k, "failed");
                   (Z.of_nat k, "failed")])%list).
Proof.
  split.
  - intros Hb Ha Hs Hall Hbad. unfold execute_plan, bind.
    destruct (ensure_browser_spec w Hb) as (w0 & Hens & Hdrv & Hm & _).
    rewrite Hens in *; simpl in Hall, Hbad.
    destruct (for_steps_fails_at pre bad post 0 w0 Ha Hs Hdrv Hall Hbad)
      as (new & w' & Hfor & Hev & Ho).
    exists new, w'. simpl. rewrite Hfor. split; [reflexivity|].
    destruct Hev as (-> & _). rewrite Hm. split; [reflexivity|exact Ho].
  - intros plan w' Hrun.
    pose proof (execute_plan_cases plan w) as Hc. rewrite Hrun in Hc.
    destruct Hc as (new & He & _ & _ & _ & _ & _ & _ & k & lf & Hk & Ho & _).
    exists new, k. split; [exact Hk|]. split; [exact He|exact Ho].
Qed.

End executor_properties.

(** ** The recovery loop *)

Section orchestrator_properties.
Context `{Outside X}.

Lemma quiet_banner (title : string) : quiet (banner title).
Proof. unfold banner. solve_quiet. Qed.

Lemma quiet_print_step_lines (l : list Step) (i : nat) : quiet (print_step_lines i l).
Proof.
  revert i. induction l as [|step rest IH]; intros i; simpl; [auto with quiet|].
  apply quiet_bind; [|intros _; apply IH].
  unfold print_step_line, slice_to, call_upper. solve_quiet.
Qed.

Lemma quiet__print_plan (plan : Plan) : quiet (_print_plan plan).
Proof.
  unfold _print_plan, plan_steps. pose proof quiet_print_step_lines. solve_quiet.
Qed.

Lemma quiet__print_summary : quiet (X := X) _print_summary.
Proof. unfold _print_summary, true_div. solve_quiet. Qed.

Lemma quiet_validate_steps (l : list Step) : quiet (@validate_steps (World X) l).
Proof.
  induction l as [|step rest IH]; simpl; [auto with quiet|].
  apply quiet_bind; [|intros _; exact IH].
  unfold validate_step. solve_quiet.
Qed.

Lemma quiet_get_task_plan (prompt : Prompt) : quiet (get_task_plan prompt).
Proof.
  unfold get_task_plan, validate_plan. pose proof quiet_validate_steps. solve_quiet.
Qed.

Lemma quiet_refine_plan_with_error (plan : Plan) (i : Z) (msg : string)
    (dom : option string) :
  quiet (refine_plan_with_error plan i msg dom).
Proof.
  unfold refine_plan_with_error, list_item. pose proof quiet_get_task_plan. solve_quiet.
Qed.

Lemma quiet_page_sample : quiet (X := X) page_sample.
Proof. unfold page_sample. pose proof quiet_get_page_source. solve_quiet. Qed.

Lemma quiet_recover (plan : Plan) : quiet (recover plan).
Proof.
  unfold recover. pose proof quiet_refine_plan_with_error. pose proof quiet_page_sample.
  solve_quiet.
Qed.

Lemma quiet_announce_retry (retry_count : Z) : quiet (X := X) (announce_retry retry_count).
Proof. unfold announce_retry. solve_quiet. Qed.

Lemma quiet_try_recover (retry_count : Z) (plan : Plan) :
  quiet (try_recover retry_count plan).
Proof.
  unfold try_recover. pose proof quiet_recover. pose proof quiet_announce_retry.
  solve_quiet.
Qed.

Lemma quiet_greet (user_prompt : string) : quiet (greet user_prompt).
Proof. unfold greet. pose proof quiet_banner. solve_quiet. Qed.

Lemma quiet_plan_and_show (user_prompt : string) : quiet (plan_and_show user_prompt).
Proof.
  unfold plan_and_show, plan_steps.
  pose proof quiet_get_task_plan. pose proof quiet__print_plan. solve_quiet.
Qed.

Lemma say_returns (line : string) (w : World X) :
  say line w = (Returned tt, set_outside (print line (outside w)) w).
Proof. reflexivity. Qed.

Lemma banner_returns (title : string) (w : World X) :
  exists w', banner title w = (Returned tt, w').
Proof. unfold banner, bind. rewrite !say_returns. eauto. Qed.

Lemma try_recover_returns (retry_count : Z) (plan : Plan) (w : World X) :
  exists o w', try_recover retry_count plan w = (Returned o, w').
Proof.
  unfold try_recover, announce_retry, bind, gets, try_except. rewrite say_returns.
  match goal with |- context [recover plan ?w1] =>
    destruct (recover plan w1) as [[plan'|e] w2] end; [eauto|].
  rewrite say_returns. eauto.
Qed.

Lemma status_items (s t c f cs : pyval) :
  let d : gmap string pyval :=
    {[ "status" := s; "total_steps" := t; "completed" := c; "failed" := f;
       "current_step" := cs ]} in
  d !! "total_steps" = Some t /\ d !! "completed" = Some c /\ d !! "failed" = Some f.
Proof. repeat split. Qed.

(** [_print_summary] returns as soon as the log holds an event of a
    step index that is not negative. *)
Lemma _print_summary_returns (w : World X) :
  (exists e, e ∈ events (monitor w) /\ 0 <= step_index e) ->
  exists w', _print_summary w = (Returned tt, w').
Proof.
  intros (e & He & Hi).
  unfold _print_summary, bind, gets, get_current_status.
  destruct (events (monitor w)) as [|first rest] eqn:Hev; [by apply elem_of_nil in He|].
  destruct (max_step_index_spec first rest) as (top & _ & Hmax & Heq).
  specialize (Hmax e He).
  match goal with |- context [dict_item ?d] =>
    match d with
    | <[_ := ?s]> (<[_ := ?t]> (<[_ := ?c]> (<[_ := ?f]> {[_ := ?cs]}))) =>
        destruct (status_items s t c f cs) as (Ht & Hc & Hf)
    end end.
  cbv zeta in Ht, Hc, Hf.
  rewrite !say_returns. unfold dict_item. rewrite Ht. unfold pure at 1.
  rewrite say_returns, Hc. unfold pure at 1.
  rewrite say_returns, Hf. unfold pure at 1.
  rewrite say_returns. unfold pure at 1 2. unfold true_div.
  destruct (max_step_index first rest + 1) as [|d|d] eqn:Hd; [lia| |];
    unfold pure; rewrite !say_returns; eauto.
Qed.

Lemma loop_post_single (budget : nat) (w w' : World X) (r outcome : Res bool) :
  (1 <= budget)%nat ->
  history w' = (history w ++ [Executing outcome])%list ->
  (outcome = Returned false -> r = Returned false) ->
  loop_post budget w r w'.
Proof.
  intros Hb Hh Hr. exists [Executing outcome].
  split; [exact Hh|]. split; [simpl; lia|].
  split; [intros Hall; apply Hr; simpl in Hall; inversion Hall; congruence|].
  split.
  - intros [|p [|q pre]] post Heq; simplify_eq.
  - intros ok [Hin|Hin%elem_of_nil]%elem_of_cons; [discriminate|done].
Qed.

Lemma retry_loop_cases (fuel : nat) (retry_count : Z) (plan : Plan) (w : World X) :
  match retry_loop fuel retry_count plan w with
  | None => (fuel < Z.to_nat (max_retries w + 1 - retry_count))%nat
  | Some (r, w') => loop_post (Z.to_nat (max_retries w + 1 - retry_count)) w r w'
  end.
Proof.
  revert retry_count plan w.
  induction fuel as [|fuel IH]; intros rc plan w; simpl;
    destruct (rc <=? max_retries w) eqn:Hle;
    try (apply Z.leb_le in Hle); try (apply Z.leb_gt in Hle).
  - lia.
  - exists []. rewrite app_nil_r. split; [reflexivity|]. split; [simpl; lia|].
    split; [reflexivity|]. split.
    + intros [|p pre] post Heq; discriminate.
    + intros ok Hin. by apply elem_of_nil in Hin.
  - pose proof (execute_plan_cases plan w) as Hexec.
    destruct (execute_plan plan w) as [outcome w1].
    destruct Hexec as (newev & Hev & _ & Ha & Hr & _ & Hh & _ & Hshape).
    set (w1' := record_phase (Executing outcome) w1).
    assert (Hh1 : history w1' = (history w ++ [Executing outcome])%list)
      by (simpl; rewrite Hh; reflexivity).
    destruct outcome as [[|]|e].
    + pose proof (quiet_bind _ _ (quiet_banner "TASK COMPLETED SUCCESSFULLY")
                    (fun _ => quiet_bind _ _ quiet__print_summary
                                (fun _ => quiet_pure true)) w1') as Hq.
      destruct ((banner "TASK COMPLETED SUCCESSFULLY" ;;; _print_summary ;;; pure true) w1')
        as [r w']. simpl in Hq.
      apply (loop_post_single _ _ _ _ (Returned true)); [lia| |discriminate].
      destruct Hq as (_ & _ & _ & _ & _ & _ & _ & _ & ->). exact Hh1.
    + destruct (negb (auto_retry w1) || (rc >=? max_retries w1)) eqn:Hstop.
      * pose proof (quiet_bind _ _ (quiet_banner "TASK FAILED")
                      (fun _ => quiet_bind _ _ quiet__print_summary
                                  (fun _ => quiet_pure false)) w1') as Hq.
        assert (Hres : exists w', (banner "TASK FAILED" ;;; _print_summary ;;; pure false) w1'
                                  = (Returned false, w')).
        { unfold bind. destruct (banner_returns "TASK FAILED" w1') as (w2 & Hb).
          pose proof (quiet_banner "TASK FAILED" w1') as Hqb.
          rewrite Hb in *; simpl in Hqb.
          destruct (_print_summary_returns w2) as (w3 & ->); [|eauto].
          destruct Hshape as (k & e & _ & _ & Hl & Hi & _).
          exists e. split; [|lia].
          destruct Hqb as (-> & _). simpl. rewrite app_nil_r, Hev.
          apply elem_of_app. right. apply list_elem_of_lookup.
          rewrite last_lookup in Hl. eauto. }
        destruct Hres as (w' & Hres). rewrite Hres in *; simpl in Hq.
        apply (loop_post_single _ _ _ _ (Returned false)); [lia| |reflexivity].
        destruct Hq as (_ & _ & _ & _ & _ & _ & _ & _ & ->). exact Hh1.
      * apply orb_false_iff in Hstop as [_ Hlt].
        rewrite Z.geb_leb in Hlt. apply Z.leb_gt in Hlt. simpl in Hlt.
        pose proof (quiet_try_recover rc plan w1') as Hq.
        destruct (try_recover_returns rc plan w1') as (o & w2 & Hrec).
        rewrite Hrec in *; simpl in Hq.
        destruct Hq as (_ & _ & _ & _ & _ & _ & _ & Hr2 & Hh2). simpl in Hr2.
        destruct o as [plan'|].
        -- specialize (IH (rc + 1) plan' (record_phase (Recovering true) w2)).
           simpl max_retries in IH. rewrite Hr2, Hr in IH.
           destruct (retry_loop fuel (rc + 1) plan' (record_phase (Recovering true) w2))
             as [[r w']|]; [|lia].
           destruct IH as (new & Hn & Hlen & Hfail & Hlast' & Hplan).
           exists ([Executing (Returned false); Recovering true] ++ new)%list.
           split; [rewrite Hn; simpl; rewrite Hh2, Hh1, <- !app_assoc; reflexivity|].
           split; [simpl; simpl in Hlen; lia|].
           split; [intros Hall; apply Hfail; simpl in Hall; by inversion Hall|].
           split.
           ++ intros [|p [|q pre]] post Heq; simpl in Heq; simplify_eq.
              eapply Hlast'. reflexivity.
           ++ intros ok [Hin|[Hin|Hin]%elem_of_cons]%elem_of_cons;
                [discriminate|discriminate|by eapply Hplan].
        -- exists [Executing (Returned false); Recovering false].
           split; [simpl; rewrite Hh2, Hh1, <- app_assoc; reflexivity|].
           split; [simpl; lia|]. split; [reflexivity|]. split.
           ++ intros [|p [|q [|q' pre]]] post Heq; simpl in Heq; simplify_eq; done.
           ++ intros ok [Hin|[Hin|Hin%elem_of_nil]%elem_of_cons]%elem_of_cons;
                [discriminate|discriminate|done].
    + apply (loop_post_single _ _ _ _ (Raised e)); [lia|exact Hh1|discriminate].
  - exists []. rewrite app_nil_r. split; [reflexivity|]. split; [simpl; lia|].
    split; [reflexivity|]. split.
    + intros [|p pre] post Heq; discriminate.
    + intros ok Hin. by apply elem_of_nil in Hin.
Qed.

Lemma greet_returns (user_prompt : string) (w : World X) :
  exists w', greet user_prompt w = (Returned tt, w').
Proof.
  unfold greet, bind. destruct (banner_returns "AI SELENIUM AUTOMATION - STARTING" w)
    as (w1 & ->).
  rewrite !say_returns. eauto.
Qed.

(** The planning phase never raises and touches neither the monitor nor
    the executor. *)
Lemma planning_returns (user_prompt : string) (w : World X) :
  exists o w1,
    (greet user_prompt ;;;
     try_except (let* plan := plan_and_show user_prompt in pure (Some plan))
                (fun e => say ("Planning failed: " ++ e) ;;; pure None)) w
    = (Returned o, w1)
    /\ evolves [] w w1.
Proof.
  destruct (greet_returns user_prompt w) as (wg & Hg).
  pose proof (quiet_greet user_prompt w) as Hqg. rewrite Hg in Hqg; simpl in Hqg.
  assert (Hqt : quiet (try_except
                         (let* plan := plan_and_show user_prompt in pure (Some plan))
                         (fun e => say ("Planning failed: " ++ e) ;;; pure None)))
    by (pose proof quiet_plan_and_show; solve_quiet).
  specialize (Hqt wg).
  unfold bind at 1. rewrite Hg.
  assert (Hret : exists o w1,
             try_except (let* plan := plan_and_show user_prompt in pure (Some plan))
                        (fun e => say ("Planning failed: " ++ e) ;;; pure None) wg
             = (Returned o, w1)).
  { unfold try_except, bind.
    destruct (plan_and_show user_prompt wg) as [[plan|e] w1]; [eauto|].
    rewrite say_returns. eauto. }
  destruct Hret as (o & w1 & Hret). rewrite Hret in *; simpl in Hqt.
  exists o, w1. split; [reflexivity|].
  apply (evolves_trans [] [] w wg); assumption.
Qed.

(** C3. Given fuel for [max_retries + 1] iterations, [execute_task]
    returns, whatever the planner, the browser and the observers do. The
    executor is invoked at most [max_retries + 1] times (no time at all
    when that number is not positive), and if every invocation returned
    [False] the result is [False]. *)
Theorem retry_bound (user_prompt : string) (fuel : nat) (w : World X) :
  (Z.to_nat (max_retries w + 1) <= fuel)%nat ->
  exists r w' new,
    execute_task user_prompt fuel w = Some (r, w')
    /\ history w' = (history w ++ new)%list
    /\ (length (attempts new) <= Z.to_nat (max_retries w + 1))%nat
    /\ (Forall (eq (Returned false)) (attempts new) -> r = Returned false).
Proof.
  intros Hfuel. unfold execute_task.
  destruct (planning_returns user_prompt w) as (o & w1 & -> & Hq).
  destruct Hq as (_ & _ & _ & _ & _ & _ & _ & Hr & Hh).
  destruct o as [plan|].
  - rewrite say_returns.
    match goal with |- context [retry_loop fuel 0 plan ?w2] =>
      pose proof (retry_loop_cases fuel 0 plan w2) as Hloop;
      destruct (retry_loop fuel 0 plan w2) as [[r w']|] end;
      simpl max_retries in Hloop; rewrite Hr, Z.sub_0_r in Hloop; [|lia].
    destruct Hloop as (new & Hn & Hlen & Hfail & _).
    exists r, w', (Planning true :: new).
    split; [reflexivity|].
    split; [rewrite Hn; simpl; rewrite Hh, <- app_assoc; reflexivity|].
    split; [exact Hlen|exact Hfail].
  - exists (Returned false), (record_phase (Planning false) w1), [Planning false].
    split; [reflexivity|]. split; [simpl; rewrite Hh; reflexivity|].
    split; [simpl; lia|reflexivity].
Qed.

(** A failing refinement ends the loop at once, in whichever iteration
    it happens. *)
Lemma refinement_failure_ends_loop (fuel : nat) (retry_count : Z) (plan : Plan)
    (w w1 w2 : World X) (e : string) :
  retry_count < max_retries w ->
  auto_retry w = true ->
  execute_plan plan w = (Returned false, w1) ->
  recover plan (snd (announce_retry retry_count
                       (record_phase (Executing (Returned false)) w1)))
  = (Raised e, w2) ->
  exists w',
    retry_loop (S fuel) retry_count plan w = Some (Returned false, w')
    /\ history w' = (history w ++ [Executing (Returned false); Recovering false])%list
    /\ events (monitor w') = events (monitor w1).
Proof.
  intros Hlt Hauto Hexec Hrec. simpl.
  destruct (retry_count <=? max_retries w) eqn:Hle; [|apply Z.leb_gt in Hle; lia].
  pose proof (execute_plan_cases plan w) as Hcases. rewrite Hexec in Hcases |- *.
  destruct Hcases as (new & _ & _ & Ha & Hr & _ & Hh & _).
  simpl auto_retry. simpl max_retries. rewrite Ha, Hauto, Hr. simpl negb.
  destruct (retry_count >=? max_retries w) eqn:Hge;
    [rewrite Z.geb_leb in Hge; apply Z.leb_le in Hge; lia|]. simpl orb.
  set (w1' := record_phase (Executing (Returned false)) w1) in *.
  pose proof (quiet_announce_retry retry_count w1') as Hqa.
  pose proof (quiet_recover plan (snd (announce_retry retry_count w1'))) as Hqr.
  unfold try_recover, bind, try_except.
  destruct (announce_retry retry_count w1') as [[[]|e0] wa] eqn:Hann;
    [|unfold announce_retry, bind, gets in Hann; rewrite say_returns in Hann; discriminate].
  simpl in Hrec, Hqa, Hqr. unfold bind. rewrite Hrec in *. simpl in Hqr.
  rewrite say_returns.
  eexists. split; [reflexivity|].
  destruct Hqa as (Hea & _ & _ & _ & _ & _ & _ & _ & Hha).
  destruct Hqr as (Her & _ & _ & _ & _ & _ & _ & _ & Hhr).
  simpl. rewrite Hhr, Hha, Her, Hea, !app_nil_r. simpl. rewrite Hh, <- app_assoc.
  split; reflexivity.
Qed.

(** C8. If the first planning call raises, [execute_task] returns
    [False] at once: planning is not retried and the executor is not
    invoked (no execution in the history, the log and the browser session
    are as before). If, in any iteration of the loop, the refinement of
    the recovery raises, the loop returns [False] there, with nothing
    after the failed recovery in the history and no new event in the log.
    Hence in every run a failed recovery is the last thing that happens:
    the result is [False] and no execution follows. *)
Theorem planner_failures_are_terminal :
  (forall (user_prompt : string) (fuel : nat) (w w1 : World X) (e : string),
     get_task_plan (UserPrompt user_prompt) (snd (greet user_prompt w)) = (Raised e, w1) ->
     exists w',
       execute_task user_prompt fuel w = Some (Returned false, w')
       /\ history w' = (history w ++ [Planning false])%list
       /\ events (monitor w') = events (monitor w)
       /\ driver w' = driver w)
  /\ (forall (fuel : nat) (retry_count : Z) (plan : Plan) (w w1 w2 : World X)
             (e : string),
       retry_count < max_retries w ->
       auto_retry w = true ->
       execute_plan plan w = (Returned false, w1) ->
       recover plan (snd (announce_retry retry_count
                            (record_phase (Executing (Returned false)) w1)))
       = (Raised e, w2) ->
       exists w',
         retry_loop (S fuel) retry_count plan w = Some (Returned false, w')
         /\ history w'
            = (history w ++ [Executing (Returned false); Recovering false])%list
         /\ events (monitor w') = events (monitor w1))
  /\ (forall (user_prompt : string) (fuel : nat) (w w' : World X) (r : Res bool)
             (pre post : list Phase),
       execute_task user_prompt fuel w = Some (r, w') ->
       history w' = (history w ++ pre ++ Recovering false :: post)%list ->
       post = [] /\ r = Returned false).
Proof.
  split; [|split; [intros; eapply refinement_failure_ends_loop; eassumption|]].
  - intros user_prompt fuel w w1 e Hplan.
    pose proof (quiet_greet user_prompt w) as Hqg.
    pose proof (quiet_get_task_plan (UserPrompt user_prompt) (snd (greet user_prompt w)))
      as Hqp.
    unfold execute_task, bind at 1.
    destruct (greet_returns user_prompt w) as (wg & Hg). rewrite Hg in *.
    simpl in Hplan, Hqg, Hqp.
    unfold try_except, plan_and_show, bind. rewrite Hplan in *. simpl in Hqp.
    rewrite say_returns. eexists. split; [reflexivity|].
    destruct Hqg as (Heg & _ & Hdg & _ & _ & _ & _ & _ & Hhg).
    destruct Hqp as (Hep & _ & Hdp & _ & _ & _ & _ & _ & Hhp).
    simpl. rewrite Hhp, Hhg, Hep, Heg, Hdp, Hdg, !app_nil_r. done.
  - intros user_prompt fuel w w' r pre post Hrun Hhist.
    unfold execute_task in Hrun.
    destruct (planning_returns user_prompt w) as (o & w1 & Hp & Hq).
    rewrite Hp in Hrun.
    destruct Hq as (_ & _ & _ & _ & _ & _ & _ & Hr & Hh).
    destruct o as [plan|].
    + rewrite say_returns in Hrun.
      match type of Hrun with retry_loop fuel 0 plan ?w2 = _ =>
        pose proof (retry_loop_cases fuel 0 plan w2) as Hloop end.
      rewrite Hrun in Hloop.
      destruct Hloop as (new & Hn & _ & _ & Hlast & _).
      simpl in Hn. rewrite Hh, Hhist, <- !app_assoc in Hn.
      apply app_inv_head in Hn.
      destruct pre as [|p pre]; simpl in Hn; simplify_eq.
      eapply Hlast. reflexivity.
    + injection Hrun as <- <-. simpl in Hhist. rewrite Hh in Hhist.
      apply app_inv_head in Hhist.
      destruct pre as [|p [|q pre]]; simpl in Hhist; simplify_eq.
Qed.

(** With an empty log the summary cannot be printed: the status has no
    key ["completed"]. *)
Lemma _print_summary_not_started (w : World X) :
  events (monitor w) = [] ->
  exists w', _print_summary w = (Raised "'completed'", w') /\ evolves [] w w'.
Proof.
  intros Hempty. pose proof (quiet__print_summary w) as Hq.
  unfold _print_summary, bind, gets, get_current_status in Hq |- *.
  rewrite Hempty in Hq |- *. rewrite !say_returns in Hq |- *.
  eexists. split; [reflexivity|exact Hq].
Qed.

Lemma plan_and_show_empty (user_prompt : string) (w : World X) (x1 : X) :
  chat_completion (UserPrompt user_prompt) (outside w)
  = (Decoded {| steps := Some [] |}, x1) ->
  exists w1,
    plan_and_show user_prompt w = (Returned {| steps := Some [] |}, w1)
    /\ evolves [] w w1.
Proof.
  intros Hchat. pose proof (quiet_plan_and_show user_prompt w) as Hq.
  unfold plan_and_show, get_task_plan in Hq |- *.
  unfold bind at 1 2 in Hq. unfold bind at 1 2.
  unfold ask_outside in Hq |- *. rewrite Hchat in Hq |- *.
  eexists. split; [reflexivity|exact Hq].
Qed.

(** With a log that is still empty, a plan without steps makes
    [execute_task] raise after the successful execution. *)
Lemma empty_plan_crashes (user_prompt : string) (fuel : nat) (w : World X) (x1 : X) :
  browser_starts ->
  events (monitor w) = [] ->
  0 <= max_retries w ->
  chat_completion (UserPrompt user_prompt) (outside (snd (greet user_prompt w)))
  = (Decoded {| steps := Some [] |}, x1) ->
  exists w',
    execute_task user_prompt (S fuel) w = Some (Raised "'completed'", w')
    /\ events (monitor w') = []
    /\ history w' = (history w ++ [Planning true; Executing (Returned true)])%list.
Proof.
  intros Hstarts Hempty Hmax Hchat. unfold execute_task.
  destruct (greet_returns user_prompt w) as (wg & Hg).
  pose proof (quiet_greet user_prompt w) as Hqg. rewrite Hg in Hqg, Hchat. simpl in Hqg, Hchat.
  destruct Hqg as (Heg & _ & _ & _ & _ & _ & _ & Hrg & Hhg).
  unfold bind at 1. rewrite Hg.
  destruct (plan_and_show_empty user_prompt wg x1 Hchat) as (w1 & Hplan & Hq1).
  destruct Hq1 as (He1 & _ & _ & _ & _ & _ & _ & Hr1 & Hh1).
  unfold try_except, bind. rewrite Hplan. unfold pure. rewrite say_returns.
  simpl retry_loop.
  match goal with |- context [0 <=? ?m] => replace m with (max_retries w) end.
  2:{ simpl. congruence. }
  destruct (0 <=? max_retries w) eqn:Hle; [|apply Z.leb_gt in Hle; lia].
  unfold execute_plan at 1, bind.
  match goal with |- context [ensure_browser ?w2] =>
    destruct (ensure_browser_spec w2 Hstarts) as (w0 & -> & _ & Hm0 & _ & _ & Hh0) end.
  simpl for_steps. unfold pure at 1.
  match goal with |- context [banner ?t ?w3] =>
    destruct (banner_returns t w3) as (wb & Hb);
    pose proof (quiet_banner t w3) as Hqb; rewrite Hb in Hqb |- * end.
  simpl in Hqb. destruct Hqb as (Heb & _ & _ & _ & _ & _ & _ & _ & Hhb).
  simpl in Heb, Hhb, Hm0, Hh0.
  destruct (_print_summary_not_started wb) as (w' & Hsum & Hqs).
  { rewrite Heb, Hm0, He1, Heg, Hempty. reflexivity. }
  rewrite Hsum. exists w'. split; [reflexivity|].
  destruct Hqs as (Hes & _ & _ & _ & _ & _ & _ & _ & Hhs).
  rewrite Hes, Heb, Hm0, He1, Heg, Hempty, Hhs, Hhb, Hh0, Hh1, Hhg.
  simpl. rewrite <- app_assoc. split; reflexivity.
Qed.

(** C9 (the code departs from the claim). With a browser that can be
    launched: for a plan without steps,
    ["steps"] absent or empty, [execute_plan] returns [True] and emits
    no event. The run as a whole does not end as succeeded, though: when
    the planner answers with the plan [{"steps": []}] and the log is still
    empty, [execute_task] executes the plan, and then raises
    [KeyError('completed')] out of [_print_summary], which reads a key
    that the not-started status does not have. *)
Theorem empty_plan_run :
  browser_starts ->
  (forall w : World X,
     exists w1 w2,
       execute_plan {| steps := None |} w = (Returned true, w1)
       /\ events (monitor w1) = events (monitor w)
       /\ execute_plan {| steps := Some [] |} w = (Returned true, w2)
       /\ events (monitor w2) = events (monitor w))
  /\ (forall (user_prompt : string) (fuel : nat) (w : World X) (x1 : X),
       events (monitor w) = [] ->
       0 <= max_retries w ->
       chat_completion (UserPrompt user_prompt) (outside (snd (greet user_prompt w)))
       = (Decoded {| steps := Some [] |}, x1) ->
       exists w',
         execute_task user_prompt (S fuel) w = Some (Raised "'completed'", w')
         /\ events (monitor w') = []
         /\ history w'
            = (history w ++ [Planning true; Executing (Returned true)])%list).
Proof.
  intros Hstarts. split.
  - intros w. unfold execute_plan, bind.
    destruct (ensure_browser_spec w Hstarts) as (w0 & -> & _ & Hm & _).
    exists w0, w0. simpl. rewrite Hm. repeat split.
  - intros user_prompt fuel w x1. apply empty_plan_crashes. exact Hstarts.
Qed.

End orchestrator_properties.

(** ** The reporter *)

Section reporter_properties.
Context `{Outside X}.
Context (fromisoformat : string -> option datetime).

Lemma with_status_cons (s : string) (e : StepEvent) (l : list StepEvent) :
  with_status s (e :: l)
  = if decide (status e = s) then e :: with_status s l else with_status s l.
Proof. reflexivity. Qed.

Lemma outline_with_status (s : string) (log : list StepEvent) :
  outline (with_status s log) = filter (fun p => p.2 = s) (outline log).
Proof.
  induction log as [|e rest IH]; [reflexivity|].
  rewrite with_status_cons. unfold outline in *. rewrite fmap_cons.
  destruct (decide (status e = s)) as [He|He].
  - rewrite list.filter_cons_True by exact He. rewrite fmap_cons, IH. reflexivity.
  - rewrite list.filter_cons_False by exact He. exact IH.
Qed.

Lemma count_with_status (s : string) (log : list StepEvent) :
  length (with_status s log) = length (filter (fun p => p.2 = s) (outline log)).
Proof. rewrite <- outline_with_status. unfold outline. rewrite length_fmap. reflexivity. Qed.

Lemma success_pairs_started (i n : nat) :
  length (filter (fun p : Z * string => p.2 = "started") (success_pairs i n)) = n.
Proof.
  revert i. induction n as [|n IH]; intros i; [reflexivity|].
  cbn [success_pairs]. rewrite list.filter_cons_True by reflexivity.
  rewrite list.filter_cons_False by (cbn; discriminate).
  cbn [length]. rewrite IH. reflexivity.
Qed.

Lemma success_pairs_success (i n : nat) :
  length (filter (fun p : Z * string => p.2 = "success") (success_pairs i n)) = n.
Proof.
  revert i. induction n as [|n IH]; intros i; [reflexivity|].
  cbn [success_pairs]. rewrite list.filter_cons_False by (cbn; discriminate).
  rewrite list.filter_cons_True by reflexivity.
  cbn [length]. rewrite IH. reflexivity.
Qed.

Lemma success_pairs_failed (i n : nat) :
  filter (fun p : Z * string => p.2 = "failed") (success_pairs i n) = [].
Proof.
  revert i. induction n as [|n IH]; intros i; [reflexivity|].
  cbn [success_pairs]. rewrite !list.filter_cons_False by (cbn; discriminate). apply IH.
Qed.

(** The counts of a log that consists of the pairs of [k] steps followed
    by the three events of a failure. *)
Lemma counts_of_failed_run (k : nat) (log : list StepEvent) :
  outline log = (success_pairs 0 k ++ failure_outline k)%list ->
  length (with_status "started" log) = S k
  /\ length (with_status "success" log) = k
  /\ length (with_status "failed" log) = 2%nat
  /\ step_index <$> with_status "failed" log = [Z.of_nat k; Z.of_nat k].
Proof.
  intros Ho.
  assert (Hidx : step_index <$> with_status "failed" log
                 = fst <$> outline (with_status "failed" log)).
  { unfold outline. rewrite <- list_fmap_compose. reflexivity. }
  rewrite Hidx, outline_with_status.
  rewrite !count_with_status, Ho, !list.filter_app, !length_app.
  rewrite success_pairs_started, success_pairs_success, success_pairs_failed.
  unfold failure_outline.
  rewrite !(list.filter_cons_True (fun p : Z * string => p.2 = "started") (_, "started"))
    by reflexivity.
  repeat split; simpl; try reflexivity; lia.
Qed.

(** C4 (the code departs from the claim). After every call of
    [execute_plan] that returned [False], on a log that was empty, the
    summary counts two failures for the one failed step, so that
    [successful_steps + failed_steps] is [total_steps + 1]: the failure is
    logged twice, once by [_execute_step] and once by [execute_plan]. The
    other half of the claim holds for every log: [success_rate] is the
    integer [0] when [total_steps] is [0]. *)
Theorem summary_counts_of_failed_run (plan : Plan) (w w' : World X) :
  events (monitor w) = [] ->
  execute_plan plan w = (Returned false, w') ->
  let s := fst (get_summary fromisoformat w') in
  (reporter.successful_steps s + reporter.failed_steps s
   = reporter.total_steps s + 1)%nat
  /\ reporter.failed_steps s = 2%nat
  /\ forall (log : list StepEvent) (x : X),
       let s0 := fst (reporter.generate_summary fromisoformat (reporter.__init__ log) x) in
       reporter.total_steps s0 = 0%nat -> reporter.success_rate s0 = reporter.NInt 0.
Proof.
  intros Hempty Hrun.
  pose proof (execute_plan_cases plan w) as Hc. rewrite Hrun in Hc.
  destruct Hc as (new & Hlog & _ & _ & _ & _ & _ & _ & k & lf & _ & Ho & _).
  rewrite Hempty in Hlog. simpl in Hlog.
  destruct (counts_of_failed_run k new Ho) as (Hst & Hsu & Hfa & _).
  unfold get_summary, get_execution_log, get_log, reporter.generate_summary.
  destruct (reporter._generate_execution_id (reporter.__init__ (events (monitor w')))
              (outside w')) as [id x'].
  cbn [fst reporter.total_steps reporter.successful_steps reporter.failed_steps
       reporter.events reporter.__init__].
  rewrite Hlog, Hst, Hsu, Hfa.
  split; [lia|]. split; [reflexivity|].
  intros log x. unfold reporter.generate_summary.
  destruct (reporter._generate_execution_id (reporter.__init__ log) x) as [id0 x0].
  simpl. intros Hz. rewrite Hz. reflexivity.
Qed.

(** C5 (as amended). The summary of a log whose first event carries a
    non-empty timestamp does not depend on the moment of the call, and the
    call changes nothing: its execution id is cut out of that timestamp.
    For every log, the empty one included, all fields other than the
    execution id are the same at every call; the execution id of the empty
    log is the reading of the clock at the call. *)
Theorem summary_is_stable :
  (forall (first : StepEvent) (rest : list StepEvent) (x x' : X),
     timestamp first <> EmptyString ->
     let self := reporter.__init__ (first :: rest) in
     reporter.generate_summary fromisoformat self x
     = (fst (reporter.generate_summary fromisoformat self x'), x)
     /\ reporter.execution_id (fst (reporter.generate_summary fromisoformat self x))
        = "exec_" ++ id_of_timestamp (timestamp first))
  /\ (forall (log : list StepEvent) (x x' : X),
       let self := reporter.__init__ log in
       without_id (fst (reporter.generate_summary fromisoformat self x))
       = without_id (fst (reporter.generate_summary fromisoformat self x')))
  /\ (forall x : X,
       reporter.execution_id
         (fst (reporter.generate_summary fromisoformat (reporter.__init__ []) x))
       = "exec_" ++ strftime_compact "" (fst (now x))).
Proof.
  split; [|split].
  - intros first rest x x' Hne self.
    unfold reporter.generate_summary, reporter._generate_execution_id. simpl.
    apply String.eqb_neq in Hne. rewrite Hne. simpl. split; reflexivity.
  - intros log x x' self.
    unfold reporter.generate_summary.
    destruct (reporter._generate_execution_id self x) as [id1 x1].
    destruct (reporter._generate_execution_id self x') as [id2 x2].
    reflexivity.
  - intros x. unfold reporter.generate_summary, reporter._generate_execution_id. simpl.
    destruct (now x) as [t x1]. reflexivity.
Qed.

End reporter_properties.

(** ** Runs on the scripted world *)

Section scripted_runs.
Import demo.

Lemma sim_starts : browser_starts (X := Sim).
Proof. intros options x. eexists _, _. reflexivity. Qed.

Lemma sim_address_readable : address_readable (X := Sim).
Proof. intros h x. eexists _, _. reflexivity. Qed.

Lemma sim_screenshots_saved : screenshots_saved (X := Sim).
Proof. intros h path x. eexists _, _. reflexivity. Qed.

Lemma empty_plan_run_witness :
  let w := fresh [Decoded {| steps := Some [] |}] 2 in
  events (monitor w) = []
  /\ 0 <= max_retries w
  /\ exists w',
       execute_task "do nothing" 1 w = Some (Raised "'completed'", w')
       /\ events (monitor w') = []
       /\ history w' = [Planning true; Executing (Returned true)].
Proof.
  intros w. split; [reflexivity|]. split; [vm_compute; discriminate|].
  apply (proj2 (empty_plan_run (X := Sim) sim_starts) "do nothing" 0%nat w
           (snd (sim_chat (UserPrompt "do nothing") (outside (snd (greet "do nothing" w))))));
    [reflexivity|vm_compute; discriminate|vm_compute; reflexivity].
Defined.

(** What the console shows in that run: the success banner, then the
    first line of the summary, where the exception comes. *)
Example empty_plan_run_console :
  exists w',
    execute_task "do nothing" 1 (fresh [Decoded {| steps := Some [] |}] 2)
    = Some (Raised "'completed'", w')
    /\ printed (outside w') !! 11%nat = Some "TASK COMPLETED SUCCESSFULLY"
    /\ list.last (printed (outside w')) = Some "Total Steps:     0".
Proof. eexists. split; [vm_compute; reflexivity|]. split; reflexivity. Qed.

(** C5, as stated, fails on the empty log: two calls one after the
    other read the clock at different seconds and give different
    execution ids. *)
Lemma summary_of_empty_log_changes :
  let self := reporter.__init__ [] in
  let first := reporter.generate_summary (fun _ => None) self (sim0 []) in
  let second := reporter.generate_summary (fun _ => None) self (snd first) in
  fst first <> fst second.
Proof. vm_compute. discriminate. Qed.

(** The scenario of the specification: a navigation that succeeds and a
    click that times out. *)
Example summary_scenario :
  let log :=
    [ {| step_index := 0; action := PStr "open"; status := "started";
         timestamp := "2024-01-01T12:00:00"; selector := PNone; url := PNone;
         value := PNone; error := PNone; screenshot_path := PNone |};
      {| step_index := 0; action := PStr "open"; status := "success";
         timestamp := "2024-01-01T12:00:01"; selector := PNone; url := PStr "A";
         value := PNone; error := PNone; screenshot_path := PNone |};
      {| step_index := 1; action := PStr "click"; status := "started";
         timestamp := "2024-01-01T12:00:02"; selector := PStr "#x"; url := PStr "A";
         value := PNone; error := PNone; screenshot_path := PNone |};
      {| step_index := 1; action := PStr "click"; status := "failed";
         timestamp := "2024-01-01T12:00:12"; selector := PStr "#x"; url := PStr "A";
         value := PNone; error := PStr "timeout"; screenshot_path := PNone |} ] in
  let s := fst (reporter.generate_summary (fun _ => None) (reporter.__init__ log)
                  (sim0 [])) in
  reporter.total_steps s = 2%nat
  /\ reporter.successful_steps s = 1%nat
  /\ reporter.failed_steps s = 1%nat
  /\ reporter.success_rate s = reporter.NFloat (Qmake 50 1)
  /\ reporter.urls_visited s = [PStr "A"]
  /\ reporter.summary_status s = "failed".
Proof. repeat split. Qed.

(** Floats round as binary64 does: 63 seconds are ["1.1m"], since 1.05
    is stored as a number just above it; 23 steps out of 160 are 14.37
    percent, since the product is stored as a number just below 14.375;
    and no step out of a negative total is ["-0.0"]. *)
Example float_rounding :
  format_1f (to_double (Qdiv (to_double (Qmake 63000000 1000000)) (Qmake 60 1))) = "1.1"
  /\ format_1f (to_double (Qmake 35 100)) = "0.3"
  /\ reporter.round2
       (reporter.NFloat (to_double (Qmult (to_double (Qmake 23 160)) (Qmake 100 1))))
     = reporter.NFloat (to_double (Qmake 1437 100))
  /\ (let* ratio := true_div (PInt 0) (PInt (-3)) in
      pure (format_float_1f (times_100 ratio))) tt
     = (Returned "-0.0", tt).
Proof. vm_compute. repeat split. Qed.

(** The empty log: not started, nothing to count. *)
Example empty_log_scenario :
  get_current_status (runtime_state.__init__ (X := Sim))
  = {[ "status" := PStr "not_started"; "total_steps" := PInt 0 ]}
  /\ reporter.success_rate
       (fst (reporter.generate_summary (fun _ => None) (reporter.__init__ []) (sim0 [])))
     = reporter.NInt 0.
Proof. split; reflexivity. Qed.

Lemma execute_plan_fails_at_witness :
  all_succeed 0 [open_step] (snd (ensure_browser (fresh [] 2))) = true
  /\ action_succeeds 1 (click_step "#missing")
       (world_after 0 [open_step] (snd (ensure_browser (fresh [] 2)))) = false
  /\ exists new w',
       execute_plan failing_plan (fresh [] 2) = (Returned false, w')
       /\ events (monitor w') = (events (monitor (fresh [] 2)) ++ new)%list
       /\ outline new = [(0, "started"); (0, "success");
                         (1, "started"); (1, "failed"); (1, "failed")].
Proof.
  split; [vm_compute; reflexivity|]. split; [vm_compute; reflexivity|].
  apply (proj1 (execute_plan_fails_at [open_step] (click_step "#missing") [open_step]
                  (fresh [] 2))
           sim_starts sim_address_readable sim_screenshots_saved);
    vm_compute; reflexivity.
Defined.

Lemma execute_plan_all_succeed_witness :
  all_succeed 0 [open_step; click_step "#go"] (snd (ensure_browser (fresh [] 2))) = true
  /\ exists new w',
       execute_plan (plan_of [open_step; click_step "#go"]) (fresh [] 2)
       = (Returned true, w')
       /\ events (monitor w') = (events (monitor (fresh [] 2)) ++ new)%list
       /\ outline new = [(0, "started"); (0, "success"); (1, "started"); (1, "success")].
Proof.
  split; [vm_compute; reflexivity|].
  apply (execute_plan_all_succeed (plan_of [open_step; click_step "#go"]) (fresh [] 2)
           sim_starts sim_address_readable).
  vm_compute; reflexivity.
Defined.

(** C2, as stated, fails in front of a page whose button opens a dialog:
    the action of every step returns, the click included, but the address
    of the page cannot be read for the success event of the click, and
    the step is logged as failed. It also fails where the browser cannot
    be launched: no action of the empty plan fails, and [execute_plan]
    raises. *)
Lemma execute_plan_fails_after_actions :
  let plan := plan_of [open_step; click_step "#go"] in
  let w := alerting [] 2 in
  let v := orchestrator.__init__ false true 2 {| console := [] |} in
  (all_succeed 0 (default [] (steps plan)) (snd (ensure_browser w)) = true
   /\ fst (execute_plan plan w) = Returned false
   /\ outline (events (monitor (snd (execute_plan plan w))))
      = [(0, "started"); (0, "success"); (1, "started"); (1, "failed"); (1, "failed")])
  /\ (all_succeed 0 (default [] (steps (plan_of []))) (snd (ensure_browser v)) = true
      /\ fst (execute_plan (plan_of []) v)
         = Raised "Message: Unable to obtain driver for chrome").
Proof. vm_compute. repeat split. Qed.

Lemma retry_bound_witness :
  let w := fresh [Decoded (plan_of [click_step "#missing"]);
                  Decoded (plan_of [click_step "#missing"]);
                  Decoded (plan_of [click_step "#missing"])] 2 in
  (Z.to_nat (max_retries w + 1) <= 3)%nat
  /\ exists r w' new,
       execute_task "press the button" 3 w = Some (r, w')
       /\ history w' = (history w ++ new)%list
       /\ (length (attempts new) <= Z.to_nat (max_retries w + 1))%nat
       /\ (Forall (eq (Returned false)) (attempts new) -> r = Returned false).
Proof.
  intros w. split; [vm_compute; lia|].
  apply (retry_bound "press the button" 3 w). vm_compute; lia.
Defined.

Lemma summary_counts_of_failed_run_witness :
  let w := fresh [] 2 in
  let w' := snd (execute_plan failing_plan w) in
  let s := fst (get_summary (fun _ => None) w') in
  events (monitor w) = []
  /\ execute_plan failing_plan w = (Returned false, w')
  /\ reporter.total_steps s = 2%nat
  /\ reporter.successful_steps s = 1%nat
  /\ reporter.failed_steps s = 2%nat
  /\ (reporter.successful_steps s + reporter.failed_steps s
      = reporter.total_steps s + 1)%nat.
Proof.
  intros w w' s.
  assert (Hrun : execute_plan failing_plan w = (Returned false, w'))
    by (vm_compute; reflexivity).
  split; [reflexivity|]. split; [exact Hrun|].
  split; [vm_compute; reflexivity|]. split; [vm_compute; reflexivity|].
  destruct (summary_counts_of_failed_run (fun _ => None) failing_plan w w' eq_refl Hrun)
    as (Hsum & Hfailed & _).
  split; [exact Hfailed|exact Hsum].
Defined.

Lemma summary_is_stable_witness :
  let first := event_of 0 "open" "started" "2024-01-01T12:00:00.250000" in
  let self := reporter.__init__ [first] in
  timestamp first <> EmptyString
  /\ reporter.generate_summary (fun _ => None) self (sim0 [])
     = (fst (reporter.generate_summary (fun _ => None) self (snd (sim_now (sim0 [])))),
        sim0 [])
  /\ reporter.execution_id (fst (reporter.generate_summary (fun _ => None) self (sim0 [])))
     = "exec_20240101T120000".
Proof.
  intros first self. split; [discriminate|].
  apply (proj1 (summary_is_stable (fun _ => None)) first [] (sim0 [])
           (snd (sim_now (sim0 [])))).
  discriminate.
Defined.

Lemma emit_isolates_observer_failures_witness :
  let self := add_listener noting_listener
                (add_listener broken_listener
                   (add_listener noting_listener runtime_state.__init__)) in
  let event := event_of 3 "click" "started" "2024-01-01T12:00:00" in
  exists self' x',
    emit print event (self, sim0 []) = (Returned tt, (self', x'))
    /\ events self' = [event]
    /\ printed x' = ["saw 3"; "Listener error: boom"; "saw 3"].
Proof.
  intros self event.
  destruct (emit_isolates_observer_failures self (sim0 []) event)
    as (self' & x' & Hemit & Hev & _ & Hx & Hafter).
  exists self', x'. split; [exact Hemit|]. split; [exact Hev|].
  rewrite (Hafter [noting_listener] broken_listener [noting_listener] eq_refl).
  reflexivity.
Defined.

Lemma get_current_status_spec_witness :
  let m1 := fst (snd (emit print (event_of 0 "open" "started" "2024-01-01T12:00:00")
                        (add_listener noting_listener runtime_state.__init__, sim0 []))) in
  let m2 := fst (snd (emit print (event_of 0 "open" "success" "2024-01-01T12:00:01")
                        (m1, sim0 []))) in
  reachable (X := Sim) runtime_state.__init__
  /\ reachable m2
  /\ get_current_status (runtime_state.__init__ (X := Sim))
     = {[ "status" := PStr "not_started"; "total_steps" := PInt 0 ]}
  /\ exists top,
       top ∈ events m2
       /\ (forall e, e ∈ events m2 -> step_index e <= step_index top)
       /\ get_current_status m2
          = {[ "status" := PStr "running"; "total_steps" := PInt (step_index top + 1);
               "completed" := PInt 1; "failed" := PInt 0; "current_step" := PInt 0 ]}.
Proof.
  intros m1 m2.
  assert (H0 : reachable (X := Sim) runtime_state.__init__) by constructor.
  assert (H2 : reachable m2)
    by (apply (reachable_emit (X := Sim)), (reachable_emit (X := Sim)),
          reachable_add_listener, reachable_init).
  split; [exact H0|]. split; [exact H2|]. split.
  - apply (proj1 (get_current_status_spec _ H0)). reflexivity.
  - destruct (proj2 (get_current_status_spec m2 H2)
                (event_of 0 "open" "success" "2024-01-01T12:00:01") eq_refl)
      as (top & Hin & Hmax & Hstatus).
    exists top. split; [exact Hin|]. split; [exact Hmax|].
    rewrite Hstatus. reflexivity.
Defined.

Lemma current_step_never_reset_witness :
  let m1 := fst (snd (emit print (event_of 0 "open" "started" "2024-01-01T12:00:00")
                        (runtime_state.__init__, sim0 []))) in
  reachable m1
  /\ events m1 <> []
  /\ current_step (add_listener broken_listener m1) <> None
  /\ get_current_status m1 !! "status" = Some (PStr "running").
Proof.
  intros m1.
  assert (H1 : reachable m1) by (apply (reachable_emit (X := Sim)), reachable_init).
  assert (Hne : events m1 <> []) by discriminate.
  destruct (current_step_never_reset (X := Sim)) as (Hadd & Hemit & Hrun & _).
  split; [exact H1|]. split; [exact Hne|]. split.
  - apply Hadd. apply Hemit.
  - apply Hrun; assumption.
Defined.

Lemma planner_failures_are_terminal_witness :
  let w := fresh [] 2 in
  let v := fresh [Decoded (plan_of [click_step "#missing"])] 2 in
  (exists e w1, get_task_plan (UserPrompt "press the button")
                  (snd (greet "press the button" w)) = (Raised e, w1))
  /\ (exists w',
        execute_task "press the button" 0 w = Some (Returned false, w')
        /\ history w' = [Planning false]
        /\ events (monitor w') = []
        /\ driver w' = None)
  /\ (exists w',
        execute_task "press the button" 3 v = Some (Returned false, w')
        /\ history w' = [Planning true; Executing (Returned false); Recovering false]).
Proof.
  intros w v.
  destruct (planner_failures_are_terminal (X := Sim)) as (Hplan & Hloop & Hlast).
  split; [eexists _, _; vm_compute; reflexivity|]. split.
  - destruct (Hplan "press the button" 0%nat w
                (snd (get_task_plan (UserPrompt "press the button")
                        (snd (greet "press the button" w))))
                "OpenRouter API error: connection refused")
      as (w' & Hrun & Hh & He & Hd); [vm_compute; reflexivity|].
    exists w'. repeat split; assumption.
  - assert (Hrun : exists r w', execute_task "press the button" 3 v = Some (r, w')
                     /\ history w' = (history v ++ [Planning true; Executing (Returned false)]
                                        ++ Recovering false :: [])%list)
      by (eexists _, _; split; vm_compute; reflexivity).
    destruct Hrun as (r & w' & Hrun & Hh).
    destruct (Hlast "press the button" 3%nat v w' r _ _ Hrun Hh) as (_ & ->).
    exists w'. split; [exact Hrun|exact Hh].
Defined.

End scripted_runs.

(** * Further properties *)

(** ** The plan executor, whatever the browser does *)

Section executor_contract.
Context `{Outside X}.

Lemma attempt_needs_action (i : Z) (step : Step) (w w' : World X) (b : bool) :
  attempt i step w = (Returned b, w') ->
  exists step' w1, dispatch i (dict_get step "action") step w = (Returned step', w1).
Proof.
  unfold attempt, bind at 1.
  destruct (dispatch i (dict_get step "action") step w) as [[step'|e] w1];
    [eauto|discriminate].
Qed.

(** [_execute_step] can raise, and then it has logged no terminal event:
    it raises when the address of the page cannot be read for the started
    event, with nothing logged, and when the screenshot or the address
    fails inside its handler, with the started event logged. Whenever it
    returns it has appended exactly two events for its step, the started
    event and one terminal event, success when it returns [True] and
    failed when it returns [False]. It returns [True] only if the
    dispatched action returned, and never without a browser session, since
    the success event needs the address of the page. Listeners and the
    session are left alone in every case. With a browser that tells its
    address and saves its screenshots it always returns, and with a session
    it then returns [True] exactly when the dispatched action returns. *)
Theorem _execute_step_contract (i : nat) (step : Step) (w : World X) :
  let '(r, w') := _execute_step (Z.of_nat i) step w in
  listeners (monitor w') = listeners (monitor w)
  /\ driver w' = driver w
  /\ match r with
     | Returned b =>
         (exists e1 e2,
            events (monitor w') = (events (monitor w) ++ [e1; e2])%list
            /\ outline [e1; e2]
               = [(Z.of_nat i, "started");
                  (Z.of_nat i, if b then "success" else "failed")])
         /\ (b = true -> is_Some (driver w) /\ action_succeeds i step w = true)
     | Raised _ =>
         events (monitor w') = events (monitor w)
         \/ exists e1, events (monitor w') = (events (monitor w) ++ [e1])%list
                       /\ outline [e1] = [(Z.of_nat i, "started")]
     end
  /\ (address_readable -> screenshots_saved ->
      exists b, r = Returned b
                /\ (is_Some (driver w) -> b = action_succeeds i step w)).
Proof.
  pose proof (_execute_step_cases (Z.of_nat i) step w) as Hc.
  destruct (_execute_step (Z.of_nat i) step w) as [r w'] eqn:Hrun.
  assert (Hframe : listeners (monitor w') = listeners (monitor w) /\ driver w' = driver w).
  { destruct r as [b|e].
    - destruct Hc as (e1 & e2 & (_ & Hl & Hd & _) & _). auto.
    - destruct Hc as (new & (_ & Hl & Hd & _) & _). auto. }
  destruct Hframe as (Hl & Hd). split; [exact Hl|]. split; [exact Hd|]. split.
  - destruct r as [b|e].
    + destruct Hc as (e1 & e2 & (He & _) & Ho). split; [eauto|].
      intros ->. revert Hrun. unfold _execute_step, bind, action_succeeds.
      pose proof (emit_started_cases (Z.of_nat i) step w) as Hs.
      destruct (emit_started (Z.of_nat i) step w) as [[[]|e] w1]; [|discriminate].
      destruct Hs as (ev & (_ & _ & Hd1 & _) & _). simpl snd.
      unfold try_except.
      destruct (attempt (Z.of_nat i) step w1) as [[b|e] w2] eqn:Hatt.
      * intros _. split.
        -- destruct (driver w) as [h|] eqn:Hdw; [eauto|].
           destruct (attempt_without_browser (Z.of_nat i) step w1 Hd1) as (e & w3 & Hno).
           rewrite Hno in Hatt. discriminate.
        -- destruct (attempt_needs_action _ _ _ _ _ Hatt) as (step' & w3 & ->).
           reflexivity.
      * pose proof (on_exception_cases (Z.of_nat i) step e w2) as Hh.
        destruct (on_exception (Z.of_nat i) step e w2) as [[b|e'] w3];
          [destruct Hh as (-> & _)|]; discriminate.
    + destruct Hc as (new & (He & _) & [Ho|Ho]).
      * left. destruct new; [rewrite He, app_nil_r; reflexivity|discriminate].
      * right. destruct new as [|e1 [|e2 new]]; try discriminate.
        exists e1. split; [exact He|exact Ho].
  - intros Ha Hs.
    destruct (_execute_step_spec i step w Ha Hs) as (b & e1 & e2 & w2 & Hrun' & _ & _ & Hb).
    rewrite Hrun in Hrun'. injection Hrun' as -> ->. eauto.
Qed.

Lemma for_steps_returns (l : list Step) (i : nat) (w : World X) :
  address_readable -> screenshots_saved ->
  exists b w', for_steps i l w = (Returned b, w').
Proof.
  intros Ha Hs. revert i w. induction l as [|step rest IH]; intros i w.
  - exists true, w. reflexivity.
  - simpl. unfold bind.
    destruct (_execute_step_spec i step w Ha Hs) as (b & e1 & e2 & w1 & -> & _).
    destruct b; [apply IH|].
    destruct (report_failure_returns i step w1 Ha Hs) as (w' & ->). eauto.
Qed.

Lemma execute_plan_returns (plan : Plan) (w : World X) :
  browser_starts -> address_readable -> screenshots_saved ->
  exists b w', execute_plan plan w = (Returned b, w').
Proof.
  intros Hb Ha Hs. unfold execute_plan, bind.
  destruct (ensure_browser_spec w Hb) as (w0 & -> & _).
  apply for_steps_returns; assumption.
Qed.

(** What a call of [execute_plan] appends to the log has one of three
    shapes. When it returns [True]: the started/success pair of every
    step, in order. When it returns [False]: the pairs of the first [k]
    steps, for some step [k] of the plan, then the started event of step
    [k] and two failed events of step [k]. When it raises, because the
    browser cannot be launched or a screenshot or the address of the page
    fails outside a [try]: the pairs of the first [k] steps and then at
    most the started and one failed event of step [k]. Listeners are left
    as they were. With a browser that can be launched, tells its address
    and saves its screenshots, the call returns. *)
Theorem execute_plan_log_shape (plan : Plan) (w : World X) :
  let '(r, w') := execute_plan plan w in
  (exists new,
     events (monitor w') = (events (monitor w) ++ new)%list
     /\ match r with
        | Returned true =>
            outline new = success_pairs 0 (length (default [] (steps plan)))
        | Returned false =>
            exists k, (k < length (default [] (steps plan)))%nat
              /\ outline new = (success_pairs 0 k ++ failure_outline k)%list
        | Raised _ =>
            exists k n, (k <= length (default [] (steps plan)))%nat /\ (n < 3)%nat
              /\ outline new = (success_pairs 0 k ++ take n (failure_outline k))%list
        end)
  /\ listeners (monitor w') = listeners (monitor w)
  /\ (browser_starts -> address_readable -> screenshots_saved ->
      exists b, r = Returned b).
Proof.
  pose proof (execute_plan_cases plan w) as Hc.
  destruct (execute_plan plan w) as [r w'] eqn:Hrun.
  destruct Hc as (new & He & Hl & _ & _ & _ & _ & _ & Hshape).
  split; [|split; [exact Hl|]].
  - exists new. split; [exact He|]. destruct r as [[|]|e].
    + exact Hshape.
    + destruct Hshape as (k & lf & Hk & Ho & _). eauto.
    + exact Hshape.
  - intros Hb Ha Hs.
    destruct (execute_plan_returns plan w Hb Ha Hs) as (b & w2 & Hret).
    rewrite Hrun in Hret. injection Hret as -> _. eauto.
Qed.

Lemma for_steps_keeps_session (l : list Step) (i : nat) (w : World X) :
  driver (snd (for_steps i l w)) = driver w.
Proof.
  pose proof (for_steps_cases l i w) as Hc.
  destruct (for_steps i l w) as [[[|]|e] w']; simpl.
  - destruct Hc as (new & (_ & _ & Hd & _) & _). exact Hd.
  - destruct Hc as (new & k & lf & (_ & _ & Hd & _) & _). exact Hd.
  - destruct Hc as (new & k & n & (_ & _ & Hd & _) & _). exact Hd.
Qed.

(** The browser session over the calls of the executor. With a session
    running, [execute_plan] launches nothing: it is the loop over the
    steps, run as things are. Without one it launches exactly one browser,
    with the [headless] setting, and runs the loop in it; if the launch
    raises, [execute_plan] raises the same exception with nothing logged
    and no session. Whatever the loop does, the session it ran in is still
    the session afterwards. [cleanup] quits that session and forgets it;
    if quitting raises, [cleanup] raises and the session is kept. *)
Theorem browser_session_lifecycle (plan : Plan) (w : World X) :
  match driver w with
  | Some h =>
      execute_plan plan w = for_steps 0 (default [] (steps plan)) w
      /\ driver (snd (execute_plan plan w)) = Some h
      /\ cleanup w
         = match quit h (outside w) with
           | (Returned _, x) => (Returned tt, set_driver None (set_outside x w))
           | (Raised e, x) => (Raised e, set_outside x w)
           end
  | None =>
      match Chrome (headless w) (outside w) with
      | (Returned h, x) =>
          execute_plan plan w
          = for_steps 0 (default [] (steps plan)) (set_driver (Some h) (set_outside x w))
          /\ driver (snd (execute_plan plan w)) = Some h
      | (Raised e, x) => execute_plan plan w = (Raised e, set_outside x w)
      end
      /\ cleanup w = (Returned tt, w)
  end.
Proof.
  pose proof (ensure_browser_cases w) as Hens.
  assert (Hclean : cleanup w
                   = match driver w with
                     | Some h =>
                         match quit h (outside w) with
                         | (Returned _, x) =>
                             (Returned tt, set_driver None (set_outside x w))
                         | (Raised e, x) => (Raised e, set_outside x w)
                         end
                     | None => (Returned tt, w)
                     end).
  { unfold cleanup, stop_browser, bind, gets, on_outside, modify.
    destruct (driver w) as [h|]; [|reflexivity].
    destruct (quit h (outside w)) as [[[]|e] x]; reflexivity. }
  unfold execute_plan, bind.
  destruct (driver w) as [h|] eqn:Hd.
  - rewrite Hens. split; [reflexivity|]. split; [|exact Hclean].
    rewrite for_steps_keeps_session. exact Hd.
  - split; [|exact Hclean].
    destruct (Chrome (headless w) (outside w)) as [[h|e] x]; rewrite Hens.
    + split; [reflexivity|]. rewrite for_steps_keeps_session. reflexivity.
    + reflexivity.
Qed.

End executor_contract.

(** ** The planner *)

Section planner_contract.
Context `{Outside X}.

Lemma allowed_action (v : pyval) :
  v ∈ [PStr "open"; PStr "type"; PStr "click"; PStr "wait"; PStr "screenshot"]
  <-> exists a, v = PStr a /\ a ∈ ["open"; "type"; "click"; "wait"; "screenshot"].
Proof.
  rewrite !elem_of_cons, elem_of_nil. split.
  - intros [->|[->|[->|[->|[->|[]]]]]]; eexists; (split; [reflexivity|]);
      rewrite !elem_of_cons; auto 10.
  - intros (a & -> & Ha). rewrite !elem_of_cons, elem_of_nil in Ha.
    destruct Ha as [->|[->|[->|[->|[->|[]]]]]]; auto 10.
Qed.

Lemma validate_step_spec {S} (step : Step) (s : S) :
  if well_formed_step step then validate_step step s = (Returned tt, s)
  else exists e, validate_step step s = (Raised e, s).
Proof.
  unfold well_formed_step, validate_step, has_key, dict_get.
  destruct (step !! "action") as [v|] eqn:Hact; simpl; [|eauto].
  destruct (bool_decide (v ∈ [PStr "open"; PStr "type"; PStr "click"; PStr "wait";
                              PStr "screenshot"])) eqn:Hin; simpl.
  - apply bool_decide_eq_true in Hin. apply allowed_action in Hin as (a & -> & Ha).
    rewrite !elem_of_cons, elem_of_nil in Ha.
    destruct Ha as [->|[->|[->|[->|[->|[]]]]]]; simpl;
      repeat (match goal with |- context [bool_decide ?P] =>
                destruct (bool_decide P) end); simpl; eauto.
  - apply bool_decide_eq_false in Hin.
    destruct v as [| | |a]; eauto.
    assert (Hno : a ∉ ["open"; "type"; "click"; "wait"; "screenshot"]).
    { intros Ha. apply Hin, allowed_action. eauto. }
    rewrite !not_elem_of_cons in Hno. destruct Hno as (? & ? & ? & ? & ? & _).
    repeat case_decide; try contradiction.
    rewrite bool_decide_eq_false_2 by assumption. eauto.
Qed.

Lemma validate_steps_spec {S} (l : list Step) (s : S) :
  if forallb well_formed_step l then validate_steps l s = (Returned tt, s)
  else exists e, validate_steps l s = (Raised e, s).
Proof.
  induction l as [|step rest IH]; simpl; [reflexivity|].
  unfold bind. pose proof (validate_step_spec step s) as Hstep.
  destruct (well_formed_step step); simpl.
  - rewrite Hstep. exact IH.
  - destruct Hstep as (e & ->). eauto.
Qed.

(** [get_task_plan] returns a plan exactly when the reply of the model
    decodes to a plan that has ["steps"] and whose steps are all well
    formed; the plan is returned as it came, and nothing but the exchange
    with the model has happened. *)
Theorem get_task_plan_accepts (prompt : Prompt) (w w' : World X) (plan : Plan) :
  get_task_plan prompt w = (Returned plan, w')
  <-> exists x' l,
        chat_completion prompt (outside w) = (Decoded plan, x')
        /\ w' = set_outside x' w
        /\ steps plan = Some l
        /\ forallb well_formed_step l = true.
Proof.
  unfold get_task_plan, bind, ask_outside, try_except, validate_plan.
  destruct (chat_completion prompt (outside w)) as [reply x'].
  destruct reply as [msg|msg|msg|decoded];
    try (split; [discriminate|intros (? & ? & ? & _); discriminate]).
  destruct (steps decoded) as [l|] eqn:Hsteps.
  - pose proof (validate_steps_spec l (set_outside x' w)) as Hval.
    destruct (forallb well_formed_step l) eqn:Hwf.
    + rewrite Hval. split.
      * intros [= <- <-]. eauto 10.
      * intros (x2 & l2 & [= <- <-] & -> & _). reflexivity.
    + destruct Hval as (e & ->). split; [discriminate|].
      intros (x2 & l2 & [= <- <-] & _ & Hl & Hwf2). congruence.
  - split; [discriminate|].
    intros (x2 & l2 & [= <- <-] & _ & Hl & _). congruence.
Qed.

Lemma list_item_spec {S A} (l : list A) (i : Z) (s : S) :
  list_item l i s
  = if (- Z.of_nat (length l) <=? i) && (i <? Z.of_nat (length l))
    then match l !! Z.to_nat (i `mod` Z.of_nat (length l)) with
         | Some a => (Returned a, s)
         | None => (Raised "list index out of range", s)
         end
    else (Raised "list index out of range", s).
Proof.
  unfold list_item. remember (Z.of_nat (length l)) as n eqn:Hn.
  destruct (- n <=? i) eqn:Hlo; destruct (i <? n) eqn:Hhi; simpl;
    try apply Z.leb_le in Hlo; try apply Z.leb_gt in Hlo;
    try apply Z.ltb_lt in Hhi; try apply Z.ltb_ge in Hhi.
  - assert (Hj : (if i <? 0 then i + n else i) = i `mod` n).
    { destruct (i <? 0) eqn:Hneg; [apply Z.ltb_lt in Hneg|apply Z.ltb_ge in Hneg].
      - apply (Z.mod_unique _ _ (-1)); lia.
      - symmetry. apply Z.mod_small. lia. }
    rewrite Hj.
    assert (Hrange : 0 <= i `mod` n < n) by (apply Z.mod_pos_bound; lia).
    destruct (0 <=? i `mod` n) eqn:H0; [|apply Z.leb_gt in H0; lia].
    destruct (i `mod` n <? n) eqn:H1; [|apply Z.ltb_ge in H1; lia].
    simpl. destruct (l !! Z.to_nat (i `mod` n)); reflexivity.
  - assert (Hout : (0 <=? (if i <? 0 then i + n else i))
                   && ((if i <? 0 then i + n else i) <? n) = false).
    { destruct (i <? 0) eqn:Hneg; [apply Z.ltb_lt in Hneg|apply Z.ltb_ge in Hneg].
      - lia.
      - apply andb_false_iff. right. apply Z.ltb_ge. lia. }
    rewrite Hout. reflexivity.
  - assert (Hout : (0 <=? (if i <? 0 then i + n else i))
                   && ((if i <? 0 then i + n else i) <? n) = false).
    { destruct (i <? 0) eqn:Hneg; [apply Z.ltb_lt in Hneg|apply Z.ltb_ge in Hneg].
      - apply andb_false_iff. left. apply Z.leb_gt. lia.
      - lia. }
    rewrite Hout. reflexivity.
  - lia.
Qed.

(** Python's [l[i]] reaches the element at [i mod len(l)] when
    [-len(l) <= i < len(l)] and raises otherwise; so does the look-up of
    the failing step in [refine_plan_with_error], before the model is
    asked anything: a plan without ["steps"] or an index out of range
    raises and leaves the world as it is, and otherwise the request sent
    is the refinement context of that step. *)
Theorem refine_plan_with_error_lookup (plan : Plan) (error_step : Z)
    (error_msg : string) (dom_snippet : option string) (w : World X) :
  match steps plan with
  | None =>
      refine_plan_with_error plan error_step error_msg dom_snippet w
      = (Raised "'steps'", w)
  | Some l =>
      if (- Z.of_nat (length l) <=? error_step) && (error_step <? Z.of_nat (length l))
      then exists step,
             l !! Z.to_nat (error_step `mod` Z.of_nat (length l)) = Some step
             /\ refine_plan_with_error plan error_step error_msg dom_snippet w
                = get_task_plan (RefineContext error_step error_msg step
                                   (dom_context dom_snippet)) w
      else refine_plan_with_error plan error_step error_msg dom_snippet w
           = (Raised "list index out of range", w)
  end.
Proof.
  unfold refine_plan_with_error, bind.
  destruct (steps plan) as [l|]; [|reflexivity].
  unfold pure. cbv beta iota. rewrite list_item_spec.
  destruct ((- Z.of_nat (length l) <=? error_step)
            && (error_step <? Z.of_nat (length l))) eqn:Hin; [|reflexivity].
  apply andb_true_iff in Hin as [Hlo Hhi].
  apply Z.leb_le in Hlo. apply Z.ltb_lt in Hhi.
  destruct (l !! Z.to_nat (error_step `mod` Z.of_nat (length l))) as [step|] eqn:Hl.
  - exists step. split; reflexivity.
  - apply lookup_ge_None in Hl.
    pose proof (Z.mod_pos_bound error_step (Z.of_nat (length l))). lia.
Qed.

End planner_contract.

(** ** From the planner to the executor and back *)

Section plan_flow.
Context `{Outside X}.

Lemma has_key_lookup (step : Step) (k : string) :
  has_key step k = true -> exists v, step !! k = Some v.
Proof. unfold has_key. intros Hk%bool_decide_eq_true. exact Hk. Qed.

(** On a step that the planner's validation accepts, the dispatch of the
    executor is the browser action of that step with the step's own
    arguments: no look-up fails and the action is never unknown. *)
Theorem dispatch_well_formed (i : Z) (step : Step) (w : World X) :
  well_formed_step step = true ->
  (exists url,
     step !! "action" = Some (PStr "open") /\ step !! "url" = Some url
     /\ dispatch i (dict_get step "action") step w
        = (_action_open url ;;; pure step) w)
  \/ (exists selector value,
        step !! "action" = Some (PStr "type")
        /\ step !! "selector" = Some selector /\ step !! "value" = Some value
        /\ dispatch i (dict_get step "action") step w
           = (_action_type selector value ;;; pure step) w)
  \/ (exists selector,
        step !! "action" = Some (PStr "click") /\ step !! "selector" = Some selector
        /\ dispatch i (dict_get step "action") step w
           = (_action_click selector ;;; pure step) w)
  \/ (exists seconds,
        step !! "action" = Some (PStr "wait") /\ step !! "seconds" = Some seconds
        /\ dispatch i (dict_get step "action") step w
           = (_action_wait seconds ;;; pure step) w)
  \/ (step !! "action" = Some (PStr "screenshot")
      /\ dispatch i (dict_get step "action") step w
         = (let* screenshot_path := _save_screenshot ("step_" ++ pretty i) in
            pure (<["screenshot_path" := PStr screenshot_path]> step)) w).
Proof.
  unfold well_formed_step, dict_get.
  destruct (step !! "action") as [[| | |a]|] eqn:Hact; try discriminate.
  simpl. unfold dispatch.
  repeat case_decide; subst; try congruence.
  - intros (url & Hurl)%has_key_lookup. left. exists url.
    repeat split; try assumption.
    unfold dict_item, bind. rewrite Hurl. reflexivity.
  - intros (Hsel%has_key_lookup & Hval%has_key_lookup)%andb_true_iff.
    destruct Hsel as (selector & Hsel). destruct Hval as (value & Hval).
    right. left. exists selector, value. repeat split; try assumption.
    unfold dict_item, bind. rewrite Hsel, Hval. reflexivity.
  - intros (selector & Hsel)%has_key_lookup. right. right. left. exists selector.
    repeat split; try assumption.
    unfold dict_item, bind. rewrite Hsel. reflexivity.
  - intros (seconds & Hsec)%has_key_lookup. right. right. right. left. exists seconds.
    repeat split; try assumption.
    unfold dict_item, bind. rewrite Hsec. reflexivity.
  - intros Hshot%bool_decide_eq_true. subst. right. right. right. right.
    split; reflexivity.
  - intros Hshot%bool_decide_eq_true. congruence.
Qed.

End plan_flow.

Lemma dispatch_well_formed_witness :
  well_formed_step demo.open_step = true
  /\ forall w : World demo.Sim,
       dispatch 0 (dict_get demo.open_step "action") demo.open_step w
       = (_action_open (PStr "https://example.com") ;;; pure demo.open_step) w.
Proof.
  split; [reflexivity|]. intros w.
  destruct (dispatch_well_formed (X := demo.Sim) 0 demo.open_step w eq_refl)
    as [(url & _ & Hurl & Hd)|[(? & ? & Ha & _)|[(? & Ha & _)|[(? & Ha & _)|(Ha & _)]]]];
    try (vm_compute in Ha; discriminate).
  vm_compute in Hurl. injection Hurl as <-. exact Hd.
Defined.

(** ** What the recovery asks for *)

Section recovery_requests.
Context `{Outside X}.



End recovery_requests.


(** ** The shape of a run *)

Section run_shape.
Context `{Outside X}.

Lemma recoveries_retries (n : nat) (tail : list Phase) :
  recoveries (retries n ++ tail) = (n + recoveries tail)%nat.
Proof.
  induction n as [|n IH]; [reflexivity|].
  change (recoveries (retries (S n) ++ tail))
    with (S (recoveries (retries n ++ tail))).
  rewrite IH. reflexivity.
Qed.

Lemma attempts_retries (n : nat) (tail : list Phase) :
  Forall (eq (Returned false)) (attempts tail) ->
  Forall (eq (Returned false)) (attempts (retries n ++ tail)).
Proof.
  intros Htail. induction n as [|n IH]; [exact Htail|].
  simpl. constructor; [reflexivity|exact IH].
Qed.

(** The history that the loop writes, and the result for the ends that
    follow a successful execution. *)
Lemma retry_loop_trace (fuel : nat) (retry_count : Z) (plan : Plan)
    (w w' : World X) (r : Res bool) :
  retry_loop fuel retry_count plan w = Some (r, w') ->
  exists n tail,
    history w' = (history w ++ retries n ++ tail)%list
    /\ (tail = [] /\ n = 0%nat /\ max_retries w < retry_count
        \/ tail = [Executing (Returned true)] /\ (r = Returned true \/ exists e, r = Raised e)
        \/ tail = [Executing (Returned false)]
        \/ tail = [Executing (Returned false); Recovering false]
        \/ exists e, tail = [Executing (Raised e)] /\ r = Raised e)
    /\ Z.of_nat (recoveries (retries n ++ tail)) <= Z.max 0 (max_retries w - retry_count)
    /\ (auto_retry w = false -> recoveries (retries n ++ tail) = 0%nat).
Proof.
  revert retry_count plan w. induction fuel as [|fuel IH]; intros rc plan w; simpl;
    destruct (rc <=? max_retries w) eqn:Hle;
    try (apply Z.leb_le in Hle); try (apply Z.leb_gt in Hle); try discriminate.
  - intros [= <- <-]. exists 0%nat, []. rewrite app_nil_r.
    split; [reflexivity|].
    split; [left; split; [reflexivity|split; [reflexivity|lia]]|].
    split; [change (recoveries (retries 0 ++ [])) with 0%nat; lia|done].
  - pose proof (execute_plan_cases plan w) as Hexec.
    destruct (execute_plan plan w) as [outcome w1].
    destruct Hexec as (newev & _ & _ & Ha & Hr & _ & Hh & _).
    destruct outcome as [[|]|e0].
    3:{ intros [= <- <-]. exists 0%nat, [Executing (Raised e0)].
        split; [simpl; rewrite Hh; reflexivity|].
        split; [right; right; right; right; eauto|].
        split; [match goal with |- context [recoveries ?h] =>
                  change (recoveries h) with 0%nat end; lia|done]. }
    + intros Hfin.
      match type of Hfin with Some (?c ?v) = _ =>
        assert (Hq : quiet c)
          by (pose proof quiet_banner; pose proof quiet__print_summary; solve_quiet);
        specialize (Hq v); destruct (c v) as [r0 w0] eqn:Hc end.
      injection Hfin as -> ->. simpl in Hq.
      destruct Hq as (_ & _ & _ & _ & _ & _ & _ & _ & Hh0).
      exists 0%nat, [Executing (Returned true)].
      split; [rewrite Hh0; simpl; rewrite Hh; reflexivity|].
      split; [|split; [match goal with |- context [recoveries ?h] =>
                          change (recoveries h) with 0%nat end; lia|done]].
      right. left. split; [reflexivity|].
      unfold bind in Hc.
      match type of Hc with context [banner ?t ?v] =>
        destruct (banner_returns t v) as (wb & Hb) end.
      rewrite Hb in Hc.
      destruct (_print_summary wb) as [[[]|e] w2]; injection Hc as <- _; eauto.
    + destruct (negb (auto_retry w1) || (rc >=? max_retries w1)) eqn:Hstop.
      * intros Hfin.
        match type of Hfin with Some (?c ?v) = _ =>
          assert (Hq : quiet c)
            by (pose proof quiet_banner; pose proof quiet__print_summary; solve_quiet);
          specialize (Hq v); destruct (c v) as [r0 w0] end.
        injection Hfin as -> ->. simpl in Hq.
        destruct Hq as (_ & _ & _ & _ & _ & _ & _ & _ & Hh0).
        exists 0%nat, [Executing (Returned false)].
        split; [rewrite Hh0; simpl; rewrite Hh; reflexivity|].
        split; [right; right; left; reflexivity|].
        split; [match goal with |- context [recoveries ?h] =>
                  change (recoveries h) with 0%nat end; lia|done].
      * apply orb_false_iff in Hstop as [Hauto Hlt].
        apply negb_false_iff in Hauto. rewrite Ha in Hauto.
        rewrite Z.geb_leb in Hlt. apply Z.leb_gt in Hlt. rewrite Hr in Hlt.
        set (w1' := record_phase (Executing (Returned false)) w1).
        pose proof (quiet_try_recover rc plan w1') as Hq.
        destruct (try_recover_returns rc plan w1') as (o & w2 & Hrec).
        rewrite Hrec in *; simpl in Hq.
        destruct Hq as (_ & _ & _ & _ & _ & _ & Ha2 & Hr2 & Hh2).
        simpl in Ha2, Hr2, Hh2.
        destruct o as [plan'|].
        -- intros Hrun. apply IH in Hrun.
           destruct Hrun as (n & tail & Hn & Hend & Hbound & _).
           simpl in Hn, Hbound. rewrite Hr2, Hr in Hbound.
           exists (S n), tail.
           split; [rewrite Hn, Hh2, Hh, <- !app_assoc; reflexivity|].
           split.
           { destruct Hend as [(-> & -> & Hgt)|Hend]; [|auto].
             simpl in Hgt. rewrite Hr2, Hr in Hgt. lia. }
           split; [|congruence].
           rewrite recoveries_retries in Hbound |- *. lia.
        -- intros [= <- <-]. exists 0%nat, [Executing (Returned false); Recovering false].
           split; [simpl; rewrite Hh2, Hh, <- app_assoc; reflexivity|].
           split; [right; right; right; left; reflexivity|].
           split; [match goal with |- context [recoveries ?h] =>
                     change (recoveries h) with 1%nat end; lia|congruence].
  - intros [= <- <-]. exists 0%nat, []. rewrite app_nil_r.
    split; [reflexivity|].
    split; [left; split; [reflexivity|split; [reflexivity|lia]]|].
    split; [change (recoveries (retries 0 ++ [])) with 0%nat; lia|done].
Qed.

Lemma retry_loop_end (fuel : nat) (retry_count : Z) (plan : Plan)
    (w w' : World X) (r : Res bool) :
  retry_loop fuel retry_count plan w = Some (r, w') ->
  exists n tail,
    history w' = (history w ++ retries n ++ tail)%list
    /\ loop_end tail r
    /\ (tail = [] -> max_retries w < retry_count)
    /\ Z.of_nat (recoveries (retries n ++ tail)) <= Z.max 0 (max_retries w - retry_count)
    /\ (auto_retry w = false -> recoveries (retries n ++ tail) = 0%nat).
Proof.
  intros Hrun.
  pose proof (retry_loop_cases fuel retry_count plan w) as Hpost. rewrite Hrun in Hpost.
  destruct Hpost as (new & Hnew & _ & Hfail & _).
  destruct (retry_loop_trace _ _ _ _ _ _ Hrun) as (n & tail & Hn & Hend & Hbound & Hauto).
  rewrite Hn in Hnew. apply app_inv_head in Hnew. subst new.
  exists n, tail. split; [exact Hn|]. split; [|split; [|split; assumption]].
  - destruct Hend as [(-> & _ & _)|[(-> & [->|(e & ->)])|[->|[->|(e & -> & ->)]]]].
    + rewrite Hfail; [constructor|]. apply attempts_retries. constructor.
    + constructor.
    + constructor.
    + rewrite Hfail; [constructor|]. apply attempts_retries.
      repeat constructor.
    + rewrite Hfail; [constructor|]. apply attempts_retries.
      repeat constructor.
    + constructor.
  - intros ->. destruct Hend as [(_ & _ & Hgt)|[(Ht & _)|[Ht|[Ht|(e & Ht & _)]]]];
      [exact Hgt|discriminate..].
Qed.

(** Every run that ends has one of two histories. Either the planning
    failed, and the result is [False]; or the planning succeeded and was
    followed by some rounds of failed execution and successful recovery
    and then by one of the ends of [loop_end]. In particular the result is
    [True] only right after an execution that returned [True], when all
    executions before it had returned [False]; and the run raises in two
    cases only, when an execution raises, which nothing catches, and when
    the summary cannot be printed after a successful execution. The
    recoveries number at most [max_retries], and the loop is left through
    its condition only when [max_retries] is negative. *)
Theorem run_trace (user_prompt : string) (fuel : nat) (w w' : World X) (r : Res bool) :
  execute_task user_prompt fuel w = Some (r, w') ->
  (history w' = (history w ++ [Planning false])%list /\ r = Returned false)
  \/ exists n tail,
       history w' = (history w ++ Planning true :: retries n ++ tail)%list
       /\ loop_end tail r
       /\ (tail = [] -> max_retries w < 0)
       /\ Z.of_nat (recoveries (retries n ++ tail)) <= Z.max 0 (max_retries w).
Proof.
  unfold execute_task. intros Hrun.
  destruct (planning_returns user_prompt w) as (o & w1 & Hp & Hq).
  rewrite Hp in Hrun.
  destruct Hq as (_ & _ & _ & _ & _ & _ & _ & Hr & Hh).
  destruct o as [plan|].
  - rewrite say_returns in Hrun. apply retry_loop_end in Hrun.
    destruct Hrun as (n & tail & Hn & Hend & Hempty & Hbound & _).
    simpl in Hn, Hempty, Hbound. rewrite Hr in Hempty, Hbound.
    rewrite Z.sub_0_r in Hbound.
    right. exists n, tail. split; [rewrite Hn, Hh, <- app_assoc; reflexivity|].
    repeat split; assumption.
  - injection Hrun as <- <-. left. simpl. rewrite Hh. split; reflexivity.
Qed.

(** With [auto_retry] off the plan is executed at most once, whether
    the execution returns or raises, and no recovery takes place. *)
Theorem no_recovery_without_auto_retry
    (user_prompt : string) (fuel : nat) (w w' : World X) (r : Res bool) :
  auto_retry w = false ->
  execute_task user_prompt fuel w = Some (r, w') ->
  exists new,
    history w' = (history w ++ new)%list
    /\ (new = [Planning false] \/ new = [Planning true]
        \/ exists outcome, new = [Planning true; Executing outcome]).
Proof.
  unfold execute_task. intros Hauto Hrun.
  destruct (planning_returns user_prompt w) as (o & w1 & Hp & Hq).
  rewrite Hp in Hrun.
  destruct Hq as (_ & _ & _ & _ & _ & _ & Ha & _ & Hh).
  destruct o as [plan|].
  - rewrite say_returns in Hrun. apply retry_loop_end in Hrun.
    destruct Hrun as (n & tail & Hn & Hend & _ & _ & Hnone).
    simpl in Hn, Hnone. rewrite Ha in Hnone. specialize (Hnone Hauto).
    rewrite recoveries_retries in Hnone.
    destruct n as [|n]; [|simpl in Hnone; lia]. simpl in Hn.
    exists (Planning true :: tail).
    split; [rewrite Hn, Hh, <- app_assoc; reflexivity|].
    destruct Hend; simpl in Hnone; try discriminate; eauto.
  - injection Hrun as <- <-. exists [Planning false].
    split; [simpl; rewrite Hh; reflexivity|auto].
Qed.

(** When the browser cannot be launched, a run whose planning succeeded
    raises the exception of the launch: nothing in [execute_task] catches
    it, so the run neither returns [False] nor tries a recovery. No event
    is logged and there is no session. *)
Theorem launch_failure_escapes
    (user_prompt : string) (fuel : nat) (w w' : World X) (r : Res bool) :
  (forall options x, exists e x', Chrome options x = (Raised e, x')) ->
  driver w = None ->
  0 <= max_retries w ->
  execute_task user_prompt (S fuel) w = Some (r, w') ->
  ((r = Returned false /\ history w' = (history w ++ [Planning false])%list)
   \/ exists e, r = Raised e
                /\ history w' = (history w ++ [Planning true; Executing (Raised e)])%list)
  /\ events (monitor w') = events (monitor w)
  /\ driver w' = None.
Proof.
  unfold execute_task. intros Hnever Hd Hmax Hrun.
  destruct (planning_returns user_prompt w) as (o & w1 & Hp & Hq).
  rewrite Hp in Hrun.
  destruct Hq as (He & _ & Hd1 & _ & _ & _ & _ & Hr & Hh).
  rewrite app_nil_r in He.
  destruct o as [plan|].
  - rewrite say_returns in Hrun. simpl retry_loop in Hrun.
    rewrite Hr in Hrun.
    destruct (0 <=? max_retries w) eqn:Hle; [|apply Z.leb_gt in Hle; lia].
    unfold execute_plan, bind in Hrun.
    match type of Hrun with context [ensure_browser ?v] =>
      pose proof (ensure_browser_cases v) as Hens;
      assert (Hdv : driver v = None) by (simpl; congruence);
      rewrite Hdv in Hens;
      destruct (Hnever (headless v) (outside v)) as (e & x & Hlaunch);
      rewrite Hlaunch in Hens; rewrite Hens in Hrun end.
    injection Hrun as <- <-. simpl. rewrite Hh, He, Hd1, <- app_assoc.
    split; [right; eauto|]. split; [reflexivity|exact Hd].
  - injection Hrun as <- <-. simpl. rewrite Hh, He, Hd1.
    split; [left; split; reflexivity|]. split; [reflexivity|exact Hd].
Qed.

End run_shape.

Lemma run_trace_witness :
  let w := demo.fresh [Decoded (demo.plan_of [demo.open_step])] 2 in
  let w' := final_world (execute_task "open the page" 1 w) w in
  execute_task "open the page" 1 w = Some (Returned true, w')
  /\ ((history w' = (history w ++ [Planning false])%list
       /\ Returned true = Returned false)
      \/ exists n tail,
           history w' = (history w ++ Planning true :: retries n ++ tail)%list
           /\ loop_end tail (Returned true)
           /\ (tail = [] -> max_retries w < 0)
           /\ Z.of_nat (recoveries (retries n ++ tail)) <= Z.max 0 (max_retries w)).
Proof.
  intros w w'.
  assert (Hrun : execute_task "open the page" 1 w = Some (Returned true, w'))
    by (vm_compute; reflexivity).
  split; [exact Hrun|]. exact (run_trace "open the page" 1 w w' (Returned true) Hrun).
Defined.

Lemma launch_failure_escapes_witness :
  let w := orchestrator.__init__ false true 2 {| demo.console := [] |} in
  let w' := final_world (execute_task "open the page" 1 w) w in
  (forall options (x : demo.Missing), exists e x', Chrome options x = (Raised e, x'))
  /\ execute_task "open the page" 1 w
     = Some (Raised "Message: Unable to obtain driver for chrome", w')
  /\ history w'
     = [Planning true; Executing (Raised "Message: Unable to obtain driver for chrome")]
  /\ events (monitor w') = []
  /\ driver w' = None.
Proof.
  intros w w'.
  assert (Hnever : forall options (x : demo.Missing),
             exists e x', Chrome options x = (Raised e, x'))
    by (intros options x; eexists _, _; reflexivity).
  assert (Hrun : execute_task "open the page" 1 w
                 = Some (Raised "Message: Unable to obtain driver for chrome", w'))
    by (vm_compute; reflexivity).
  split; [exact Hnever|]. split; [exact Hrun|].
  destruct (launch_failure_escapes "open the page" 0 w w' _ Hnever eq_refl
              ltac:(vm_compute; discriminate) Hrun) as (Hend & He & Hd).
  split; [|split; assumption].
  destruct Hend as [(Hr & _)|(e & Hr & Hh)]; [discriminate|].
  injection Hr as <-. exact Hh.
Defined.

Lemma no_recovery_without_auto_retry_witness :
  let w := orchestrator.__init__ false false 2
             (demo.sim0 [Decoded (demo.plan_of [demo.click_step "#missing"])]) in
  let w' := final_world (execute_task "press the button" 1 w) w in
  auto_retry w = false
  /\ execute_task "press the button" 1 w = Some (Returned false, w')
  /\ exists new,
       history w' = (history w ++ new)%list
       /\ (new = [Planning false] \/ new = [Planning true]
           \/ exists outcome, new = [Planning true; Executing outcome]).
Proof.
  intros w w'.
  assert (Hrun : execute_task "press the button" 1 w = Some (Returned false, w'))
    by (vm_compute; reflexivity).
  split; [reflexivity|]. split; [exact Hrun|].
  exact (no_recovery_without_auto_retry "press the button" 1 w w' (Returned false)
           eq_refl Hrun).
Defined.

(** ** What a run leaves alone *)

Section run_frame.
Context `{Outside X}.

Lemma grows_refl (w : World X) : grows w w.
Proof.
  unfold grows. split; [exists []; rewrite app_nil_r; reflexivity|].
  repeat split; auto. exists []. rewrite app_nil_r. reflexivity.
Qed.

Lemma grows_trans (w w1 w2 : World X) : grows w w1 -> grows w1 w2 -> grows w w2.
Proof.
  unfold grows.
  intros ((n1 & E1) & L1 & H1 & S1 & T1 & A1 & M1 & D1 & (m1 & P1))
         ((n2 & E2) & L2 & H2 & S2 & T2 & A2 & M2 & D2 & (m2 & P2)).
  split; [exists (n1 ++ n2)%list; rewrite E2, E1, app_assoc; reflexivity|].
  split; [congruence|]. split; [congruence|]. split; [congruence|].
  split; [congruence|]. split; [congruence|]. split; [congruence|].
  split; [intros h Hd; apply D2, D1, Hd|].
  exists (m1 ++ m2)%list. rewrite P2, P1, app_assoc. reflexivity.
Qed.

Lemma evolves_grows (new : list StepEvent) (w w' : World X) :
  evolves new w w' -> grows w w'.
Proof.
  unfold evolves, grows. intros (E & L & D & Hh & S & T & A & M & P).
  split; [eauto|]. repeat split; try assumption.
  - intros h Hd. congruence.
  - exists []. rewrite app_nil_r. exact P.
Qed.

Lemma record_phase_grows (p : Phase) (w : World X) : grows w (record_phase p w).
Proof.
  unfold grows; simpl. split; [exists []; rewrite app_nil_r; reflexivity|].
  repeat split; eauto.
Qed.

Lemma execute_plan_grows (plan : Plan) (w : World X) :
  grows w (snd (execute_plan plan w)).
Proof.
  unfold execute_plan, bind.
  assert (Hens : grows w (snd (ensure_browser w))).
  { pose proof (ensure_browser_cases w) as Hc. destruct (driver w) as [h|] eqn:Hd.
    - rewrite Hc. apply grows_refl.
    - destruct (Chrome (headless w) (outside w)) as [[h|e] x]; rewrite Hc;
        unfold grows; simpl;
        (split; [exists []; rewrite app_nil_r; reflexivity|]);
        repeat split; try reflexivity;
        try (intros h' Hd'; congruence);
        exists []; rewrite app_nil_r; reflexivity. }
  destruct (ensure_browser w) as [[[]|e] w0]; simpl in Hens; [|exact Hens].
  pose proof (for_steps_cases (default [] (steps plan)) 0 w0) as Hc.
  destruct (for_steps 0 (default [] (steps plan)) w0) as [[[|]|e] w']; simpl.
  - destruct Hc as (new & Hev & _).
    eapply grows_trans; [exact Hens|]. eapply evolves_grows. exact Hev.
  - destruct Hc as (new & k & lf & Hev & _).
    eapply grows_trans; [exact Hens|]. eapply evolves_grows. exact Hev.
  - destruct Hc as (new & k & n & Hev & _).
    eapply grows_trans; [exact Hens|]. eapply evolves_grows. exact Hev.
Qed.

Lemma quiet_grows {A} (c : M (World X) A) (w : World X) :
  quiet c -> grows w (snd (c w)).
Proof. intros Hq. eapply evolves_grows. apply Hq. Qed.

Lemma retry_loop_grows (fuel : nat) (retry_count : Z) (plan : Plan)
    (w w' : World X) (r : Res bool) :
  retry_loop fuel retry_count plan w = Some (r, w') -> grows w w'.
Proof.
  revert retry_count plan w. induction fuel as [|fuel IH]; intros rc plan w; simpl;
    destruct (rc <=? max_retries w); try discriminate;
    try (intros [= <- <-]; apply grows_refl).
  pose proof (execute_plan_grows plan w) as Hg1.
  destruct (execute_plan plan w) as [success w1]. simpl in Hg1.
  set (w1' := record_phase (Executing success) w1).
  assert (Hg1' : grows w w1')
    by (eapply grows_trans; [exact Hg1|apply record_phase_grows]).
  assert (Hfin : forall (title : string) (b : bool),
             grows w (snd ((banner title ;;; _print_summary ;;; pure b) w1'))).
  { intros title b. eapply grows_trans; [exact Hg1'|]. apply quiet_grows.
    pose proof quiet_banner. pose proof quiet__print_summary. solve_quiet. }
  destruct success as [[|]|e].
  - intros [= Hrun]. specialize (Hfin "TASK COMPLETED SUCCESSFULLY" true).
    fold w1' in Hrun. rewrite Hrun in Hfin. exact Hfin.
  - destruct (negb (auto_retry w1) || (rc >=? max_retries w1)).
    + intros [= Hrun]. specialize (Hfin "TASK FAILED" false).
      fold w1' in Hrun. rewrite Hrun in Hfin. exact Hfin.
    + fold w1'. pose proof (quiet_grows _ w1' (quiet_try_recover rc plan)) as Hg2.
      destruct (try_recover rc plan w1') as [recovered w2]. simpl in Hg2.
      assert (Hg2' : grows w w2) by (eapply grows_trans; eassumption).
      destruct recovered as [[plan'|]|e].
      * intros Hrun. apply IH in Hrun.
        eapply grows_trans; [|exact Hrun].
        eapply grows_trans; [exact Hg2'|apply record_phase_grows].
      * intros [= <- <-]. eapply grows_trans; [exact Hg2'|apply record_phase_grows].
      * intros [= <- <-]. exact Hg2'.
  - intros [= <- <-]. exact Hg1'.
Qed.

(** A run of [execute_task] only appends to the log: the events that
    were there stay, in place. The listeners, the settings of the executor
    and of the orchestrator are unchanged, and a browser session that was
    open before the run is the one that is open after it. *)
Theorem execute_task_only_appends
    (user_prompt : string) (fuel : nat) (w w' : World X) (r : Res bool) :
  execute_task user_prompt fuel w = Some (r, w') ->
  (exists new, events (monitor w') = (events (monitor w) ++ new)%list)
  /\ listeners (monitor w') = listeners (monitor w)
  /\ auto_retry w' = auto_retry w
  /\ max_retries w' = max_retries w
  /\ screenshot_dir w' = screenshot_dir w
  /\ (forall h, driver w = Some h -> driver w' = Some h).
Proof.
  unfold execute_task. intros Hrun.
  destruct (planning_returns user_prompt w) as (o & w1 & Hp & Hq).
  rewrite Hp in Hrun. apply evolves_grows in Hq.
  assert (Hg : grows w w').
  { destruct o as [plan|].
    - rewrite say_returns in Hrun. apply retry_loop_grows in Hrun.
      eapply grows_trans; [exact Hq|]. eapply grows_trans; [|exact Hrun].
      eapply grows_trans; [apply record_phase_grows|].
      apply evolves_grows with (new := []). apply evolves_set_outside.
    - injection Hrun as <- <-. eapply grows_trans; [exact Hq|apply record_phase_grows]. }
  destruct Hg as (He & Hl & _ & Hs & _ & Ha & Hm & Hd & _).
  repeat split; assumption.
Qed.

End run_frame.

Lemma execute_task_only_appends_witness :
  let w := demo.fresh [Decoded (demo.plan_of [demo.open_step])] 2 in
  let w' := final_world (execute_task "open the page" 1 w) w in
  execute_task "open the page" 1 w = Some (Returned true, w')
  /\ (exists new, events (monitor w') = (events (monitor w) ++ new)%list)
  /\ listeners (monitor w') = listeners (monitor w)
  /\ auto_retry w' = auto_retry w
  /\ max_retries w' = max_retries w
  /\ screenshot_dir w' = screenshot_dir w
  /\ (forall h, driver w = Some h -> driver w' = Some h).
Proof.
  intros w w'.
  assert (Hrun : execute_task "open the page" 1 w = Some (Returned true, w'))
    by (vm_compute; reflexivity).
  split; [exact Hrun|].
  exact (execute_task_only_appends "open the page" 1 w w' (Returned true) Hrun).
Defined.

(** ** Printing the plan and the summary *)

Section printing.
Context `{Outside X}.

Lemma print_step_line_spec (i : nat) (step : Step) (w : World X) :
  exists r w',
    print_step_line i step w = (r, w')
    /\ (r = Returned tt <-> printable_step step = true).
Proof.
  unfold print_step_line, printable_step, has_key, dict_item, dict_get_default, bind,
    slice_to, call_upper.
  destruct (step !! "url") as [vu|]; destruct (step !! "selector") as [vs|];
    destruct (step !! "value") as [[| | |sv]|]; destruct (step !! "seconds") as [vt|];
    destruct (step !! "action") as [[| | |sa]|];
    simpl; eexists _, _; (split; [reflexivity|]); split; (discriminate || reflexivity).
Qed.

Lemma print_step_lines_spec (l : list Step) (i : nat) (w : World X) :
  exists r w',
    print_step_lines i l w = (r, w')
    /\ (r = Returned tt <-> forallb printable_step l = true).
Proof.
  revert i w. induction l as [|step rest IH]; intros i w; simpl.
  - eexists _, _. split; [reflexivity|]. split; reflexivity.
  - unfold bind. destruct (print_step_line_spec i step w) as (r0 & w1 & -> & Hr0).
    destruct r0 as [[]|e].
    + destruct (IH (S i) w1) as (r & w' & -> & Hr). exists r, w'.
      split; [reflexivity|]. rewrite (proj1 Hr0 eq_refl). exact Hr.
    + exists (Raised e), w1. split; [reflexivity|].
      destruct (printable_step step); simpl; [|split; discriminate].
      destruct Hr0 as [_ Hr0]. specialize (Hr0 eq_refl). discriminate.
Qed.

Lemma _print_plan_spec (plan : Plan) (w : World X) :
  exists r w',
    _print_plan plan w = (r, w')
    /\ (r = Returned tt
        <-> exists l, steps plan = Some l /\ forallb printable_step l = true).
Proof.
  unfold _print_plan, bind, plan_steps. rewrite !say_returns.
  destruct (steps plan) as [l|].
  - unfold pure at 1.
    match goal with |- context [print_step_lines 0 l ?w1] =>
      destruct (print_step_lines_spec l 0 w1) as (r & w' & -> & Hr) end.
    destruct r as [[]|e].
    + rewrite say_returns. eexists _, _. split; [reflexivity|].
      split; [intros _; exists l; split; [reflexivity|apply Hr; reflexivity]|reflexivity].
    + eexists _, _. split; [reflexivity|]. split; [discriminate|].
      intros (l' & [= <-] & Hl). apply Hr in Hl. discriminate.
  - eexists _, _. split; [reflexivity|]. split; [discriminate|].
    intros (l & Hl & _). discriminate.
Qed.

(** A plan that the validation accepts but that cannot be printed counts
    as a planning failure: [execute_task] returns [False] and the plan is
    never executed. *)
Theorem unprintable_plan_is_not_executed
    (user_prompt : string) (fuel : nat) (w w1 : World X) (plan : Plan)
    (l : list Step) :
  get_task_plan (UserPrompt user_prompt) (snd (greet user_prompt w))
  = (Returned plan, w1) ->
  steps plan = Some l ->
  forallb printable_step l = false ->
  exists w',
    execute_task user_prompt fuel w = Some (Returned false, w')
    /\ history w' = (history w ++ [Planning false])%list
    /\ events (monitor w') = events (monitor w)
    /\ driver w' = driver w.
Proof.
  intros Hplan Hsteps Hbad.
  destruct (planning_returns user_prompt w) as (o & w2 & Hp & Hq).
  unfold execute_task. rewrite Hp.
  destruct Hq as (He & _ & Hd & _ & _ & _ & _ & _ & Hh). rewrite app_nil_r in He.
  destruct o as [plan'|].
  - exfalso. unfold bind at 1 in Hp.
    destruct (greet_returns user_prompt w) as (wg & Hg). rewrite Hg in Hp, Hplan.
    simpl in Hplan. unfold try_except, plan_and_show, bind in Hp.
    rewrite Hplan in Hp. unfold plan_steps in Hp. rewrite Hsteps in Hp.
    unfold pure at 1 in Hp. rewrite say_returns in Hp.
    match type of Hp with context [_print_plan plan ?v] =>
      destruct (_print_plan_spec plan v) as (r & w3 & Hpr & Hr) end.
    rewrite Hpr in Hp. destruct r as [[]|e].
    + destruct Hr as [Hr _]. destruct (Hr eq_refl) as (l' & Hl' & Hok). congruence.
    + rewrite say_returns in Hp. discriminate.
  - eexists. split; [reflexivity|]. simpl. rewrite Hh, He, Hd. repeat split.
Qed.

Lemma status_total_steps (first : StepEvent) (rest : list StepEvent) (w : World X) :
  events (monitor w) = first :: rest ->
  _print_summary w
  = (let* total := pure (PInt (max_step_index first rest + 1)) in
     say (nl ++ "Execution Summary:") ;;;
     say (repeat_string "-" 60) ;;;
     say ("Total Steps:     " ++ pystr total) ;;;
     say ("Completed:       "
          ++ pretty (Z.of_nat (length (with_status "success" (first :: rest))))) ;;;
     say ("Failed:          "
          ++ pretty (Z.of_nat (length (with_status "failed" (first :: rest))))) ;;;
     let* ratio := true_div (PInt (Z.of_nat (length (with_status "success"
                                                       (first :: rest))))) total in
     say ("Success Rate:    " ++ format_float_1f (times_100 ratio) ++ "%") ;;;
     say (repeat_string "-" 60)) w.
Proof.
  intros Hev. unfold _print_summary, bind, gets, get_current_status. rewrite Hev.
  match goal with |- context [dict_item ?d] =>
    match d with
    | <[_ := ?s]> (<[_ := ?t]> (<[_ := ?c]> (<[_ := ?f]> {[_ := ?cs]}))) =>
        destruct (status_items s t c f cs) as (Ht & Hc & Hf)
    end end.
  cbv zeta in Ht, Hc, Hf.
  rewrite !say_returns. unfold dict_item. rewrite Ht. unfold pure at 1 2.
  rewrite !say_returns, Hc. unfold pure at 1.
  rewrite !say_returns, Hf. unfold pure at 1.
  rewrite !say_returns. unfold pure at 1 2. reflexivity.
Qed.

(** [_print_summary] raises [KeyError('completed')] on an empty log and
    [ZeroDivisionError] when the largest step index in the log is [-1];
    otherwise it returns. In no case does it touch the log. *)
Theorem _print_summary_outcome (w : World X) :
  fst (_print_summary w)
  = match events (monitor w) with
    | [] => Raised "'completed'"
    | first :: rest =>
        if max_step_index first rest =? -1 then Raised "division by zero"
        else Returned tt
    end
  /\ events (monitor (snd (_print_summary w))) = events (monitor w).
Proof.
  split.
  - destruct (events (monitor w)) as [|first rest] eqn:Hev.
    + destruct (_print_summary_not_started w Hev) as (w' & -> & _). reflexivity.
    + rewrite (status_total_steps first rest w Hev).
      unfold bind, true_div. unfold pure at 1. rewrite !say_returns.
      destruct (max_step_index first rest =? -1) eqn:Hm;
        [apply Z.eqb_eq in Hm|apply Z.eqb_neq in Hm].
      * rewrite Hm. reflexivity.
      * destruct (max_step_index first rest + 1) as [|d|d] eqn:Hd; [lia| |];
          unfold pure; rewrite !say_returns; reflexivity.
  - pose proof (quiet__print_summary w) as (He & _). rewrite He. apply app_nil_r.
Qed.

End printing.

Lemma unprintable_plan_is_not_executed_witness :
  let step : Step := {[ "action" := PStr "type"; "selector" := PStr "#q";
                        "value" := PInt 5 ]} in
  let plan := demo.plan_of [step] in
  let w := demo.fresh [Decoded plan] 2 in
  let w1 := snd (get_task_plan (UserPrompt "type five") (snd (greet "type five" w))) in
  get_task_plan (UserPrompt "type five") (snd (greet "type five" w)) = (Returned plan, w1)
  /\ forallb printable_step [step] = false
  /\ exists w',
       execute_task "type five" 3 w = Some (Returned false, w')
       /\ history w' = (history w ++ [Planning false])%list
       /\ events (monitor w') = events (monitor w)
       /\ driver w' = driver w.
Proof.
  intros step plan w w1.
  assert (Hplan : get_task_plan (UserPrompt "type five") (snd (greet "type five" w))
                  = (Returned plan, w1)) by (vm_compute; reflexivity).
  split; [exact Hplan|]. split; [reflexivity|].
  exact (unprintable_plan_is_not_executed "type five" 3 w w1 plan [step]
           Hplan eq_refl eq_refl).
Defined.

(** ** Timestamps: the console listener and the execution id *)

Section timestamps.
Context `{Outside X}.

Lemma string_app_cons (ch : ascii) (a b : string) :
  String ch a ++ b = String ch (a ++ b).
Proof. reflexivity. Qed.

Lemma string_app_nil (b : string) : EmptyString ++ b = b.
Proof. reflexivity. Qed.

Lemma string_app_assoc (a b c : string) : (a ++ b) ++ c = a ++ (b ++ c).
Proof.
  induction a as [|ch a IH]; [reflexivity|].
  rewrite !string_app_cons, IH. reflexivity.
Qed.

Lemma string_length_app (a b : string) :
  String.length (a ++ b) = (String.length a + String.length b)%nat.
Proof.
  induction a as [|ch a IH]; [reflexivity|].
  rewrite string_app_cons. simpl. rewrite IH. reflexivity.
Qed.

Lemma substring_whole_prefix (a b : string) :
  String.substring 0 (String.length a) (a ++ b) = a.
Proof.
  induction a as [|ch a IH]; [rewrite string_app_nil; destruct b; reflexivity|].
  rewrite string_app_cons. simpl. rewrite IH. reflexivity.
Qed.

Lemma occurs_app (c : ascii) (a b : string) :
  occurs c (a ++ b) = occurs c a || occurs c b.
Proof.
  induction a as [|ch a IH]; [reflexivity|].
  rewrite string_app_cons. simpl. rewrite IH. apply orb_assoc.
Qed.

Lemma remove_char_app (c : ascii) (a b : string) :
  reporter.remove_char c (a ++ b) = reporter.remove_char c a ++ reporter.remove_char c b.
Proof.
  induction a as [|ch a IH]; [reflexivity|].
  rewrite string_app_cons. simpl.
  destruct (Ascii.eqb ch c); rewrite IH; reflexivity.
Qed.

Lemma split_on_not_nil (c : ascii) (s : string) : split_on c s <> [].
Proof.
  induction s as [|a rest IH]; simpl; [discriminate|].
  destruct (Ascii.eqb a c); [discriminate|].
  destruct (split_on c rest); [contradiction|discriminate].
Qed.

Lemma split_on_second (c : ascii) (s : string) :
  split_on c s !! 1%nat = None <-> occurs c s = false.
Proof.
  induction s as [|a rest IH]; simpl; [split; reflexivity|].
  destruct (Ascii.eqb a c); simpl.
  - pose proof (split_on_not_nil c rest) as Hne.
    destruct (split_on c rest); [contradiction|]. split; discriminate.
  - pose proof (split_on_not_nil c rest) as Hne.
    destruct (split_on c rest) as [|p ps]; [contradiction|]. exact IH.
Qed.

Lemma digit_is_decimal (n : nat) :
  digit n ∈ ["0"; "1"; "2"; "3"; "4"; "5"; "6"; "7"; "8"; "9"]%char.
Proof.
  unfold digit. pose proof (Nat.mod_upper_bound n 10 ltac:(lia)) as Hk.
  destruct (n `mod` 10)%nat as [|[|[|[|[|[|[|[|[|[|k]]]]]]]]]]; [..|lia];
    rewrite !elem_of_cons; vm_compute; tauto.
Qed.

Lemma digits_length (width n : nat) : String.length (digits width n) = width.
Proof.
  revert n. induction width as [|width IH]; intros n; [reflexivity|].
  cbn [digits]. rewrite string_length_app, IH. cbn [String.length]. lia.
Qed.

Lemma remove_char_digits (c : ascii) (width n : nat) :
  c ∉ ["0"; "1"; "2"; "3"; "4"; "5"; "6"; "7"; "8"; "9"]%char ->
  reporter.remove_char c (digits width n) = digits width n.
Proof.
  intros Hc. revert n. induction width as [|width IH]; intros n; [reflexivity|].
  cbn [digits]. rewrite remove_char_app, IH. cbn [reporter.remove_char].
  destruct (Ascii.eqb (digit n) c) eqn:Heq; [|reflexivity].
  apply Ascii.eqb_eq in Heq. subst c. destruct Hc. apply digit_is_decimal.
Qed.

(** Every timestamp written by [isoformat] has a ["T"] in it. *)
Lemma isoformat_has_T (t : datetime) : occurs "T" (isoformat t) = true.
Proof.
  unfold isoformat. rewrite !occurs_app.
  do 5 (apply orb_true_iff; right). reflexivity.
Qed.

(** The console listener prints one line when the timestamp of the event
    has a ["T"] in it, as every timestamp written by [isoformat] has, and
    raises [IndexError] otherwise, having printed nothing: it takes the
    time of day from what follows the ["T"]. *)
Theorem console_listener_outcome (event : StepEvent) (x : X) :
  (if occurs "T" (timestamp event)
   then exists line, console_listener print event x = (Returned tt, print line x)
   else console_listener print event x = (Raised "list index out of range", x))
  /\ forall t, occurs "T" (isoformat t) = true.
Proof.
  split; [|apply isoformat_has_T].
  unfold console_listener.
  pose proof (split_on_second "T" (timestamp event)) as Hsplit.
  destruct (split_on "T" (timestamp event) !! 1%nat) as [time_part|].
  - destruct (occurs "T" (timestamp event)).
    + eexists. reflexivity.
    + destruct Hsplit as [_ Hsplit]. specialize (Hsplit eq_refl). discriminate.
  - rewrite (proj1 Hsplit eq_refl). reflexivity.
Qed.

Lemma isoformat_stripped (t : datetime) :
  reporter.remove_char "." (reporter.remove_char "-" (reporter.remove_char ":" (isoformat t)))
  = strftime_compact "T" t
    ++ (if (microsecond t =? 0)%nat then "" else digits 6 (microsecond t)).
Proof.
  assert (Hcolon : ":"%char ∉ ["0"; "1"; "2"; "3"; "4"; "5"; "6"; "7"; "8"; "9"]%char)
    by (rewrite !not_elem_of_cons; repeat split; try discriminate; apply not_elem_of_nil).
  assert (Hdash : "-"%char ∉ ["0"; "1"; "2"; "3"; "4"; "5"; "6"; "7"; "8"; "9"]%char)
    by (rewrite !not_elem_of_cons; repeat split; try discriminate; apply not_elem_of_nil).
  assert (Hdot : "."%char ∉ ["0"; "1"; "2"; "3"; "4"; "5"; "6"; "7"; "8"; "9"]%char)
    by (rewrite !not_elem_of_cons; repeat split; try discriminate; apply not_elem_of_nil).
  unfold isoformat, strftime_compact.
  destruct (microsecond t =? 0)%nat;
    rewrite !remove_char_app, !remove_char_digits by assumption;
    repeat match goal with
           | |- context [reporter.remove_char ?c (String ?a EmptyString)] =>
               let v := eval vm_compute in (reporter.remove_char c (String a EmptyString)) in
               change (reporter.remove_char c (String a EmptyString)) with v
           end;
    cbn [reporter.remove_char];
    rewrite ?string_app_assoc, ?string_app_nil; reflexivity.
Qed.

(** For a log whose first event carries a timestamp written by
    [isoformat], the execution id is ["exec_"] followed by the date, a
    ["T"] and the time to the second: the fraction of the second is cut
    off, and the clock is not read. *)
Theorem execution_id_of_isoformat
    (t : datetime) (first : StepEvent) (rest : list StepEvent) (x : X) :
  timestamp first = isoformat t ->
  reporter._generate_execution_id (reporter.__init__ (first :: rest)) x
  = ("exec_" ++ strftime_compact "T" t, x).
Proof.
  intros Ht. unfold reporter._generate_execution_id. simpl. rewrite Ht.
  assert (Hne : String.eqb (isoformat t) "" = false).
  { apply String.eqb_neq. intros Hnil.
    pose proof (isoformat_has_T t) as HT. rewrite Hnil in HT. discriminate. }
  rewrite Hne. simpl negb. cbv iota. rewrite isoformat_stripped.
  assert (Hlen : String.length (strftime_compact "T" t) = 15%nat).
  { unfold strftime_compact. rewrite !string_length_app, !digits_length. reflexivity. }
  rewrite <- Hlen at 1. rewrite substring_whole_prefix. reflexivity.
Qed.

End timestamps.

Lemma execution_id_of_isoformat_witness :
  let t := {| year := 2024; month := 3; day := 9; hour := 7; minute := 5; second := 30;
              microsecond := 250 |} in
  let first := event_of 0 "open" "started" (isoformat t) in
  timestamp first = isoformat t
  /\ reporter._generate_execution_id (reporter.__init__ [first]) (demo.sim0 [])
     = ("exec_20240309T070530", demo.sim0 []).
Proof.
  intros t first. split; [reflexivity|].
  exact (execution_id_of_isoformat t first [] (demo.sim0 []) eq_refl).
Defined.

(** ** The summary of a run *)

Section reports.
Context `{Outside X}.
Context (fromisoformat : string -> option datetime).

Lemma to_double_one (n : nat) :
  (0 < n)%nat -> to_double (Qmake (Z.of_nat n) (Pos.of_nat n)) = Qmake 1 1.
Proof.
  intros Hn.
  assert (Hd : Z.pos (Pos.of_nat n) = Z.of_nat n)
    by (rewrite <- Znat.positive_nat_Z, Nat2Pos.id by lia; reflexivity).
  unfold to_double. cbn [Qnum Qden]. rewrite Hd.
  remember (Z.of_nat n) as k eqn:Hk. assert (Hpos : 0 < k) by lia.
  cbv zeta.
  replace (k =? 0) with false by (symmetry; apply Z.eqb_neq; lia).
  rewrite Z.abs_eq by lia. rewrite Z.sub_diag.
  change (0 <=? 0) with true. cbv iota.
  change (2 ^ 0) with 1. rewrite Z.mul_1_r, Z.ltb_irrefl.
  change (0 - 52) with (-52). change (0 <=? -52) with false. cbv iota.
  change (- -52) with 52.
  assert (Hm : round_half_even (Qmake (k * 2 ^ 52) (Z.to_pos k)) = 2 ^ 52).
  { unfold round_half_even. cbn [Qnum Qden]. rewrite Z2Pos.id by lia.
    rewrite (Z.mul_comm k), Z.div_mul, Z.mod_mul by lia.
    replace (2 * 0 <? k) with true by (symmetry; apply Z.ltb_lt; lia).
    reflexivity. }
  rewrite Hm, Z.sgn_pos by lia. vm_compute. reflexivity.
Qed.

Lemma rate_of_all (n : nat) :
  (0 < n)%nat ->
  reporter.round2
    (reporter.NFloat
       (to_double (Qmult (to_double (Qmake (Z.of_nat n) (Pos.of_nat n))) (Qmake 100 1))))
  = reporter.NFloat (Qmake 100 1).
Proof.
  intros Hn. rewrite to_double_one by exact Hn. vm_compute. reflexivity.
Qed.

(** The summary of a call of [execute_plan] that returned, on a log that
    was empty, for a plan of [n] steps. When the call returned [True]: [n]
    steps, all of them successful, none failed, no errors, status
    ["completed"], and a success rate of 100.0 (the integer 0 for a plan
    without steps). When it returned [False], at some step [k]: [k + 1]
    steps, [k] of them successful, and two failures and two error records
    for the one step [k], since the failure is logged twice; the status is
    ["failed"]. With a browser that can be launched, tells its address and
    saves its screenshots, the call does return. *)
Theorem summary_after_run (plan : Plan) (w : World X) :
  events (monitor w) = [] ->
  (browser_starts -> address_readable -> screenshots_saved ->
   exists b w', execute_plan plan w = (Returned b, w'))
  /\ forall (b : bool) (w' : World X),
       execute_plan plan w = (Returned b, w') ->
       let s := fst (get_summary fromisoformat w') in
       let n := length (default [] (steps plan)) in
       if b then
         reporter.total_steps s = n
         /\ reporter.successful_steps s = n
         /\ reporter.failed_steps s = 0%nat
         /\ reporter.errors s = []
         /\ reporter.summary_status s = "completed"
         /\ reporter.success_rate s
            = (if (0 <? n)%nat then reporter.NFloat (Qmake 100 1) else reporter.NInt 0)
       else
         exists k, (k < n)%nat
           /\ reporter.total_steps s = S k
           /\ reporter.successful_steps s = k
           /\ reporter.failed_steps s = 2%nat
           /\ reporter.err_step <$> reporter.errors s = [Z.of_nat k; Z.of_nat k]
           /\ reporter.summary_status s = "failed".
Proof.
  intros Hempty. split; [intros Hb Ha Hs; apply execute_plan_returns; assumption|].
  intros b w' Hrun.
  pose proof (execute_plan_cases plan w) as Hc. rewrite Hrun in Hc.
  destruct Hc as (new & Hlog & _ & _ & _ & _ & _ & _ & Hshape).
  rewrite Hempty in Hlog. simpl in Hlog.
  unfold get_summary, get_execution_log, get_log, reporter.generate_summary.
  destruct (reporter._generate_execution_id (reporter.__init__ (events (monitor w')))
              (outside w')) as [id x'].
  cbn [fst reporter.total_steps reporter.successful_steps reporter.failed_steps
       reporter.errors reporter.summary_status reporter.success_rate reporter.events
       reporter.__init__].
  rewrite Hlog.
  assert (Herr : forall l : list StepEvent,
            reporter.err_step
              <$> ((fun e => {| reporter.err_step := step_index e;
                                reporter.err_action := action e;
                                reporter.err_error := error e;
                                reporter.err_screenshot := screenshot_path e |}) <$> l)
            = step_index <$> l).
  { intros l. rewrite <- list_fmap_compose. reflexivity. }
  destruct b.
  - assert (Hfailed : with_status "failed" new = []).
    { apply (fmap_nil_inv (fun e => (step_index e, status e))).
      fold (outline (with_status "failed" new)).
      rewrite outline_with_status, Hshape. apply success_pairs_failed. }
    rewrite !count_with_status, Hshape, success_pairs_started, success_pairs_success.
    rewrite success_pairs_failed, Hfailed.
    repeat split; try reflexivity.
    destruct (length (default [] (steps plan))) as [|n] eqn:Hn; [reflexivity|].
    change (0 <? S n)%nat with true. cbv iota. apply rate_of_all. lia.
  - destruct Hshape as (k & lf & Hk & Ho & _). exists k. split; [exact Hk|].
    destruct (counts_of_failed_run k new Ho) as (Hst & Hsu & Hfa & Hidx).
    rewrite Herr, Hst, Hsu, Hfa, Hidx. repeat split.
Qed.

End reports.

Lemma summary_after_run_witness :
  let w := demo.fresh [] 2 in
  let w' := snd (execute_plan demo.failing_plan w) in
  let s := fst (get_summary (fun _ => None) w') in
  events (monitor w) = []
  /\ execute_plan demo.failing_plan w = (Returned false, w')
  /\ exists k, (k < 3)%nat
       /\ reporter.total_steps s = S k
       /\ reporter.successful_steps s = k
       /\ reporter.failed_steps s = 2%nat
       /\ reporter.err_step <$> reporter.errors s = [Z.of_nat k; Z.of_nat k]
       /\ reporter.summary_status s = "failed".
Proof.
  intros w w' s.
  assert (Hrun : execute_plan demo.failing_plan w = (Returned false, w'))
    by (vm_compute; reflexivity).
  split; [reflexivity|]. split; [exact Hrun|].
  exact (proj2 (summary_after_run (fun _ => None) demo.failing_plan w eq_refl)
           false w' Hrun).
Defined.

(** ** What the summary lists *)

Section summary_contents.
Context `{Outside X}.
Context (fromisoformat : string -> option datetime).

(** The summary lists every address once, whatever the number of steps
    that ended on it, and lists exactly the addresses of the success
    events that have one: an address seen only by a started or failed
    event is not listed, and neither is [None] or the empty string. *)
Theorem urls_visited_spec (log : list StepEvent) (x : X) :
  let s := fst (reporter.generate_summary fromisoformat (reporter.__init__ log) x) in
  NoDup (reporter.urls_visited s)
  /\ (forall u, u ∈ reporter.urls_visited s
                <-> exists e, e ∈ log /\ status e = "success" /\ url e = u
                              /\ truthy u = true)
  /\ (Forall (fun e => status e <> "success") log -> reporter.urls_visited s = []).
Proof.
  unfold reporter.generate_summary.
  destruct (reporter._generate_execution_id (reporter.__init__ log) x) as [id x'].
  cbn [fst reporter.urls_visited reporter.events reporter.__init__].
  match goal with |- NoDup ?l /\ _ => remember l as urls eqn:Hurls end.
  assert (Hmem : forall u,
            u ∈ urls
            <-> exists e, e ∈ log /\ status e = "success" /\ url e = u
                          /\ truthy u = true).
  { intros u. rewrite Hurls, elem_of_elements, elem_of_list_to_set, list_elem_of_fmap.
    split.
    - intros (e & -> & He). apply list_elem_of_filter in He as ((Ht & Hs) & He).
      exists e. repeat split; assumption.
    - intros (e & He & Hs & <- & Ht). exists e. split; [reflexivity|].
      apply list_elem_of_filter. split; [|exact He]. split; assumption. }
  split; [rewrite Hurls; apply NoDup_elements|]. split; [exact Hmem|].
  intros Hnone. clear Hurls. destruct urls as [|u rest]; [reflexivity|].
  exfalso. destruct (proj1 (Hmem u)) as (e & He & Hs & _); [apply list_elem_of_here|].
  rewrite list.Forall_forall in Hnone. exact (Hnone e He Hs).
Qed.

(** The duration of a log is ["N/A"] when the log is empty. For a log of
    one event it is ["0.0s"], the event being its own start and end, unless
    the timestamp of the event is empty or cannot be parsed: then it is
    ["N/A"] as well. *)
Theorem duration_of_short_logs (e : StepEvent) :
  reporter._calculate_duration fromisoformat (reporter.__init__ []) = "N/A"
  /\ reporter._calculate_duration fromisoformat (reporter.__init__ [e])
     = if String.eqb (timestamp e) "" then "N/A"
       else if fromisoformat (timestamp e) is Some _ then "0.0s" else "N/A".
Proof.
  split; [reflexivity|].
  unfold reporter._calculate_duration, reporter.__init__, reporter.is_set.
  cbn [reporter.start_time reporter.end_time head list.last fmap option_fmap option_map].
  destruct (String.eqb (timestamp e) "") eqn:Hempty; [reflexivity|].
  cbn [negb orb].
  destruct (fromisoformat (timestamp e)) as [t|]; [|reflexivity].
  unfold reporter.total_seconds. rewrite Z.sub_diag. reflexivity.
Qed.

End summary_contents.
